(** * Job-application pipeline: gateway, agents, dispatch loop, metrics

    A shallow embedding of [agents.py], [utils.py] and [app.py].

    Text.  A Python [str] is a Rocq [string] whose characters stand for the
    code points 0..255.  The few symbols of the source's literals outside
    that range (the emoji of some log lines and of the page title) are
    spelled by their UTF-8 bytes; they only reach the log and the page.

    Effects.  Every function of the source that touches Streamlit, the
    clock, the generation provider, the mail server or the PDF reader is a
    computation over a [World]: the session state, the trace of what was
    shown or sent, and a tick that indexes the answers of the outside
    world, which are the fields of [Env].  An uncaught Python exception is
    the result [Raise]. *)

From Stdlib Require Import String Ascii List Arith Bool Lia.
From Stdlib Require Import DecimalString.
Import ListNotations.
Open Scope string_scope.
Open Scope nat_scope.
Set Warnings "-register-all".

(* ===================================================================== *)
(** ** Python text primitives                                             *)
(* ===================================================================== *)

Module Py.

(** The double quote, and the control characters with a short escape. *)
Definition dquote : ascii := "034"%char.
Definition bslash : ascii := "092"%char.
Definition bksp   : ascii := "008"%char.
Definition ffeed  : ascii := "012"%char.
Definition nl     : ascii := "010"%char.
Definition cret   : ascii := "013"%char.
Definition tab    : ascii := "009"%char.

Definition DQ : string := String dquote "".
Definition NL : string := String nl "".

(** [s.startswith(p)] *)
Fixpoint startswith (p s : string) : bool :=
  match p, s with
  | EmptyString, _ => true
  | String a p', String b s' => Ascii.eqb a b && startswith p' s'
  | String _ _, EmptyString => false
  end.

(** [needle in hay] on two strings. *)
Fixpoint str_in (needle hay : string) : bool :=
  startswith needle hay ||
  match hay with
  | EmptyString => false
  | String _ hay' => str_in needle hay'
  end.

(** [sep.join(parts)] *)
Fixpoint join (sep : string) (parts : list string) : string :=
  match parts with
  | [] => ""
  | [p] => p
  | p :: rest => p ++ sep ++ join sep rest
  end.

(** [s[:n]] *)
Fixpoint take (n : nat) (s : string) : string :=
  match n, s with
  | S n', String c s' => String c (take n' s')
  | _, _ => ""
  end.

(** The characters of a string, as iteration over a [str] yields them. *)
Fixpoint chars (s : string) : list string :=
  match s with
  | EmptyString => []
  | String c s' => String c "" :: chars s'
  end.

(** [str(n)] for a non-negative [int]. *)
Definition str_of_nat (n : nat) : string :=
  NilZero.string_of_uint (Nat.to_uint n).

(** Truthiness of a [str]. *)
Definition truthy (s : string) : bool :=
  match s with EmptyString => false | _ => true end.

End Py.

(* ===================================================================== *)
(** ** JSON values, [json.dumps] and [json.loads]                         *)
(* ===================================================================== *)

(** What [json.loads] builds.  A number keeps its lexeme: the pipeline never
    computes with one.  A [dict] keeps insertion order and has no duplicate
    key when it comes from the decoder. *)
Inductive json : Type :=
| JNull
| JBool (b : bool)
| JNum (lexeme : string)
| JStr (s : string)
| JArr (items : list json)
| JObj (members : list (string * json)).

(** How a call of [json.loads] ends. *)
Inductive decoded : Type :=
| Decoded (v : json)
  (** [json.JSONDecodeError]: the text is not well formed. *)
| Malformed
  (** [RecursionError]: the text nests arrays and objects deeper than the
      interpreter has room for. *)
| TooDeep
  (** [ValueError]: an integer literal has more digits than
      [sys.get_int_max_str_digits()] allows. *)
| TooLong
  (** The text is well formed and within the limits, and one of its
      strings holds a character above 255: [json.loads] returns a value
      that the strings of this model, code points 0 to 255, cannot hold. *)
| Beyond.

Module Json.
Import Py.

(** *** Dictionaries *)

(** [d.get(key, default)] *)
Fixpoint get (key : string) (default : json) (d : list (string * json)) : json :=
  match d with
  | [] => default
  | (k, v) :: d' => if String.eqb k key then v else get key default d'
  end.

(** [d[key] = v]: an existing key keeps its place. *)
Fixpoint set (key : string) (v : json) (d : list (string * json))
  : list (string * json) :=
  match d with
  | [] => [(key, v)]
  | (k, v0) :: d' =>
      if String.eqb k key then (k, v) :: d' else (k, v0) :: set key v d'
  end.

(** [key in d] *)
Fixpoint has_key (key : string) (d : list (string * json)) : bool :=
  match d with
  | [] => false
  | (k, _) :: d' => String.eqb k key || has_key key d'
  end.

(** [dict(pairs)]: later pairs overwrite earlier ones. *)
Definition of_pairs (pairs : list (string * json)) : list (string * json) :=
  fold_left (fun d kv => set (fst kv) (snd kv) d) pairs [].

(** *** Encoding: [json.dumps(v)] with the default [ensure_ascii] and
    separators.  A number is written by its lexeme; the source encodes the
    two fallback payloads only, and they hold no number. *)

Definition hexdigit (n : nat) : ascii :=
  if n <? 10 then ascii_of_nat (48 + n) else ascii_of_nat (87 + n).

(** One character of a string literal: the short escapes of
    [ESCAPE_DCT], the printable ASCII range as it is, [\u00xx] for the
    rest. *)
Definition escape_char (c : ascii) : string :=
  let n := nat_of_ascii c in
  if Ascii.eqb c dquote then String bslash (String dquote "")
  else if Ascii.eqb c bslash then String bslash (String bslash "")
  else if Ascii.eqb c nl then String bslash "n"
  else if Ascii.eqb c cret then String bslash "r"
  else if Ascii.eqb c tab then String bslash "t"
  else if Ascii.eqb c ffeed then String bslash "f"
  else if Ascii.eqb c bksp then String bslash "b"
  else if (32 <=? n) && (n <=? 126) then String c ""
  else String bslash
         (String "u" (String "0" (String "0"
            (String (hexdigit (n / 16)) (String (hexdigit (n mod 16)) ""))))).

Fixpoint escape (s : string) : string :=
  match s with
  | EmptyString => ""
  | String c s' => escape_char c ++ escape s'
  end.

Definition quote (s : string) : string := DQ ++ escape s ++ DQ.

Fixpoint dumps (v : json) : string :=
  match v with
  | JNull => "null"
  | JBool true => "true"
  | JBool false => "false"
  | JNum lexeme => lexeme
  | JStr s => quote s
  | JArr items => "[" ++ join ", " (map dumps items) ++ "]"
  | JObj members =>
      "{" ++ join ", "
               (map (fun kv => quote (fst kv) ++ ": " ++ dumps (snd kv)) members)
          ++ "}"
  end.

(** *** Decoding: [json.loads(s)] *)

Definition is_ws (c : ascii) : bool :=
  Ascii.eqb c " " || Ascii.eqb c tab || Ascii.eqb c nl || Ascii.eqb c cret.

Fixpoint skip_ws (s : string) : string :=
  match s with
  | String c s' => if is_ws c then skip_ws s' else s
  | EmptyString => ""
  end.

Definition is_digit (c : ascii) : bool :=
  let n := nat_of_ascii c in (48 <=? n) && (n <=? 57).

Definition hexval (c : ascii) : option nat :=
  let n := nat_of_ascii c in
  if (48 <=? n) && (n <=? 57) then Some (n - 48)
  else if (97 <=? n) && (n <=? 102) then Some (n - 87)
  else if (65 <=? n) && (n <=? 70) then Some (n - 55)
  else None.

(** The code point of [\uXXXX]. *)
Definition hex4 (a b c d : ascii) : option nat :=
  match hexval a, hexval b, hexval c, hexval d with
  | Some x, Some y, Some z, Some t =>
      Some (((x * 16 + y) * 16 + z) * 16 + t)
  | _, _, _, _ => None
  end.

(** The character of a code point.  A string of this model holds the code
    points up to 255.  One above has no character here, unless [lenient],
    which reads it as a question mark: [loads] scans a text leniently to
    learn whether it is well formed, and strictly for its value. *)
Definition narrow (lenient : bool) (n : nat) : option ascii :=
  if n <? 256 then Some (ascii_of_nat n)
  else if lenient then Some "?"%char
  else None.

Definition unescape (c : ascii) : option ascii :=
  if Ascii.eqb c dquote then Some dquote
  else if Ascii.eqb c bslash then Some bslash
  else if Ascii.eqb c "/" then Some "/"%char
  else if Ascii.eqb c "b" then Some bksp
  else if Ascii.eqb c "f" then Some ffeed
  else if Ascii.eqb c "n" then Some nl
  else if Ascii.eqb c "r" then Some cret
  else if Ascii.eqb c "t" then Some tab
  else None.

Definition push (c : ascii) (r : option (string * string))
  : option (string * string) :=
  match r with
  | Some (t, rest) => Some (String c t, rest)
  | None => None
  end.

(** [scanstring], strict: the text after an opening quote, up to the
    closing one; the decoded literal and what follows it.  Each [\uXXXX]
    is read by itself: the two escapes of a surrogate pair are both above
    255. *)
Fixpoint scanstring (lenient : bool) (s : string) : option (string * string) :=
  match s with
  | EmptyString => None
  | String c r =>
      if Ascii.eqb c dquote then Some ("", r)
      else if Ascii.eqb c bslash then
        match r with
        | EmptyString => None
        | String e r1 =>
            if Ascii.eqb e "u" then
              match r1 with
              | String h1 (String h2 (String h3 (String h4 r2))) =>
                  match hex4 h1 h2 h3 h4 with
                  | Some n =>
                      match narrow lenient n with
                      | Some u => push u (scanstring lenient r2)
                      | None => None
                      end
                  | None => None
                  end
              | _ => None
              end
            else
              match unescape e with
              | Some u => push u (scanstring lenient r1)
              | None => None
              end
        end
      else if nat_of_ascii c <? 32 then None
      else push c (scanstring lenient r)
  end.

(** The longest run of digits at the head of [s]. *)
Fixpoint digits (s : string) : string * string :=
  match s with
  | String c s' =>
      if is_digit c then let (d, r) := digits s' in (String c d, r)
      else ("", s)
  | EmptyString => ("", "")
  end.

(** [NUMBER_RE]: an optional minus sign, then 0 or a digit run that does
    not start with 0; an optional fraction, a dot and at least one digit;
    an optional exponent, e or E, an optional sign, at least one digit. *)
Definition int_part (s : string) : option (string * string) :=
  match s with
  | String c s' =>
      if Ascii.eqb c "0" then Some ("0", s')
      else if is_digit c then let (d, r) := digits s' in Some (String c d, r)
      else None
  | EmptyString => None
  end.

Definition frac_part (s : string) : string * string :=
  match s with
  | String c s' =>
      if Ascii.eqb c "." then
        match digits s' with
        | (EmptyString, _) => ("", s)
        | (d, r) => (String c d, r)
        end
      else ("", s)
  | EmptyString => ("", s)
  end.

Definition exp_digits (mark : string) (s whole : string) : string * string :=
  match digits s with
  | (EmptyString, _) => ("", whole)
  | (d, r) => (mark ++ d, r)
  end.

Definition exp_part (s : string) : string * string :=
  match s with
  | String e s' =>
      if Ascii.eqb e "e" || Ascii.eqb e "E" then
        match s' with
        | String sg s'' =>
            if Ascii.eqb sg "+" || Ascii.eqb sg "-"
            then exp_digits (String e (String sg "")) s'' s
            else exp_digits (String e "") s' s
        | EmptyString => ("", s)
        end
      else ("", s)
  | EmptyString => ("", s)
  end.

Definition sign_part (s : string) : string * string :=
  match s with
  | String c s' => if Ascii.eqb c "-" then ("-", s') else ("", s)
  | EmptyString => ("", s)
  end.

Definition scan_number (s : string) : option (string * string) :=
  let (sign, s1) := sign_part s in
  match int_part s1 with
  | Some (i, s2) =>
      let (f, s3) := frac_part s2 in
      let (e, s4) := exp_part s3 in
      Some (sign ++ i ++ f ++ e, s4)
  | None => None
  end.

(** A lexeme without fraction and exponent goes to [int]; the others go
    to [float], which has no limit of length. *)
Fixpoint is_integer (lexeme : string) : bool :=
  match lexeme with
  | EmptyString => true
  | String c r => (is_digit c || Ascii.eqb c "-") && is_integer r
  end.

Fixpoint count_digits (lexeme : string) : nat :=
  match lexeme with
  | EmptyString => 0
  | String c r => (if is_digit c then 1 else 0) + count_digits r
  end.

(** Whether [int(lexeme)] raises: the lexeme has more digits than the
    limit of the interpreter, when it has one. *)
Definition too_long (max_digits : option nat) (lexeme : string) : bool :=
  match max_digits with
  | Some m => is_integer lexeme && (m <? count_digits lexeme)
  | None => false
  end.

(** [s] with the word [w] taken off its head. *)
Fixpoint strip (w s : string) : option string :=
  match w, s with
  | EmptyString, _ => Some s
  | String a w', String b s' => if Ascii.eqb a b then strip w' s' else None
  | String _ _, EmptyString => None
  end.

(** Why a scan stops without a value: the text is not well formed, it
    nests too deep, an integer is too long.  [Fuel] is the recursion of
    this model running out, which the fuel of [loads] excludes. *)
Inductive failure : Type := Syntax | Depth | Digits | Fuel.

(** A value and the text after it, or a failure. *)
Inductive scanned : Type :=
| Got (v : json) (rest : string)
| Lost (why : failure).

(** The constants, then the number pattern, then the three IEEE names, in
    the order [scan_once] tries them. *)
Definition scan_atom (max_digits : option nat) (s : string) : scanned :=
  match strip "null" s with
  | Some r => Got JNull r
  | None =>
  match strip "true" s with
  | Some r => Got (JBool true) r
  | None =>
  match strip "false" s with
  | Some r => Got (JBool false) r
  | None =>
  match scan_number s with
  | Some (lexeme, r) =>
      if too_long max_digits lexeme then Lost Digits else Got (JNum lexeme) r
  | None =>
  match strip "NaN" s with
  | Some r => Got (JNum "NaN") r
  | None =>
  match strip "Infinity" s with
  | Some r => Got (JNum "Infinity") r
  | None =>
  match strip "-Infinity" s with
  | Some r => Got (JNum "-Infinity") r
  | None => Lost Syntax
  end end end end end end end.

(** [scan_once], [JSONArray] and [JSONObject].  [lenient] is how wide
    escapes are read and [max_digits] the limit on the digits of an integer
    ([None]: the interpreter has none).  [depth] is the number of
    arrays and objects that can still be entered, one inside the other,
    before the interpreter raises [RecursionError]; the scanner asks for
    that room when it meets an opening bracket or brace.  The fuel bounds
    the number of nested calls of this definition; [loads] gives two units
    per character. *)
Fixpoint scan_once (lenient : bool) (max_digits : option nat)
         (fuel depth : nat) (s : string) {struct fuel} : scanned :=
  match fuel with
  | 0 => Lost Fuel
  | S fuel' =>
      match s with
      | EmptyString => Lost Syntax
      | String c r =>
          if Ascii.eqb c dquote then
            match scanstring lenient r with
            | Some (t, r') => Got (JStr t) r'
            | None => Lost Syntax
            end
          else if Ascii.eqb c "{" then
            match depth with
            | 0 => Lost Depth
            | S depth' =>
                match skip_ws r with
                | String c' r' =>
                    if Ascii.eqb c' "}" then Got (JObj []) r'
                    else if Ascii.eqb c' dquote
                         then scan_members lenient max_digits fuel' depth'
                                           r' []
                         else Lost Syntax
                | EmptyString => Lost Syntax
                end
            end
          else if Ascii.eqb c "[" then
            match depth with
            | 0 => Lost Depth
            | S depth' =>
                match skip_ws r with
                | String c' r' =>
                    if Ascii.eqb c' "]" then Got (JArr []) r'
                    else scan_items lenient max_digits fuel' depth'
                                    (String c' r') []
                | EmptyString => Lost Syntax
                end
            end
          else scan_atom max_digits s
      end
  end

(** The items of an array from the head of [s], [acc] holding those read
    so far, newest first. *)
with scan_items (lenient : bool) (max_digits : option nat)
         (fuel depth : nat) (s : string) (acc : list json) {struct fuel}
  : scanned :=
  match fuel with
  | 0 => Lost Fuel
  | S fuel' =>
      match scan_once lenient max_digits fuel' depth s with
      | Got v r =>
          match skip_ws r with
          | String c' r' =>
              if Ascii.eqb c' "]" then Got (JArr (rev (v :: acc))) r'
              else if Ascii.eqb c' ","
                   then scan_items lenient max_digits fuel' depth
                                   (skip_ws r') (v :: acc)
                   else Lost Syntax
          | EmptyString => Lost Syntax
          end
      | Lost why => Lost why
      end
  end

(** The members of an object; [s] starts after the opening quote of a
    key. *)
with scan_members (lenient : bool) (max_digits : option nat)
         (fuel depth : nat) (s : string) (acc : list (string * json))
         {struct fuel} : scanned :=
  match fuel with
  | 0 => Lost Fuel
  | S fuel' =>
      match scanstring lenient s with
      | Some (key, r) =>
          match skip_ws r with
          | String c1 r1 =>
              if Ascii.eqb c1 ":" then
                match scan_once lenient max_digits fuel' depth (skip_ws r1) with
                | Got v r2 =>
                    match skip_ws r2 with
                    | String c3 r3 =>
                        if Ascii.eqb c3 "}" then
                          Got (JObj (of_pairs (rev ((key, v) :: acc)))) r3
                        else if Ascii.eqb c3 "," then
                          match skip_ws r3 with
                          | String c' r4 =>
                              if Ascii.eqb c' dquote
                              then scan_members lenient max_digits fuel' depth
                                                r4 ((key, v) :: acc)
                              else Lost Syntax
                          | EmptyString => Lost Syntax
                          end
                        else Lost Syntax
                    | EmptyString => Lost Syntax
                    end
                | Lost why => Lost why
                end
              else Lost Syntax
          | EmptyString => Lost Syntax
          end
      | None => Lost Syntax
      end
  end.

(** The scan of a whole text: leading space, one value, trailing space,
    and nothing after it. *)
Definition scan_text (lenient : bool) (max_digits : option nat)
           (depth : nat) (s : string) : scanned :=
  match scan_once lenient max_digits (2 * String.length s + 2) depth
                  (skip_ws s) with
  | Got v r =>
      match skip_ws r with
      | EmptyString => Got v ""
      | _ => Lost Syntax
      end
  | Lost why => Lost why
  end.

(** [json.loads(s)] in an interpreter with these limits.  The lenient scan
    tells how the call ends: it stops at the first thing wrong, as the
    scanner does.  When nothing is wrong the strict scan gives the value,
    or finds it [Beyond] the model. *)
Definition loads (max_digits : option nat) (depth : nat) (s : string)
  : decoded :=
  match scan_text true max_digits depth s with
  | Got _ _ =>
      match scan_text false max_digits depth s with
      | Got v _ => Decoded v
      | Lost _ => Beyond
      end
  | Lost Depth => TooDeep
  | Lost Digits => TooLong
  | Lost _ => Malformed
  end.

End Json.

(* ===================================================================== *)
(** ** The outside world                                                  *)
(* ===================================================================== *)

(** What the generation provider does with one request: [response.text],
    [ResourceExhausted], or any other exception with its message. *)
Inductive ProviderOutcome : Type :=
| Generated (text : string)
| ResourceExhausted
| ProviderFailure (msg : string).

(** One SMTP session (connect, STARTTLS, login, send, quit). *)
Inductive SmtpOutcome : Type :=
| Delivered
| SMTPAuthenticationError
| SmtpFailure (msg : string).

(** [page.extract_text()] and [PdfReader(pdf_file)]. *)
Inductive PageOutcome : Type :=
| PageText (text : string)
| PageFailure (msg : string).

Inductive PdfOutcome : Type :=
| PdfPages (pages : list PageOutcome)
| PdfFailure (msg : string).

(** The uploaded file: its name and its bytes. *)
Record UploadedFile : Type := {
  uf_name : string;
  uf_bytes : string
}.

(** The MIME message [send_email_with_attachment] builds. *)
Record Email : Type := {
  msg_from : string;
  msg_to : json;
  msg_subject : string;
  msg_body : string;
  msg_attachment : option (option string * string)
}.

(** The answers of the outside world.  [generate], [smtp_session] and [now]
    are asked with the tick of the request, so that two requests may be
    answered differently. *)
Record Env : Type := {
  (** [st.secrets.get("GEMINI_API_KEY", "")]; [None] when reading the
      secrets raises. *)
  secrets_key : option string;
  (** [model.generate_content(prompt)] then [.text], for a model name and a
      response MIME type. *)
  generate : nat -> string -> option string -> string -> ProviderOutcome;
  (** The SMTP session for a message and an application password. *)
  smtp_session : nat -> Email -> string -> SmtpOutcome;
  (** [PdfReader] on the uploaded file. *)
  read_pdf : UploadedFile -> PdfOutcome;
  (** [datetime.now().strftime("%H:%M:%S")] *)
  now : nat -> string;
  (** [str(v)] for a value that is neither [str], [None] nor [bool]. *)
  str_other : json -> string;
  (** The content of [style.css], when the file exists. *)
  style_css : option string;
  (** Whether [pd.DataFrame(v)] accepts the value. *)
  dataframe_ok : json -> bool;
  (** The arrays and objects [json.loads] can enter, one inside the other,
      beyond the two levels of the fallback payloads, before the
      interpreter raises [RecursionError]. *)
  recursion_room : nat;
  (** [sys.get_int_max_str_digits()]; [None] when the interpreter has no
      limit. *)
  int_max_str_digits : option nat;
  (** What the model takes for the value of a text that is [Beyond] it:
      [json.loads] returns a value there, with a character above 255 in
      one of its strings, and the model has to make do with a value of
      its own. *)
  beyond : string -> json
}.

(** What a run leaves behind, in the order it happened. *)
Inductive event : Type :=
| St (call : string) (content : string)
| Configure (api_key : string)
| GenerateContent (model : string) (mime : option string) (prompt : string)
| Sleep (seconds : nat)
| SmtpSession (msg : Email) (password : string).

(** [st.session_state], once [init_session_state] has filled it. *)
Record Session : Type := {
  logs : list string;
  jobs_identified : nat;
  successful_dispatches : nat;
  api_fallbacks : nat;
  parsed_resume : option json;
  mock_jobs : option json;
  interview_questions : option string;
  pdf_bytes : option string;
  pdf_filename : option string;
  workflow_started : bool;
  workflow_completed : bool;
  gemini_api_key : option string
}.

Record World : Type := {
  session : Session;
  trace : list event;
  tick : nat
}.

Inductive pyexn : Type :=
| TypeError
| AttributeError
| ValueError
| JSONDecodeError
| RecursionError.

Inductive res (A : Type) : Type :=
| Ok (a : A)
| Raise (e : pyexn).
Arguments Ok {A} a.
Arguments Raise {A} e.

(** A computation: a result or an uncaught exception, and the world after. *)
Definition M (A : Type) : Type := World -> res A * World.

Definition ret {A} (a : A) : M A := fun w => (Ok a, w).

Definition bind {A B} (m : M A) (k : A -> M B) : M B :=
  fun w =>
    match m w with
    | (Ok a, w') => k a w'
    | (Raise e, w') => (Raise e, w')
    end.

Definition raise {A} (e : pyexn) : M A := fun w => (Raise e, w).

Definition lift {A} (r : res A) : M A := fun w => (r, w).

Declare Scope py_scope.
Delimit Scope py_scope with py.
Notation "x <- m ;; k" := (bind m (fun x => k))
  (at level 61, m at next level, right associativity) : py_scope.
Notation "m ;; k" := (bind m (fun _ => k))
  (at level 61, right associativity) : py_scope.
Open Scope py_scope.

Definition emit (e : event) : M unit :=
  fun w => (Ok tt, {| session := session w;
                      trace := (trace w ++ [e])%list;
                      tick := tick w |}).

(** The tick of a request to the outside world; the next request gets the
    next one. *)
Definition next_tick : M nat :=
  fun w => (Ok (tick w), {| session := session w;
                            trace := trace w;
                            tick := S (tick w) |}).

Definition gets {A} (f : Session -> A) : M A :=
  fun w => (Ok (f (session w)), w).

Definition modify (f : Session -> Session) : M unit :=
  fun w => (Ok tt, {| session := f (session w);
                      trace := trace w;
                      tick := tick w |}).

(** Assignments to the keys of the session state. *)
Definition set_logs (v : list string) (s : Session) : Session :=
  {| logs := v; jobs_identified := jobs_identified s;
     successful_dispatches := successful_dispatches s;
     api_fallbacks := api_fallbacks s; parsed_resume := parsed_resume s;
     mock_jobs := mock_jobs s; interview_questions := interview_questions s;
     pdf_bytes := pdf_bytes s; pdf_filename := pdf_filename s;
     workflow_started := workflow_started s;
     workflow_completed := workflow_completed s;
     gemini_api_key := gemini_api_key s |}.

Definition set_jobs_identified (v : nat) (s : Session) : Session :=
  {| logs := logs s; jobs_identified := v;
     successful_dispatches := successful_dispatches s;
     api_fallbacks := api_fallbacks s; parsed_resume := parsed_resume s;
     mock_jobs := mock_jobs s; interview_questions := interview_questions s;
     pdf_bytes := pdf_bytes s; pdf_filename := pdf_filename s;
     workflow_started := workflow_started s;
     workflow_completed := workflow_completed s;
     gemini_api_key := gemini_api_key s |}.

Definition set_successful_dispatches (v : nat) (s : Session) : Session :=
  {| logs := logs s; jobs_identified := jobs_identified s;
     successful_dispatches := v;
     api_fallbacks := api_fallbacks s; parsed_resume := parsed_resume s;
     mock_jobs := mock_jobs s; interview_questions := interview_questions s;
     pdf_bytes := pdf_bytes s; pdf_filename := pdf_filename s;
     workflow_started := workflow_started s;
     workflow_completed := workflow_completed s;
     gemini_api_key := gemini_api_key s |}.

Definition set_api_fallbacks (v : nat) (s : Session) : Session :=
  {| logs := logs s; jobs_identified := jobs_identified s;
     successful_dispatches := successful_dispatches s;
     api_fallbacks := v; parsed_resume := parsed_resume s;
     mock_jobs := mock_jobs s; interview_questions := interview_questions s;
     pdf_bytes := pdf_bytes s; pdf_filename := pdf_filename s;
     workflow_started := workflow_started s;
     workflow_completed := workflow_completed s;
     gemini_api_key := gemini_api_key s |}.

Definition set_parsed_resume (v : option json) (s : Session) : Session :=
  {| logs := logs s; jobs_identified := jobs_identified s;
     successful_dispatches := successful_dispatches s;
     api_fallbacks := api_fallbacks s; parsed_resume := v;
     mock_jobs := mock_jobs s; interview_questions := interview_questions s;
     pdf_bytes := pdf_bytes s; pdf_filename := pdf_filename s;
     workflow_started := workflow_started s;
     workflow_completed := workflow_completed s;
     gemini_api_key := gemini_api_key s |}.

Definition set_mock_jobs (v : option json) (s : Session) : Session :=
  {| logs := logs s; jobs_identified := jobs_identified s;
     successful_dispatches := successful_dispatches s;
     api_fallbacks := api_fallbacks s; parsed_resume := parsed_resume s;
     mock_jobs := v; interview_questions := interview_questions s;
     pdf_bytes := pdf_bytes s; pdf_filename := pdf_filename s;
     workflow_started := workflow_started s;
     workflow_completed := workflow_completed s;
     gemini_api_key := gemini_api_key s |}.

Definition set_interview_questions (v : option string) (s : Session) : Session :=
  {| logs := logs s; jobs_identified := jobs_identified s;
     successful_dispatches := successful_dispatches s;
     api_fallbacks := api_fallbacks s; parsed_resume := parsed_resume s;
     mock_jobs := mock_jobs s; interview_questions := v;
     pdf_bytes := pdf_bytes s; pdf_filename := pdf_filename s;
     workflow_started := workflow_started s;
     workflow_completed := workflow_completed s;
     gemini_api_key := gemini_api_key s |}.

Definition set_pdf (bytes name : option string) (s : Session) : Session :=
  {| logs := logs s; jobs_identified := jobs_identified s;
     successful_dispatches := successful_dispatches s;
     api_fallbacks := api_fallbacks s; parsed_resume := parsed_resume s;
     mock_jobs := mock_jobs s; interview_questions := interview_questions s;
     pdf_bytes := bytes; pdf_filename := name;
     workflow_started := workflow_started s;
     workflow_completed := workflow_completed s;
     gemini_api_key := gemini_api_key s |}.

Definition set_workflow_started (v : bool) (s : Session) : Session :=
  {| logs := logs s; jobs_identified := jobs_identified s;
     successful_dispatches := successful_dispatches s;
     api_fallbacks := api_fallbacks s; parsed_resume := parsed_resume s;
     mock_jobs := mock_jobs s; interview_questions := interview_questions s;
     pdf_bytes := pdf_bytes s; pdf_filename := pdf_filename s;
     workflow_started := v;
     workflow_completed := workflow_completed s;
     gemini_api_key := gemini_api_key s |}.

Definition set_workflow_completed (v : bool) (s : Session) : Session :=
  {| logs := logs s; jobs_identified := jobs_identified s;
     successful_dispatches := successful_dispatches s;
     api_fallbacks := api_fallbacks s; parsed_resume := parsed_resume s;
     mock_jobs := mock_jobs s; interview_questions := interview_questions s;
     pdf_bytes := pdf_bytes s; pdf_filename := pdf_filename s;
     workflow_started := workflow_started s;
     workflow_completed := v;
     gemini_api_key := gemini_api_key s |}.

Definition set_gemini_api_key (v : option string) (s : Session) : Session :=
  {| logs := logs s; jobs_identified := jobs_identified s;
     successful_dispatches := successful_dispatches s;
     api_fallbacks := api_fallbacks s; parsed_resume := parsed_resume s;
     mock_jobs := mock_jobs s; interview_questions := interview_questions s;
     pdf_bytes := pdf_bytes s; pdf_filename := pdf_filename s;
     workflow_started := workflow_started s;
     workflow_completed := workflow_completed s;
     gemini_api_key := v |}.

(** *** Operations on decoded values, with Python's dynamic typing *)

Module Dyn.
Import Py.

(** [v.get(key, default)]: only a [dict] has the method. *)
Definition get (v : json) (key : string) (default : json) : res json :=
  match v with
  | JObj d => Ok (Json.get key default d)
  | _ => Raise AttributeError
  end.

(** [v[key] = x] with a [str] key. *)
Definition setitem (v : json) (key : string) (x : json) : res json :=
  match v with
  | JObj d => Ok (JObj (Json.set key x d))
  | _ => Raise TypeError
  end.

(** [len(v)] *)
Definition len (v : json) : res nat :=
  match v with
  | JArr l => Ok (List.length l)
  | JObj d => Ok (List.length d)
  | JStr s => Ok (String.length s)
  | _ => Raise TypeError
  end.

(** What iterating over [v] yields. *)
Definition iter (v : json) : res (list json) :=
  match v with
  | JArr l => Ok l
  | JObj d => Ok (map (fun kv => JStr (fst kv)) d)
  | JStr s => Ok (map JStr (chars s))
  | _ => Raise TypeError
  end.

(** The items of [v] when all of them are [str]. *)
Fixpoint strs (l : list json) : option (list string) :=
  match l with
  | [] => Some []
  | JStr s :: l' =>
      match strs l' with
      | Some r => Some (s :: r)
      | None => None
      end
  | _ :: _ => None
  end.

(** [sep.join(v)] *)
Definition join (sep : string) (v : json) : res string :=
  match iter v with
  | Ok l =>
      match strs l with
      | Some parts => Ok (Py.join sep parts)
      | None => Raise TypeError
      end
  | Raise e => Raise e
  end.

(** [v[:n]]; slicing a [dict] is refused (with a [TypeError] up to Python
    3.11 and a [KeyError] from 3.12 on, which nothing here tells apart). *)
Definition slice (n : nat) (v : json) : res json :=
  match v with
  | JArr l => Ok (JArr (firstn n l))
  | JStr s => Ok (JStr (take n s))
  | _ => Raise TypeError
  end.

(** [needle in v] for a [str] needle. *)
Definition contains (needle : string) (v : json) : res bool :=
  match v with
  | JStr s => Ok (str_in needle s)
  | JArr l =>
      Ok (existsb (fun x => match x with
                            | JStr t => String.eqb t needle
                            | _ => false
                            end) l)
  | JObj d => Ok (Json.has_key needle d)
  | _ => Raise TypeError
  end.

End Dyn.

(* ===================================================================== *)
(** ** agents.py                                                          *)
(* ===================================================================== *)

Section Agents.
Import Py.
Variable env : Env.

(** [str(v)], as an f-string formats a decoded value ([None] is also what
    [get] yields for a JSON null). *)
Definition str (v : json) : string :=
  match v with
  | JStr s => s
  | JNull => "None"
  | JBool true => "True"
  | JBool false => "False"
  | _ => str_other env v
  end.

Definition configure_genai : M bool :=
  let api_key := match secrets_key env with
                 | Some k => k
                 | None => ""
                 end in
  stored <- gets gemini_api_key ;;
  let api_key := if truthy api_key then api_key
                 else match stored with
                      | Some k => k
                      | None => ""
                      end in
  if truthy api_key
  then emit (Configure api_key) ;; ret true
  else ret false.

(** [model.generate_content(prompt)] and [response.text]. *)
Definition generate_content (model : string) (mime : option string)
           (prompt : string) : M ProviderOutcome :=
  emit (GenerateContent model mime prompt) ;;
  t <- next_tick ;;
  ret (generate env t model mime prompt).

Definition call_gemini_with_fallback (prompt fallback_response : string)
           (json_format : bool) : M string :=
  configured <- configure_genai ;;
  if negb configured then ret fallback_response
  else
    outcome <- (if json_format
                then generate_content "gemini-1.5-flash"
                                      (Some "application/json") prompt
                else generate_content "gemini-1.5-pro" None prompt) ;;
    match outcome with
    | Generated text => ret text
    | ResourceExhausted =>
        emit (St "warning"
                 "Gemini API Quota Exceeded (429). Using Fallback Template Engine.") ;;
        ret fallback_response
    | ProviderFailure msg =>
        emit (St "error" ("Gemini API Error: " ++ msg)) ;;
        ret fallback_response
    end.

(** [json.loads(text)] where the agents call it: the interpreter has room
    for the two levels of the fallback payloads at least. *)
Definition decode (text : string) : decoded :=
  Json.loads (int_max_str_digits env) (2 + recursion_room env) text.

(** What a call of [json.loads] does to the run. *)
Definition json_loads (text : string) : M json :=
  match decode text with
  | Decoded v => ret v
  | Malformed => raise JSONDecodeError
  | TooDeep => raise RecursionError
  | TooLong => raise ValueError
  | Beyond => ret (beyond env text)
  end.

(** [try: return json.loads(response)
     except json.JSONDecodeError: return json.loads(fallback_json)]
    The handler catches [JSONDecodeError] only. *)
Definition decode_or_fallback (response fallback_json : string) : M json :=
  match decode response with
  | Decoded v => ret v
  | Malformed => json_loads fallback_json
  | TooDeep => raise RecursionError
  | TooLong => raise ValueError
  | Beyond => ret (beyond env response)
  end.

Definition parse_resume_prompt (resume_text : string) : string :=
  NL ++
  "    Analyze the following resume and extract the key information into a JSON format." ++ NL ++
  "    The output must strictly be a JSON object with the following keys:" ++ NL ++
  "    - " ++ DQ ++ "role" ++ DQ ++ ": The primary job title or role described (e.g., "
    ++ DQ ++ "Full-Stack Engineer" ++ DQ ++ ", " ++ DQ ++ "Data Scientist" ++ DQ ++ ")." ++ NL ++
  "    - " ++ DQ ++ "skills" ++ DQ ++ ": A list of top 5-10 technical and soft skills." ++ NL ++
  "    - " ++ DQ ++ "experience_level" ++ DQ ++ ": " ++ DQ ++ "Entry" ++ DQ ++ ", "
    ++ DQ ++ "Mid" ++ DQ ++ ", " ++ DQ ++ "Senior" ++ DQ ++ ", or "
    ++ DQ ++ "Executive" ++ DQ ++ "." ++ NL ++
  "    " ++ NL ++
  "    Resume Text:" ++ NL ++
  "    " ++ resume_text ++ NL ++
  "    ".

Definition resume_fallback : json :=
  JObj [("role", JStr "Software Engineer");
        ("skills", JArr [JStr "Python"; JStr "Problem Solving";
                         JStr "Communication"]);
        ("experience_level", JStr "Mid")].

Definition parse_resume_agent (resume_text : string) : M json :=
  let prompt := parse_resume_prompt resume_text in
  let fallback_json := Json.dumps resume_fallback in
  response <- call_gemini_with_fallback prompt fallback_json true ;;
  decode_or_fallback response fallback_json.

Definition job_discovery_prompt (role : json) (location : string) : string :=
  NL ++
  "    Generate exactly 3 mock job opportunities for a " ++ str role
    ++ " in " ++ location ++ "." ++ NL ++
  "    Return output as a JSON array of objects. Each object must have:" ++ NL ++
  "    - " ++ DQ ++ "company_name" ++ DQ ++ ": Fictional tech company name." ++ NL ++
  "    - " ++ DQ ++ "job_title" ++ DQ ++ ": The specific role title." ++ NL ++
  "    - " ++ DQ ++ "contact_email" ++ DQ ++ ": <company>@example.recruiting.com" ++ NL ++
  "    ".

Definition jobs_fallback (role : json) : json :=
  JArr [JObj [("company_name", JStr "TechNova Solutions");
              ("job_title", JStr ("Senior " ++ str role));
              ("contact_email", JStr "careers@technova.example.com")];
        JObj [("company_name", JStr "Quantum Innovations");
              ("job_title", JStr ("Lead " ++ str role));
              ("contact_email", JStr "hr@quantuminnovations.example.com")];
        JObj [("company_name", JStr "CloudNine Systems");
              ("job_title", JStr (str role));
              ("contact_email", JStr "jobs@cloudninesystems.example.com")]].

Definition job_discovery_agent (role : json) (location : string) : M json :=
  let prompt := job_discovery_prompt role location in
  let fallback_json := Json.dumps (jobs_fallback role) in
  response <- call_gemini_with_fallback prompt fallback_json true ;;
  decode_or_fallback response fallback_json.

Definition cover_letter_prompt (role level : json) (skills : string)
           (company_name job_title : json) : string :=
  NL ++
  "    Write a professional and hyper-personalized cover letter." ++ NL ++
  "    Candidate Role: " ++ str role ++ NL ++
  "    Candidate Experience Level: " ++ str level ++ NL ++
  "    Candidate Skills: " ++ skills ++ NL ++
  "    " ++ NL ++
  "    Target Company: " ++ str company_name ++ NL ++
  "    Target Job Title: " ++ str job_title ++ NL ++
  "    " ++ NL ++
  "    Keep it concise, structured, and persuasive. Do not use placeholders like [Your Name]. Use placeholder tags like <CANDIDATE_NAME> instead if needed." ++ NL ++
  "    ".

Definition cover_letter_fallback (company_name job_title role : json)
           (skills3 : string) : string :=
  "Dear Hiring Manager at " ++ str company_name ++ "," ++ NL ++ NL ++
  "I am writing to express my strong interest in the " ++ str job_title
    ++ " role. With my background in " ++ str role ++ " and experience in "
    ++ skills3
    ++ ", I am confident I would be a valuable addition to your team."
    ++ NL ++ NL ++
  "Please find my resume attached." ++ NL ++ NL ++
  "Best regards," ++ NL ++ "A Dedicated Professional".

Definition cover_letter_agent (candidate_info company_name job_title : json)
  : M string :=
  role <- lift (Dyn.get candidate_info "role" JNull) ;;
  level <- lift (Dyn.get candidate_info "experience_level" JNull) ;;
  skills <- lift (Dyn.get candidate_info "skills" (JArr [])) ;;
  joined <- lift (Dyn.join ", " skills) ;;
  let prompt := cover_letter_prompt role level joined company_name job_title in
  role' <- lift (Dyn.get candidate_info "role" JNull) ;;
  skills' <- lift (Dyn.get candidate_info "skills" (JArr [])) ;;
  first3 <- lift (Dyn.slice 3 skills') ;;
  joined3 <- lift (Dyn.join ", " first3) ;;
  let fallback_text := cover_letter_fallback company_name job_title role' joined3 in
  call_gemini_with_fallback prompt fallback_text false.

Definition interview_prep_prompt (role : json) : string :=
  NL ++
  "    Generate exactly 10 tailored interview preparation questions for a "
    ++ str role ++ " position." ++ NL ++
  "    Include a mix of technical, behavioral, and architectural questions appropriate for this role." ++ NL ++
  "    Format as a numbered markdown list." ++ NL ++
  "    ".

Definition interview_prep_fallback : string :=
  "1. Tell me about yourself." ++ NL ++
  "2. What are your greatest strengths?" ++ NL ++
  "3. Describe a challenging project you worked on." ++ NL ++
  "4. How do you handle tight deadlines?" ++ NL ++
  "5. Where do you see yourself in 5 years?" ++ NL ++
  "6. Why do you want to work here?" ++ NL ++
  "7. Describe a time you disagreed with a coworker." ++ NL ++
  "8. How do you stay updated with industry trends?" ++ NL ++
  "9. What is your preferred work environment?" ++ NL ++
  "10. Do you have any questions for us?".

Definition interview_prep_agent (role : json) : M string :=
  call_gemini_with_fallback (interview_prep_prompt role)
                            interview_prep_fallback false.

End Agents.

(* ===================================================================== *)
(** ** utils.py                                                           *)
(* ===================================================================== *)

Section Utils.
Import Py.
Variable env : Env.

(** The loop over [reader.pages]: the text read so far, or the message of
    the page that raised. *)
Fixpoint extract_pages (pages : list PageOutcome) (text : string)
  : string + string :=
  match pages with
  | [] => inl text
  | PageText extract :: rest =>
      extract_pages rest
        (if truthy extract then text ++ extract ++ NL else text)
  | PageFailure msg :: _ => inr msg
  end.

(** The [try] block of [extract_text_from_pdf]: the text, or the message of
    the exception. *)
Definition read_text (pdf_file : UploadedFile) : string + string :=
  match read_pdf env pdf_file with
  | PdfPages pages => extract_pages pages ""
  | PdfFailure msg => inr msg
  end.

Definition extract_text_from_pdf (pdf_file : UploadedFile) : M string :=
  match read_text pdf_file with
  | inl text => ret text
  | inr e => emit (St "error" ("Error parsing PDF: " ++ e)) ;; ret ""
  end.

Definition send_email_with_attachment (sender_email app_password : string)
           (recipient_email : json) (subject body : string)
           (attachment_bytes filename : option string) : M bool :=
  let part :=
    match attachment_bytes with
    | Some bytes => if truthy bytes then Some (filename, bytes) else None
    | None => None
    end in
  let msg := {| msg_from := sender_email;
                msg_to := recipient_email;
                msg_subject := subject;
                msg_body := body;
                msg_attachment := part |} in
  emit (St "info" ("Rate limiting: Waiting 20 seconds before dispatching email to "
                   ++ str env recipient_email ++ "...")) ;;
  emit (Sleep 20) ;;
  emit (SmtpSession msg app_password) ;;
  t <- next_tick ;;
  match smtp_session env t msg app_password with
  | Delivered => ret true
  | SMTPAuthenticationError =>
      emit (St "error"
               "SMTP Authentication Error: Please verify your Email and App Password.") ;;
      ret false
  | SmtpFailure e =>
      emit (St "error" ("Failed to send email: " ++ e)) ;;
      ret false
  end.

End Utils.

(* ===================================================================== *)
(** ** app.py                                                             *)
(* ===================================================================== *)

(** What the operator entered in the widgets of one script run.  A button
    that is disabled is never clicked. *)
Record Inputs : Type := {
  api_key_input : string;
  sender_email : string;
  app_password : string;
  manual_role_input : string;
  preferred_loc : string;
  uploaded_file : option UploadedFile;
  start_clicked : bool
}.

(** Whether [main] ran to its last line or left through a [return]. *)
Inductive flow : Type := Proceed | Return.

Section App.
Import Py.
Variable env : Env.

Definition COMPANY_NAME : string := "TOPS Technologies".

Definition inject_custom_css : M unit :=
  match style_css env with
  | Some css => emit (St "markdown" ("<style>" ++ css ++ "</style>"))
  | None => emit (St "warning" "style.css not found, using default styles.")
  end.

(** The defaults of [init_session_state]. *)
Definition defaults : Session :=
  {| logs := [];
     jobs_identified := 0;
     successful_dispatches := 0;
     api_fallbacks := 0;
     parsed_resume := None;
     mock_jobs := None;
     interview_questions := None;
     pdf_bytes := None;
     pdf_filename := None;
     workflow_started := false;
     workflow_completed := false;
     gemini_api_key := None |}.

(** Every key that is absent gets its default.  The session state of a
    browser session that has not run the script yet has no key ([None]);
    after a run it has them all. *)
Definition init_session_state (previous : option Session) : Session :=
  match previous with
  | Some s => s
  | None => defaults
  end.

Definition append_log (message : string) (error fallback : bool) : M unit :=
  t <- next_tick ;;
  let timestamp := now env t in
  let color := if error then "red" else "#0288d1" in
  color <- (if fallback
            then
              n <- gets api_fallbacks ;;
              modify (set_api_fallbacks (n + 1)) ;;
              ret "orange"
            else ret color) ;;
  let log_html :=
    "<div class='terminal-line'><span class='terminal-time'>[" ++ timestamp
      ++ "]</span> <span style='color: " ++ color ++ "'>" ++ message
      ++ "</span></div>" in
  l <- gets logs ;;
  modify (set_logs (l ++ [log_html])%list).

(** [l[-n:]] for a positive [n]. *)
Definition last_n {A} (n : nat) (l : list A) : list A :=
  skipn (List.length l - n) l.

(** The markup of the log widget around the entries shown. *)
Definition terminal_html (logs_html : string) : string :=
  NL ++
  "        <div class=" ++ DQ ++ "terminal-container" ++ DQ ++ ">" ++ NL ++
  "            <div class=" ++ DQ ++ "terminal-body" ++ DQ ++ " id="
    ++ DQ ++ "terminal-body" ++ DQ ++ ">" ++ NL ++
  "                " ++ logs_html ++ NL ++
  "            </div>" ++ NL ++
  "        </div>" ++ NL ++
  "    ".

(** The script that scrolls the widget to its last line. *)
Definition scroll_script : string :=
  NL ++
  "        <script>" ++ NL ++
  "            try {" ++ NL ++
  "                var d = window.parent.document.getElementById("
    ++ DQ ++ "terminal-body" ++ DQ ++ ");" ++ NL ++
  "                if (d) {" ++ NL ++
  "                    d.scrollTop = d.scrollHeight;" ++ NL ++
  "                }" ++ NL ++
  "            } catch (e) {}" ++ NL ++
  "        </script>" ++ NL ++
  "    ".

Definition render_logs : M unit :=
  l <- gets logs ;;
  let logs_html := String.concat "" (last_n 50 l) in
  match l with
  | [] => ret tt
  | _ =>
      emit (St "markdown" (terminal_html logs_html)) ;;
      emit (St "components.html" scroll_script)
  end.

(** [for index, x in enumerate(l, start): body].  The list returned
    collects what each iteration ends with; the source has no use for
    it. *)
Fixpoint for_enumerate {A B} (body : nat -> A -> M B) (index : nat)
         (l : list A) : M (list B) :=
  match l with
  | [] => ret []
  | x :: rest =>
      b <- body index x ;;
      bs <- for_enumerate body (S index) rest ;;
      ret (b :: bs)
  end.

(** Step 1, after the text is there: lines 152 to 164 of [main]. *)
Definition parse_candidate (ui : Inputs) (resume_text : string) : M json :=
  append_log "Analyzing resume content via LLM Agent..." false false ;;
  candidate_info <- parse_resume_agent env resume_text ;;
  candidate_info <-
    (if truthy (manual_role_input ui)
     then
       append_log ("Applying manual role override: " ++ manual_role_input ui)
                  false false ;;
       lift (Dyn.setitem candidate_info "role" (JStr (manual_role_input ui)))
     else ret candidate_info) ;;
  modify (set_parsed_resume (Some candidate_info)) ;;
  role <- lift (Dyn.get candidate_info "role" JNull) ;;
  level <- lift (Dyn.get candidate_info "experience_level" JNull) ;;
  append_log ("Analysis Complete -> Role: " ++ str env role ++ " | Level: "
              ++ str env level) false false ;;
  emit (St "markdown" "#### Parsed Candidate Profile") ;;
  emit (St "json" (Json.dumps candidate_info)) ;;
  ret candidate_info.

(** Step 2: simulated discovery. *)
Definition discover (ui : Inputs) (candidate_info : json) : M json :=
  emit (St "spinner" "Simulating Job Discovery...") ;;
  role <- lift (Dyn.get candidate_info "role" JNull) ;;
  append_log ("Initiating Discovery Agent for " ++ str env role
              ++ " positions in " ++ preferred_loc ui ++ "...") false false ;;
  role <- lift (Dyn.get candidate_info "role" JNull) ;;
  mock_jobs <- job_discovery_agent env role (preferred_loc ui) ;;
  modify (set_mock_jobs (Some mock_jobs)) ;;
  n <- lift (Dyn.len mock_jobs) ;;
  modify (set_jobs_identified n) ;;
  n <- lift (Dyn.len mock_jobs) ;;
  append_log ("Discovered " ++ str_of_nat n ++ " targeted opportunities.")
             false false ;;
  emit (St "markdown" "#### Discovered Opportunities") ;;
  (if dataframe_ok env mock_jobs
   then emit (St "dataframe" (Json.dumps mock_jobs))
   else raise ValueError) ;;
  ret mock_jobs.

(** The body of the dispatch loop; it ends with the value of [success]. *)
Definition dispatch_job (ui : Inputs) (candidate_info mock_jobs : json)
           (index : nat) (job : json) : M bool :=
  company <- lift (Dyn.get job "company_name"
                           (JStr ("Company " ++ str_of_nat (index + 1)))) ;;
  title <- lift (Dyn.get job "job_title" (JStr "Software Engineer")) ;;
  recipient <- lift (Dyn.get job "contact_email" (JStr "hr@example.com")) ;;
  emit (St "spinner" ("Processing Application for " ++ str env company ++ "...")) ;;
  n <- lift (Dyn.len mock_jobs) ;;
  append_log ("--- Processing " ++ str_of_nat (index + 1) ++ "/" ++ str_of_nat n
              ++ ": " ++ str env company ++ " ---") false false ;;
  append_log ("Generating hyper-personalized cover letter targeting "
              ++ str env title ++ " at " ++ str env company ++ "...")
             false false ;;
  cover_letter <- cover_letter_agent env candidate_info company title ;;
  (if startswith "Dear" cover_letter
      && str_in "A Dedicated Professional" cover_letter
   then append_log "Notice: Used fallback template for cover letter."
                   false true
   else ret tt) ;;
  emit (St "markdown" ("**Generated Letter for " ++ str env company ++ ":**")) ;;
  emit (St "text_area" cover_letter) ;;
  append_log ("Preparing dispatch to " ++ str env recipient
              ++ " (Includes 20s rate limit buffer)...") false false ;;
  emit (St "toast" ("Waiting 20 seconds before dispatching to "
                    ++ str env company ++ "...")) ;;
  role <- lift (Dyn.get candidate_info "role" JNull) ;;
  let subject := "Application for " ++ str env title ++ " - " ++ str env role in
  sandbox <- lift (Dyn.contains "example" recipient) ;;
  success <-
    (if sandbox
     then
       append_log ("Mocking sent email to " ++ str env recipient
                   ++ " (Simulated 3s delay)...") false false ;;
       emit (Sleep 3) ;;
       ret true
     else
       bytes <- gets pdf_bytes ;;
       name <- gets pdf_filename ;;
       send_email_with_attachment env (sender_email ui) (app_password ui)
                                  recipient subject cover_letter bytes name) ;;
  (if success
   then
     d <- gets successful_dispatches ;;
     modify (set_successful_dispatches (d + 1)) ;;
     append_log ("Successfully dispatched application to " ++ str env company
                 ++ " ✅") false false
   else
     append_log ("Failed to dispatch to " ++ str env company ++ " ❌")
                true false) ;;
  ret success.

(** Step 3: the dispatch loop. *)
Definition dispatch_loop (ui : Inputs) (candidate_info mock_jobs : json)
  : M (list bool) :=
  emit (St "markdown" "#### Dispatching Applications") ;;
  emit (St "empty" "") ;;
  jobs <- lift (Dyn.iter mock_jobs) ;;
  for_enumerate (dispatch_job ui candidate_info mock_jobs) 0 jobs.

(** Step 4: the interview guide, and the end of the workflow. *)
Definition post_process (candidate_info : json) : M unit :=
  emit (St "spinner" "Generating Interview Prep Guide...") ;;
  append_log "Initializing Post-Process Action: Interview Prep Agent..."
             false false ;;
  role <- lift (Dyn.get candidate_info "role" JNull) ;;
  prep_guide <- interview_prep_agent env role ;;
  modify (set_interview_questions (Some prep_guide)) ;;
  append_log "Interview Guide ready." false false ;;
  modify (set_workflow_completed true) ;;
  emit (St "balloons" "") ;;
  append_log "🎉 ALL TASKS COMPLETED. Agent going to sleep." false false.

(** What the click on "Start Agentic Workflow" runs. *)
Definition workflow (ui : Inputs) (file : UploadedFile) : M flow :=
  if negb (truthy (sender_email ui)) || negb (truthy (app_password ui))
  then
    emit (St "error"
             "Please configure your Sender Email and App Password in the sidebar.") ;;
    append_log "Workflow aborted: Missing SMTP credentials" true false ;;
    ret Return
  else
    modify (set_workflow_started true) ;;
    modify (set_workflow_completed false) ;;
    modify (set_logs []) ;;
    append_log "Initializing Agentic AI Workflow..." false false ;;
    emit (St "spinner" "Extracting text and parsing with Gemini...") ;;
    append_log "Reading PDF Resume..." false false ;;
    resume_text <- extract_text_from_pdf env file ;;
    if negb (truthy resume_text)
    then
      append_log "Failed to extract text from PDF." true false ;;
      emit (St "error" "Could not extract text. Check the PDF format.") ;;
      ret Return
    else
      candidate_info <- parse_candidate ui resume_text ;;
      mock_jobs <- discover ui candidate_info ;;
      dispatch_loop ui candidate_info mock_jobs ;;
      post_process candidate_info ;;
      ret Proceed.

(** The top of [main], down to the file uploader. *)
Definition dashboard (ui : Inputs) : M unit :=
  emit (St "set_page_config" (COMPANY_NAME ++ " Agent AI")) ;;
  inject_custom_css ;;
  emit (St "markdown"
           ("<h1 style='text-align: center; margin-bottom: 2rem;'>"
            ++ COMPANY_NAME ++ " | Agentic AI Job App Ecosystem</h1>")) ;;
  emit (St "markdown" "### Live Analytics Suite") ;;
  j <- gets jobs_identified ;;
  emit (St "metric" ("Jobs Identified: " ++ str_of_nat j)) ;;
  d <- gets successful_dispatches ;;
  emit (St "metric" ("Successful Dispatches: " ++ str_of_nat d)) ;;
  f <- gets api_fallbacks ;;
  emit (St "metric" ("API Fallbacks/Skips: " ++ str_of_nat f)) ;;
  emit (St "markdown" "<hr>") ;;
  emit (St "sidebar.markdown" "### ⚙️ System Configuration") ;;
  let gemini_key := match secrets_key env with
                    | Some k => k
                    | None => ""
                    end in
  (if negb (truthy gemini_key) && truthy (api_key_input ui)
   then modify (set_gemini_api_key (Some (api_key_input ui)))
   else ret tt) ;;
  emit (St "sidebar.markdown" "---") ;;
  emit (St "sidebar.markdown" "### 🎯 Workflow Preferences") ;;
  emit (St "markdown" "### 📄 1. Intelligent Parsing") ;;
  match uploaded_file ui with
  | Some file =>
      name <- gets pdf_filename ;;
      match name with
      | Some n =>
          if String.eqb n (uf_name file) then ret tt
          else
            modify (set_pdf (Some (uf_bytes file)) (Some (uf_name file))) ;;
            modify (set_parsed_resume None) ;;
            modify (set_workflow_started false)
      | None =>
          modify (set_pdf (Some (uf_bytes file)) (Some (uf_name file))) ;;
          modify (set_parsed_resume None) ;;
          modify (set_workflow_started false)
      end
  | None => ret tt
  end.

(** One run of the script on the session state [init_session_state]
    yields. *)
Definition main (ui : Inputs) : M unit :=
  dashboard ui ;;
  exit <- match uploaded_file ui with
          | Some file =>
              if start_clicked ui then workflow ui file else ret Proceed
          | None => ret Proceed
          end ;;
  match exit with
  | Return => ret tt
  | Proceed =>
      completed <- gets workflow_completed ;;
      (if completed
       then
         emit (St "markdown" "### 💡 Interview Preparation Guide") ;;
         emit (St "markdown"
                  "Based on your targeted roles, here are 10 tailored interview questions:") ;;
         q <- gets interview_questions ;;
         emit (St "info" match q with
                         | Some text => text
                         | None => "None"
                         end)
       else ret tt) ;;
      render_logs
  end.

(** The world a script run starts in. *)
Definition start (previous : option Session) (t : nat) : World :=
  {| session := init_session_state previous; trace := []; tick := t |}.

End App.


(* ===================================================================== *)
(** ** Vocabulary of the statements                                       *)
(* ===================================================================== *)

(** The key [configure_genai] ends up with: the secret, else the key kept
    in the session state, else the empty string. *)
Definition credential (env : Env) (w : World) : string :=
  let api_key := match secrets_key env with
                 | Some k => k
                 | None => ""
                 end in
  if Py.truthy api_key then api_key
  else match gemini_api_key (session w) with
       | Some k => k
       | None => ""
       end.

(** The model and the response type the gateway asks for. *)
Definition model_of (json_format : bool) : string :=
  if json_format then "gemini-1.5-flash" else "gemini-1.5-pro".

Definition mime_of (json_format : bool) : option string :=
  if json_format then Some "application/json" else None.


(** Classes of events. *)
Definition is_spinner (e : event) : bool :=
  match e with
  | St call _ => String.eqb call "spinner"
  | _ => false
  end.

Definition is_provider_call (e : event) : bool :=
  match e with
  | GenerateContent _ _ _ => true
  | _ => false
  end.

(** The delays and the transport. *)
Definition is_delivery (e : event) : bool :=
  match e with
  | Sleep _ => true
  | SmtpSession _ _ => true
  | _ => false
  end.

Definition is_quota_warning (e : event) : bool :=
  match e with
  | St call content =>
      String.eqb call "warning" && Py.startswith "Gemini API Quota Exceeded" content
  | _ => false
  end.

(** What the gateway may add to the trace. *)
Definition is_gateway_event (e : event) : bool :=
  match e with
  | Configure _ => true
  | GenerateContent _ _ _ => true
  | St call _ => String.eqb call "warning" || String.eqb call "error"
  | _ => false
  end.

(** The skills [cover_letter_agent] can join and slice: a list of strings,
    or a string. *)
Definition skills_ok (v : json) : bool :=
  match v with
  | JArr l => forallb (fun x => match x with JStr _ => true | _ => false end) l
  | JStr _ => true
  | _ => false
  end.

(** A candidate profile: an object whose skills, when present, can be
    joined and sliced. *)
Definition profile_ok (candidate_info : json) : bool :=
  match candidate_info with
  | JObj d => skills_ok (Json.get "skills" (JArr []) d)
  | _ => false
  end.

(** The recipient the loop takes from a job. *)
Definition recipient_of (job : json) : json :=
  match job with
  | JObj d => Json.get "contact_email" (JStr "hr@example.com") d
  | _ => JNull
  end.

(** The company name the loop takes from the job at [index]. *)
Definition company_of (index : nat) (job : json) : json :=
  match job with
  | JObj d =>
      Json.get "company_name" (JStr ("Company " ++ Py.str_of_nat (index + 1))) d
  | _ => JNull
  end.

(** An opportunity: an object whose contact address, when present, is a
    string. *)
Definition opportunity_ok (job : json) : bool :=
  match job with
  | JObj d =>
      match Json.get "contact_email" (JStr "hr@example.com") d with
      | JStr _ => true
      | _ => false
      end
  | _ => false
  end.

(** A sandbox address: one that contains the word example. *)
Definition sandbox (job : json) : bool :=
  match recipient_of job with
  | JStr r => Py.str_in "example" r
  | _ => false
  end.

(** The banner of the iterations over [jobs], numbered from [index]. *)
Fixpoint banners (env : Env) (index : nat) (jobs : list json) : list event :=
  match jobs with
  | [] => []
  | job :: rest =>
      St "spinner" ("Processing Application for "
                    ++ str env (company_of index job) ++ "...")
      :: banners env (S index) rest
  end.

(** The number of [true] in a list of outcomes. *)
Definition sent_count (l : list bool) : nat :=
  List.length (filter (fun b => b) l).

(** An object of three members whose values are strings. *)
Definition obj3 (k1 v1 k2 v2 k3 v3 : string) : json :=
  JObj [(k1, JStr v1); (k2, JStr v2); (k3, JStr v3)].

(** A run of computations one after the other. *)
Fixpoint sequence (ms : list (M unit)) : M unit :=
  match ms with
  | [] => ret tt
  | m :: rest => m ;; sequence rest
  end.

(** One [append_log] per entry: a message, whether it is an error, whether
    it is a fallback. *)
Definition append_all (env : Env) (entries : list (string * bool * bool))
  : M unit :=
  sequence (map (fun e => append_log env (fst (fst e)) (snd (fst e)) (snd e))
                entries).

(** The entry [append_log] writes. *)
Definition log_entry (env : Env) (t : nat) (message : string)
           (error fallback : bool) : string :=
  "<div class='terminal-line'><span class='terminal-time'>[" ++ now env t
    ++ "]</span> <span style='color: "
    ++ (if fallback then "orange" else if error then "red" else "#0288d1")
    ++ "'>" ++ message ++ "</span></div>".

(** The world after [append_log]. *)
Definition logged (env : Env) (message : string) (error fallback : bool)
           (w : World) : World :=
  let s := if fallback
           then set_api_fallbacks (api_fallbacks (session w) + 1) (session w)
           else session w in
  {| session :=
       set_logs (logs s ++ [log_entry env (tick w) message error fallback])%list s;
     trace := trace w;
     tick := S (tick w) |}.

(** The world after a request of the gateway to the provider, [extra]
    being what the gateway shows about the outcome. *)
Definition asked (env : Env) (w : World) (json_format : bool)
           (prompt : string) (extra : list event) : World :=
  {| session := session w;
     trace := (trace w ++ Configure (credential env w)
                 :: GenerateContent (model_of json_format) (mime_of json_format)
                                    prompt
                 :: extra)%list;
     tick := S (tick w) |}.

(** The test of the dispatch loop on a cover letter. *)
Definition marked (cover_letter : string) : bool :=
  Py.startswith "Dear" cover_letter
  && Py.str_in "A Dedicated Professional" cover_letter.

(** [wp m w Q]: the result of [m] from [w], and the world it leaves,
    satisfy [Q]. *)
Definition wp {A} (m : M A) (w : World) (Q : res A -> World -> Prop) : Prop :=
  Q (fst (m w)) (snd (m w)).

(** Whether a transport outcome is a delivery. *)
Definition delivered (o : SmtpOutcome) : bool :=
  match o with
  | Delivered => true
  | _ => false
  end.

(** What one iteration of the dispatch loop does with [job], from [w] to
    [w'], ending with [success]: the counters, the banner, the letter, and
    the delay and transport used. *)
Definition job_step (env : Env) (ui : Inputs) (index : nat) (job : json)
           (w w' : World) (success : bool) : Prop :=
  jobs_identified (session w') = jobs_identified (session w) /\
  successful_dispatches (session w')
  = successful_dispatches (session w) + (if success then 1 else 0) /\
  exists letter new,
    trace w' = (trace w ++ new)%list /\
    api_fallbacks (session w')
    = api_fallbacks (session w) + (if marked letter then 1 else 0) /\
    (marked letter = true \/
     exists t p,
       generate env t (model_of false) (mime_of false) p = Generated letter) /\
    filter is_spinner new
    = [St "spinner" ("Processing Application for "
                     ++ str env (company_of index job) ++ "...")] /\
    if sandbox job
    then success = true /\ filter is_delivery new = [Sleep 3]
    else exists t msg,
        msg_to msg = recipient_of job /\
        msg_body msg = letter /\
        filter is_delivery new = [Sleep 20; SmtpSession msg (app_password ui)] /\
        success = delivered (smtp_session env t msg (app_password ui)).

(** How an iteration on [job] may end: a sandbox address always counts as
    sent; a real one counts as sent when its SMTP session delivers. *)
Definition outcome_of (env : Env) (ui : Inputs) (job : json) (b : bool) : Prop :=
  if sandbox job
  then b = true
  else exists t msg,
      msg_to msg = recipient_of job /\
      b = delivered (smtp_session env t msg (app_password ui)).

(** From [w] to [w'] the number of jobs identified is kept, at most [n]
    dispatches are added and no fallback is taken back. *)
Definition grows (n : nat) (w w' : World) : Prop :=
  jobs_identified (session w') = jobs_identified (session w) /\
  successful_dispatches (session w) <= successful_dispatches (session w') /\
  successful_dispatches (session w') <= successful_dispatches (session w) + n /\
  api_fallbacks (session w) <= api_fallbacks (session w').

(** The three counters of the dashboard. *)
Definition counters (w : World) : nat * nat * nat :=
  (jobs_identified (session w),
   successful_dispatches (session w),
   api_fallbacks (session w)).

(** The entries [append_all] writes, the first one at tick [t]. *)
Fixpoint entries_html (env : Env) (t : nat)
         (entries : list (string * bool * bool)) : list string :=
  match entries with
  | [] => []
  | e :: rest =>
      log_entry env t (fst (fst e)) (snd (fst e)) (snd e)
      :: entries_html env (S t) rest
  end.

(** The text [extract_text_from_pdf] returns. *)
Definition extracted (env : Env) (file : UploadedFile) : string :=
  match read_text env file with
  | inl text => text
  | inr _ => ""
  end.

(** *** Scenarios *)

(** No credential at all: the pipeline works offline. *)
Definition offline : Env :=
  {| secrets_key := None;
     generate := fun _ _ _ _ => ProviderFailure "unreachable";
     smtp_session := fun _ _ _ => SmtpFailure "connection refused";
     read_pdf := fun _ => PdfPages [PageText "Jane Doe, data scientist"];
     now := fun _ => "12:00:00";
     str_other := fun _ => "?";
     style_css := None;
     dataframe_ok := fun _ => true;
     recursion_room := 998;
     int_max_str_digits := Some 4300;
     beyond := fun _ => JNull |}.

(** A credential, and a provider that is out of quota. *)
Definition exhausted : Env :=
  {| secrets_key := Some "key";
     generate := fun _ _ _ _ => ResourceExhausted;
     smtp_session := fun _ _ _ => SMTPAuthenticationError;
     read_pdf := fun _ => PdfPages [PageText "Jane Doe, data scientist"];
     now := fun _ => "12:00:00";
     str_other := fun _ => "?";
     style_css := None;
     dataframe_ok := fun _ => true;
     recursion_room := 998;
     int_max_str_digits := Some 4300;
     beyond := fun _ => JNull |}.

(** A credential, and a provider that answers every request with an object
    that has the key role only. *)
Definition terse : Env :=
  {| secrets_key := Some "key";
     generate := fun _ _ _ _ =>
       Generated ("{" ++ Py.DQ ++ "role" ++ Py.DQ ++ ": " ++ Py.DQ
                  ++ "Data Scientist" ++ Py.DQ ++ "}");
     smtp_session := fun _ _ _ => Delivered;
     read_pdf := fun _ => PdfPages [PageText "Jane Doe, data scientist"];
     now := fun _ => "12:00:00";
     str_other := fun _ => "?";
     style_css := None;
     dataframe_ok := fun _ => true;
     recursion_room := 998;
     int_max_str_digits := Some 4300;
     beyond := fun _ => JNull |}.

(** A document nothing can be read from. *)
Definition unreadable : Env :=
  {| secrets_key := Some "key";
     generate := fun _ _ _ _ => Generated "[]";
     smtp_session := fun _ _ _ => Delivered;
     read_pdf := fun _ => PdfFailure "encrypted";
     now := fun _ => "12:00:00";
     str_other := fun _ => "?";
     style_css := None;
     dataframe_ok := fun _ => true;
     recursion_room := 998;
     int_max_str_digits := Some 4300;
     beyond := fun _ => JNull |}.



Definition resume_pdf : UploadedFile :=
  {| uf_name := "cv.pdf"; uf_bytes := "%PDF-1.7" |}.

(** The operator uploads a resume, fills the mail settings and clicks. *)
Definition operator : Inputs :=
  {| api_key_input := "";
     sender_email := "user@example.com";
     app_password := "app-password";
     manual_role_input := "Data Scientist";
     preferred_loc := "Remote";
     uploaded_file := Some resume_pdf;
     start_clicked := true |}.

(** Two opportunities: a sandbox address and a real one. *)
Definition sandbox_job : json :=
  obj3 "company_name" "Acme" "job_title" "Engineer"
       "contact_email" "jobs@example-corp.com".

Definition real_job : json :=
  obj3 "company_name" "Initech" "job_title" "Engineer"
       "contact_email" "hr@initech.com".

(* ===================================================================== *)
(** ** Vocabulary of the further properties                               *)
(* ===================================================================== *)

(** A call to Streamlit: something shown, nothing asked of the provider,
    the mail server or the clock. *)
Definition is_st (e : event) : bool :=
  match e with
  | St _ _ => true
  | _ => false
  end.

(** From [w] to [w'] the log has only been appended to. *)
Definition log_grows (w w' : World) : Prop :=
  exists added, logs (session w') = (logs (session w) ++ added)%list.

(** The text of the pages that have some, a newline after each. *)
Definition pages_text (texts : list string) : string :=
  String.concat "" (map (fun t => t ++ Py.NL) (filter Py.truthy texts)).

(** The message [send_email_with_attachment] builds. *)
Definition message (sender_email : string) (recipient_email : json)
           (subject body : string) (attachment_bytes filename : option string)
  : Email :=
  {| msg_from := sender_email;
     msg_to := recipient_email;
     msg_subject := subject;
     msg_body := body;
     msg_attachment :=
       match attachment_bytes with
       | Some bytes => if Py.truthy bytes then Some (filename, bytes) else None
       | None => None
       end |}.

(** The fallbacks among the entries of a log. *)
Definition fallback_entries (entries : list (string * bool * bool)) : nat :=
  List.length (filter (fun e => snd e) entries).

(** From [w] to [w'] the log has only been appended to and the two flags
    of the workflow are what they were. *)
Definition kept (w w' : World) : Prop :=
  log_grows w w'
  /\ workflow_started (session w') = workflow_started (session w)
  /\ workflow_completed (session w') = workflow_completed (session w).

(** The model and response type of the requests in a trace, in order. *)
Fixpoint requests (l : list event) : list (string * option string) :=
  match l with
  | [] => []
  | GenerateContent model mime _ :: rest => (model, mime) :: requests rest
  | _ :: rest => requests rest
  end.

(** The request an agent makes when there is a credential. *)
Definition request_of (env : Env) (w : World) (json_format : bool)
  : list (string * option string) :=
  if Py.truthy (credential env w)
  then [(model_of json_format, mime_of json_format)]
  else [].

(** A document whose second page cannot be read. *)
Definition torn : Env :=
  {| secrets_key := None;
     generate := fun _ _ _ _ => ProviderFailure "unreachable";
     smtp_session := fun _ _ _ => SmtpFailure "connection refused";
     read_pdf := fun _ => PdfPages [PageText "Jane Doe"; PageFailure "bad xref";
                                    PageText "data scientist"];
     now := fun _ => "12:00:00";
     str_other := fun _ => "?";
     style_css := None;
     dataframe_ok := fun _ => true;
     recursion_room := 998;
     int_max_str_digits := Some 4300;
     beyond := fun _ => JNull |}.

(** An operator who left the password field empty. *)
Definition careless : Inputs :=
  {| api_key_input := "";
     sender_email := "user@example.com";
     app_password := "";
     manual_role_input := "";
     preferred_loc := "Remote";
     uploaded_file := Some resume_pdf;
     start_clicked := true |}.

(** An operator who looks at the page without clicking. *)
Definition idle : Inputs :=
  {| api_key_input := "typed-key";
     sender_email := "user@example.com";
     app_password := "app-password";
     manual_role_input := "";
     preferred_loc := "Remote";
     uploaded_file := Some resume_pdf;
     start_clicked := false |}.

(** Whether a decoded value is a [dict]. *)
Definition is_object (v : json) : bool :=
  match v with
  | JObj _ => true
  | _ => false
  end.

(** From [w] to [w'] the provider is not asked and nothing is mailed: what
    is added to the trace holds no request, and for delays the simulated
    one, [d] times. *)
Definition quiet (d : nat) (w w' : World) : Prop :=
  exists new,
    trace w' = (trace w ++ new)%list
    /\ filter is_provider_call new = []
    /\ filter is_delivery new = repeat (Sleep 3) d.

(* ===================================================================== *)
(** ** Text                                                               *)
(* ===================================================================== *)

Module PyFacts.
Import Py.

Lemma append_assoc (a b c : string) : (a ++ b) ++ c = a ++ (b ++ c).
Proof. induction a; simpl; congruence. Qed.

Lemma length_app (a b : string) :
  String.length (a ++ b) = String.length a + String.length b.
Proof. induction a; simpl; congruence. Qed.

Lemma startswith_app (p s : string) : startswith p (p ++ s) = true.
Proof.
  induction p as [|c p IH]; [reflexivity|].
  simpl. rewrite Ascii.eqb_refl. exact IH.
Qed.

(** A needle is found wherever it lies. *)
Lemma str_in_app (needle before after : string) :
  str_in needle (before ++ needle ++ after) = true.
Proof.
  induction before as [|c before IH].
  - simpl append. destruct (needle ++ after) eqn:E; simpl;
      rewrite <- ?E, startswith_app; reflexivity.
  - simpl. rewrite IH. apply orb_true_r.
Qed.

Lemma app_empty_r (s : string) : s ++ "" = s.
Proof. induction s; simpl; congruence. Qed.

Lemma str_in_end (needle before : string) :
  str_in needle (before ++ needle) = true.
Proof. rewrite <- (app_empty_r needle) at 2. apply str_in_app. Qed.

End PyFacts.

(* ===================================================================== *)
(** ** The JSON codec on the fallback payloads                            *)
(* ===================================================================== *)

Module JsonFacts.
Import Py Json PyFacts.

Example dumps_ex :
  dumps (JObj [("role", JStr "Software Engineer");
               ("skills", JArr [JStr "Python"; JStr "Problem Solving"]);
               ("experience_level", JStr "Mid")])
  = "{" ++ DQ ++ "role" ++ DQ ++ ": " ++ DQ ++ "Software Engineer" ++ DQ
    ++ ", " ++ DQ ++ "skills" ++ DQ ++ ": [" ++ DQ ++ "Python" ++ DQ ++ ", "
    ++ DQ ++ "Problem Solving" ++ DQ ++ "], " ++ DQ ++ "experience_level"
    ++ DQ ++ ": " ++ DQ ++ "Mid" ++ DQ ++ "}".
Proof. reflexivity. Qed.

Example loads_ex :
  loads (Some 4300) 1000
        (" [1, {" ++ DQ ++ "aA\n" ++ DQ ++ " : [ ] , "
         ++ DQ ++ "b" ++ DQ ++ ":-2.5e+3}, true ,null] ")
  = Decoded (JArr [JNum "1";
                   JObj [(String "a" (String "A" (String nl "")), JArr []);
                         ("b", JNum "-2.5e+3")];
                   JBool true; JNull]).
Proof. vm_compute. reflexivity. Qed.

(** Trailing commas, bare words and text after the value are refused. *)
Example loads_refuses :
  loads (Some 4300) 1000 "[1, 2,]" = Malformed
  /\ loads (Some 4300) 1000 "Sorry, I cannot help." = Malformed
  /\ loads (Some 4300) 1000 "{} {}" = Malformed
  /\ loads (Some 4300) 1000 "" = Malformed.
Proof. vm_compute. repeat split. Qed.

(** An escape above 255 is not refused: the text decodes, to a value the
    model cannot hold.  It is refused when something else is wrong with
    it. *)
Example loads_wide :
  loads (Some 4300) 1000
        ("{" ++ DQ ++ "role" ++ DQ ++ ": " ++ DQ ++ "\u0416" ++ DQ ++ "}")
  = Beyond
  /\ loads (Some 4300) 1000
           ("{" ++ DQ ++ "role" ++ DQ ++ ": " ++ DQ ++ "\u00e9" ++ DQ ++ "}")
     = Decoded (JObj [("role", JStr (String (ascii_of_nat 233) ""))])
  /\ loads (Some 4300) 1000
           ("{" ++ DQ ++ "role" ++ DQ ++ ": " ++ DQ ++ "\u0416" ++ DQ ++ ",}")
     = Malformed.
Proof. vm_compute. repeat split. Qed.

(** The two limits of the interpreter.  The first thing wrong decides. *)
Example loads_limits :
  loads (Some 4300) 2 "[[[1]]]" = TooDeep
  /\ loads (Some 4300) 3 "[[[1]]]" = Decoded (JArr [JArr [JArr [JNum "1"]]])
  /\ loads (Some 4300) 2 "[[1], [[" = TooDeep
  /\ loads (Some 4300) 2 "[[1] [[" = Malformed
  /\ loads (Some 3) 5 "[-1234]" = TooLong
  /\ loads (Some 3) 5 "[-123, 1234.0]"
     = Decoded (JArr [JNum "-123"; JNum "1234.0"])
  /\ loads None 5 "[1234]" = Decoded (JArr [JNum "1234"]).
Proof. vm_compute. repeat split. Qed.

(** Every character reads back from its escape. *)
Lemma scanstring_escape_char (lenient : bool) (c : ascii) (tl : string) :
  scanstring lenient (escape_char c ++ tl) = push c (scanstring lenient tl).
Proof. destruct lenient, c as [[] [] [] [] [] [] [] []]; reflexivity. Qed.

Lemma scanstring_escape (lenient : bool) (s tl : string) :
  scanstring lenient (escape s ++ String dquote tl) = Some (s, tl).
Proof.
  induction s as [|c s IH]; [reflexivity|].
  simpl escape. rewrite append_assoc, scanstring_escape_char, IH. reflexivity.
Qed.

Lemma quote_app (s tl : string) :
  quote s ++ tl = String dquote (escape s ++ String dquote tl).
Proof. unfold quote, DQ. rewrite !append_assoc. reflexivity. Qed.

Section Fuel.

Variable lenient : bool.
Variable max_digits : option nat.

Local Abbreviation once := (scan_once lenient max_digits).
Local Abbreviation items := (scan_items lenient max_digits).
Local Abbreviation members := (scan_members lenient max_digits).

Ltac same_cases :=
  repeat match goal with
         | |- match ?x with _ => _ end = match ?x with _ => _ end =>
             destruct x; try reflexivity
         | |- (if ?x then _ else _) = (if ?x then _ else _) =>
             destruct x; try reflexivity
         end.

(** More fuel never changes a result, a failure included, unless it is
    the fuel that ran out. *)
Lemma scan_fuel_mono (n : nat) :
  (forall m d s, n <= m -> once n d s <> Lost Fuel -> once m d s = once n d s) /\
  (forall m d s acc,
      n <= m -> items n d s acc <> Lost Fuel ->
      items m d s acc = items n d s acc) /\
  (forall m d s acc,
      n <= m -> members n d s acc <> Lost Fuel ->
      members m d s acc = members n d s acc).
Proof.
  induction n as [|n (IH1 & IH2 & IH3)].
  - repeat split; intros; exfalso; auto.
  - repeat split; intros m d s; intros; (destruct m as [|m]; [lia|]);
      assert (Hle : n <= m) by lia; cbn [scan_once scan_items scan_members] in *.
    + same_cases; auto.
    + destruct (once n d s) as [v r'|why] eqn:E.
      * rewrite (IH1 m d s Hle), E by (rewrite E; discriminate).
        same_cases; auto.
      * rewrite (IH1 m d s Hle), E by (rewrite E; exact H0). reflexivity.
    + destruct (scanstring lenient s) as [[key r']|]; [|reflexivity].
      destruct (skip_ws r') as [|c1 r1]; [reflexivity|].
      destruct (Ascii.eqb c1 ":"); [|reflexivity].
      destruct (once n d (skip_ws r1)) as [v r2|why] eqn:E.
      * rewrite (IH1 m d _ Hle), E by (rewrite E; discriminate).
        same_cases; auto.
      * rewrite (IH1 m d _ Hle), E by (rewrite E; exact H0). reflexivity.
Qed.

(** *** The fuel of [loads] is enough *)

Lemma skip_ws_length (s : string) : String.length (skip_ws s) <= String.length s.
Proof.
  induction s as [|c s IH]; simpl; [lia|].
  destruct (is_ws c); simpl; lia.
Qed.

Lemma push_some (c : ascii) (x : option (string * string)) (t r : string) :
  push c x = Some (t, r) -> exists t', x = Some (t', r).
Proof. destruct x as [[t' r']|]; simpl; [|discriminate]. intros [= <- <-]. eauto. Qed.

Lemma scanstring_shorter_upto (n : nat) :
  forall s t r,
    String.length s <= n -> scanstring lenient s = Some (t, r) ->
    String.length r < String.length s.
Proof.
  induction n as [|n IH]; intros s t r Hn H.
  - destruct s; [discriminate|simpl in Hn; lia].
  - destruct s as [|c s]; [discriminate|]. simpl in Hn.
    cbn [scanstring] in H. cbn [String.length].
    destruct (Ascii.eqb c dquote); [injection H as <- <-; lia|].
    destruct (Ascii.eqb c bslash).
    + destruct s as [|e s1]; [discriminate|].
      destruct (Ascii.eqb e "u").
      * destruct s1 as [|h1 [|h2 [|h3 [|h4 s2]]]]; try discriminate.
        destruct (hex4 h1 h2 h3 h4) as [cp|]; [|discriminate].
        destruct (narrow lenient cp); [|discriminate].
        apply push_some in H. destruct H as [t' H].
        apply IH in H; cbn [String.length] in *; lia.
      * destruct (unescape e); [|discriminate].
        apply push_some in H. destruct H as [t' H].
        apply IH in H; cbn [String.length] in *; lia.
    + destruct (nat_of_ascii c <? 32); [discriminate|].
      apply push_some in H. destruct H as [t' H].
      apply IH in H; lia.
Qed.

Lemma scanstring_shorter (s t r : string) :
  scanstring lenient s = Some (t, r) -> String.length r < String.length s.
Proof. apply (scanstring_shorter_upto (String.length s)). lia. Qed.

Lemma digits_length (s : string) :
  String.length (snd (digits s)) <= String.length s.
Proof.
  induction s as [|c s IH]; simpl; [lia|].
  destruct (is_digit c); [|simpl; lia].
  destruct (digits s); simpl in *. lia.
Qed.

Lemma strip_length (w s r : string) :
  strip w s = Some r -> String.length r + String.length w = String.length s.
Proof.
  revert s; induction w as [|a w IH]; intros [|b s]; simpl; try discriminate.
  - intros [= <-]. reflexivity.
  - intros [= <-]. simpl. lia.
  - destruct (Ascii.eqb a b); [|discriminate]. intros H. apply IH in H. lia.
Qed.

Lemma scan_number_shorter (s lexeme r : string) :
  scan_number s = Some (lexeme, r) -> String.length r < String.length s.
Proof.
  unfold scan_number.
  assert (Hi : forall s1 i s2, int_part s1 = Some (i, s2) ->
                               String.length s2 < String.length s1).
  { intros [|c s1] i s2; simpl; [discriminate|].
    destruct (Ascii.eqb c "0"); [intros [= <- <-]; lia|].
    destruct (is_digit c); [|discriminate].
    pose proof (digits_length s1). destruct (digits s1).
    intros [= <- <-]. simpl in *. lia. }
  assert (Hf : forall s2, String.length (snd (frac_part s2)) <= String.length s2).
  { intros [|c s2]; simpl; [lia|].
    destruct (Ascii.eqb c "."); [|simpl; lia].
    pose proof (digits_length s2). destruct (digits s2) as [[|d ds] r'];
      simpl in *; lia. }
  assert (Hx : forall m s0 whole,
             String.length s0 <= String.length whole ->
             String.length (snd (exp_digits m s0 whole)) <= String.length whole).
  { intros m s0 whole H. unfold exp_digits.
    pose proof (digits_length s0). destruct (digits s0) as [[|d ds] r'];
      simpl in *; lia. }
  assert (He : forall s3, String.length (snd (exp_part s3)) <= String.length s3).
  { intros [|e s3]; simpl; [lia|].
    destruct (Ascii.eqb e "e" || Ascii.eqb e "E"); [|simpl; lia].
    destruct s3 as [|sg s4]; [simpl; lia|].
    destruct (Ascii.eqb sg "+" || Ascii.eqb sg "-");
      apply Hx; simpl; lia. }
  assert (Hs : String.length (snd (sign_part s)) <= String.length s).
  { destruct s as [|c s0]; simpl; [lia|].
    destruct (Ascii.eqb c "-"); simpl; lia. }
  destruct (sign_part s) as [sign s1].
  destruct (int_part s1) as [[i s2]|] eqn:Ei; [|discriminate].
  apply Hi in Ei. specialize (Hf s2). destruct (frac_part s2) as [f s3].
  specialize (He s3). destruct (exp_part s3) as [e s4].
  intros [= <- <-]. simpl in *. lia.
Qed.

Lemma scan_atom_shorter (s : string) (v : json) (r : string) :
  scan_atom max_digits s = Got v r -> String.length r < String.length s.
Proof.
  unfold scan_atom.
  repeat match goal with
         | |- match strip ?w s with _ => _ end = _ -> _ =>
             let E := fresh "E" in
             destruct (strip w s) eqn:E;
             [apply strip_length in E; intros [= <- <-]; simpl in E; lia|]
         | |- match scan_number s with _ => _ end = _ -> _ =>
             let E := fresh "E" in
             destruct (scan_number s) as [[lexeme r']|] eqn:E;
             [apply scan_number_shorter in E;
              destruct (too_long max_digits lexeme); [discriminate|];
              intros [= <- <-]; exact E|]
         end.
  discriminate.
Qed.

(** A value is read from a text that is longer than what follows it. *)
Lemma scan_shorter (f : nat) :
  (forall d s v r, once f d s = Got v r -> String.length r < String.length s) /\
  (forall d s acc v r,
      items f d s acc = Got v r -> String.length r < String.length s) /\
  (forall d s acc v r,
      members f d s acc = Got v r -> String.length r < String.length s).
Proof.
  induction f as [|f (IH1 & IH2 & IH3)]; [repeat split; discriminate|].
  split; [|split].
  - intros d s v r H. cbn [scan_once] in H.
    destruct s as [|c s]; [discriminate|]. cbn [String.length].
    destruct (Ascii.eqb c dquote).
    { destruct (scanstring lenient s) as [[t r']|] eqn:E; [|discriminate].
      injection H as <- <-. apply scanstring_shorter in E. lia. }
    destruct (Ascii.eqb c "{").
    { destruct d as [|d]; [discriminate|].
      pose proof (skip_ws_length s) as Lw.
      destruct (skip_ws s) as [|c' s']; [discriminate|].
      cbn [String.length] in Lw.
      destruct (Ascii.eqb c' "}"); [injection H as <- <-; lia|].
      destruct (Ascii.eqb c' dquote); [|discriminate].
      apply IH3 in H. lia. }
    destruct (Ascii.eqb c "[").
    { destruct d as [|d]; [discriminate|].
      pose proof (skip_ws_length s) as Lw.
      destruct (skip_ws s) as [|c' s']; [discriminate|].
      cbn [String.length] in Lw.
      destruct (Ascii.eqb c' "]"); [injection H as <- <-; lia|].
      apply IH2 in H. cbn [String.length] in H. lia. }
    apply scan_atom_shorter in H. cbn [String.length] in H. exact H.
  - intros d s acc v r H. cbn [scan_items] in H.
    destruct (once f d s) as [v1 r1|] eqn:E1; [|discriminate].
    apply IH1 in E1.
    pose proof (skip_ws_length r1) as Lw.
    destruct (skip_ws r1) as [|c' r']; [discriminate|].
    cbn [String.length] in Lw.
    destruct (Ascii.eqb c' "]"); [injection H as <- <-; lia|].
    destruct (Ascii.eqb c' ","); [|discriminate].
    apply IH2 in H. pose proof (skip_ws_length r'). lia.
  - intros d s acc v r H. cbn [scan_members] in H.
    destruct (scanstring lenient s) as [[key r0]|] eqn:Ek; [|discriminate].
    apply scanstring_shorter in Ek.
    pose proof (skip_ws_length r0) as Lw0.
    destruct (skip_ws r0) as [|c1 r1]; [discriminate|].
    cbn [String.length] in Lw0.
    destruct (Ascii.eqb c1 ":"); [|discriminate].
    destruct (once f d (skip_ws r1)) as [v1 r2|] eqn:E1; [|discriminate].
    apply IH1 in E1.
    pose proof (skip_ws_length r1) as Lw1.
    pose proof (skip_ws_length r2) as Lw2.
    destruct (skip_ws r2) as [|c3 r3]; [discriminate|].
    cbn [String.length] in Lw2.
    destruct (Ascii.eqb c3 "}"); [injection H as <- <-; lia|].
    destruct (Ascii.eqb c3 ","); [|discriminate].
    pose proof (skip_ws_length r3) as Lw3.
    destruct (skip_ws r3) as [|c' r4]; [discriminate|].
    cbn [String.length] in Lw3.
    destruct (Ascii.eqb c' dquote); [|discriminate].
    apply IH3 in H. lia.
Qed.

(** Two units of fuel per character are enough: the fuel never runs
    out. *)
Lemma scan_fuel_enough (f : nat) :
  (forall d s, 2 * String.length s + 1 <= f -> once f d s <> Lost Fuel) /\
  (forall d s acc,
      2 * String.length s + 2 <= f -> items f d s acc <> Lost Fuel) /\
  (forall d s acc,
      2 * String.length s + 2 <= f -> members f d s acc <> Lost Fuel).
Proof.
  induction f as [|f (IH1 & IH2 & IH3)]; [repeat split; intros; lia|].
  split; [|split].
  - intros d s Hf. cbn [scan_once].
    destruct s as [|c s]; [discriminate|]. cbn [String.length] in Hf.
    destruct (Ascii.eqb c dquote).
    { destruct (scanstring lenient s) as [[t r']|]; discriminate. }
    destruct (Ascii.eqb c "{").
    { destruct d as [|d]; [discriminate|].
      pose proof (skip_ws_length s) as Lw.
      destruct (skip_ws s) as [|c' s']; [discriminate|].
      cbn [String.length] in Lw.
      destruct (Ascii.eqb c' "}"); [discriminate|].
      destruct (Ascii.eqb c' dquote); [|discriminate].
      apply IH3. lia. }
    destruct (Ascii.eqb c "[").
    { destruct d as [|d]; [discriminate|].
      pose proof (skip_ws_length s) as Lw.
      destruct (skip_ws s) as [|c' s'] eqn:Ew; [discriminate|].
      destruct (Ascii.eqb c' "]"); [discriminate|].
      apply IH2. lia. }
    unfold scan_atom.
    repeat match goal with
           | |- match ?x with _ => _ end <> _ => destruct x
           | |- (if ?x then _ else _) <> _ => destruct x
           | |- (let (_, _) := ?x in _) <> _ => destruct x
           end; discriminate.
  - intros d s acc Hf. cbn [scan_items].
    destruct (once f d s) as [v1 r1|why] eqn:E1.
    + apply (proj1 (scan_shorter f)) in E1.
      pose proof (skip_ws_length r1) as Lw.
      destruct (skip_ws r1) as [|c' r']; [discriminate|].
      cbn [String.length] in Lw.
      destruct (Ascii.eqb c' "]"); [discriminate|].
      destruct (Ascii.eqb c' ","); [|discriminate].
      apply IH2. pose proof (skip_ws_length r'). lia.
    + intros [= ->]. revert E1. apply IH1. lia.
  - intros d s acc Hf. cbn [scan_members].
    destruct (scanstring lenient s) as [[key r0]|] eqn:Ek; [|discriminate].
    apply scanstring_shorter in Ek.
    pose proof (skip_ws_length r0) as Lw0.
    destruct (skip_ws r0) as [|c1 r1]; [discriminate|].
    cbn [String.length] in Lw0.
    destruct (Ascii.eqb c1 ":"); [|discriminate].
    pose proof (skip_ws_length r1) as Lw1.
    destruct (once f d (skip_ws r1)) as [v1 r2|why] eqn:E1.
    + apply (proj1 (scan_shorter f)) in E1.
      pose proof (skip_ws_length r2) as Lw2.
      destruct (skip_ws r2) as [|c3 r3]; [discriminate|].
      cbn [String.length] in Lw2.
      destruct (Ascii.eqb c3 "}"); [discriminate|].
      destruct (Ascii.eqb c3 ","); [|discriminate].
      pose proof (skip_ws_length r3) as Lw3.
      destruct (skip_ws r3) as [|c' r4]; [discriminate|].
      cbn [String.length] in Lw3.
      destruct (Ascii.eqb c' dquote); [|discriminate].
      apply IH3. lia.
    + intros [= ->]. revert E1. apply IH1. lia.
Qed.

(** What [loads] answers does not depend on its fuel: the scan of a text
    never ends for want of fuel, and ends in the same way with any larger
    fuel. *)
Lemma loads_fuel_enough (d : nat) (s : string) :
  scan_text lenient max_digits d s <> Lost Fuel
  /\ forall f,
      2 * String.length s + 2 <= f ->
      once f d (skip_ws s) = once (2 * String.length s + 2) d (skip_ws s).
Proof.
  assert (H : once (2 * String.length s + 2) d (skip_ws s) <> Lost Fuel).
  { apply (proj1 (scan_fuel_enough _)). pose proof (skip_ws_length s). lia. }
  split.
  - unfold scan_text.
    destruct (once (2 * String.length s + 2) d (skip_ws s)) as [v r|why];
      [destruct (skip_ws r); discriminate|].
    intros [= ->]. apply H. reflexivity.
  - intros f Hf. apply (proj1 (scan_fuel_mono _)); assumption.
Qed.

End Fuel.

(** *** The fallback payloads *)

Ltac scan_tac :=
  repeat (rewrite ?append_assoc; cbn [append DQ]);
  repeat (rewrite ?quote_app, ?scanstring_escape;
          cbn [scan_once scan_items scan_members skip_ws is_ws
               Ascii.eqb Bool.eqb orb andb dquote tab nl cret]);
  try reflexivity.

Section Payloads.

Variable lenient : bool.
Variable max_digits : option nat.

Local Abbreviation once := (scan_once lenient max_digits).
Local Abbreviation items := (scan_items lenient max_digits).

Lemma scan_once_obj3 (f d : nat) (k1 v1 k2 v2 k3 v3 tl : string) :
  once (S (S (S (S (S f))))) (S d) (dumps (obj3 k1 v1 k2 v2 k3 v3) ++ tl)
  = Got (JObj (of_pairs [(k1, JStr v1); (k2, JStr v2); (k3, JStr v3)])) tl.
Proof. unfold obj3. cbn [dumps map join fst snd]. scan_tac. Qed.

Lemma scan_once_arr_obj (f d : nat) (m : list (string * json)) (tl : string) :
  once (S f) (S d) (String "[" (dumps (JObj m) ++ tl))
  = items f d (dumps (JObj m) ++ tl) [].
Proof. reflexivity. Qed.

Lemma scan_items_more (f d : nat) (s : string) (v : json)
      (m : list (string * json)) (tl : string) (acc : list json) :
  once f d s = Got v (String "," (String " " (dumps (JObj m) ++ tl))) ->
  items (S f) d s acc = items f d (dumps (JObj m) ++ tl) (v :: acc).
Proof. intros H. cbn [scan_items]. rewrite H. reflexivity. Qed.

Lemma scan_items_last (f d : nat) (s : string) (v : json) (tl : string)
      (acc : list json) :
  once f d s = Got v (String "]" tl) ->
  items (S f) d s acc = Got (JArr (rev (v :: acc))) tl.
Proof. intros H. cbn [scan_items]. rewrite H. reflexivity. Qed.

Lemma dumps_arr3 (a b c : json) :
  dumps (JArr [a; b; c])
  = String "[" (dumps a ++ String "," (String " "
               (dumps b ++ String "," (String " " (dumps c ++ "]"))))).
Proof.
  change (dumps (JArr [a; b; c]))
    with ("[" ++ (dumps a ++ ", " ++ dumps b ++ ", " ++ dumps c) ++ "]").
  repeat (rewrite ?append_assoc; cbn [append]). reflexivity.
Qed.

(** The three fallback opportunities, as objects of three strings. *)
Lemma jobs_fallback_obj3 (env : Env) (role : json) :
  jobs_fallback env role
  = JArr [obj3 "company_name" "TechNova Solutions"
               "job_title" ("Senior " ++ str env role)
               "contact_email" "careers@technova.example.com";
          obj3 "company_name" "Quantum Innovations"
               "job_title" ("Lead " ++ str env role)
               "contact_email" "hr@quantuminnovations.example.com";
          obj3 "company_name" "CloudNine Systems"
               "job_title" (str env role)
               "contact_email" "jobs@cloudninesystems.example.com"].
Proof. reflexivity. Qed.

Lemma scan_jobs (env : Env) (role : json) (f d : nat) :
  once (S (S (S (S (S (S (S (S (S f))))))))) (S (S d))
       (dumps (jobs_fallback env role))
  = Got (jobs_fallback env role) "".
Proof.
  rewrite jobs_fallback_obj3, dumps_arr3.
  unfold obj3 at 1. rewrite scan_once_arr_obj.
  match goal with |- context [dumps (JObj ?m) ++ ?t] =>
    change (JObj m) with (obj3 "company_name" "TechNova Solutions"
               "job_title" ("Senior " ++ str env role)
               "contact_email" "careers@technova.example.com") end.
  unfold obj3 at 2. erewrite scan_items_more by apply scan_once_obj3.
  match goal with |- context [dumps (JObj ?m) ++ ?t] =>
    change (JObj m) with (obj3 "company_name" "Quantum Innovations"
               "job_title" ("Lead " ++ str env role)
               "contact_email" "hr@quantuminnovations.example.com") end.
  erewrite scan_items_more by apply scan_once_obj3.
  erewrite scan_items_last by apply scan_once_obj3.
  reflexivity.
Qed.

Lemma scan_text_jobs (env : Env) (role : json) (d : nat) :
  scan_text lenient max_digits (S (S d)) (dumps (jobs_fallback env role))
  = Got (jobs_fallback env role) "".
Proof.
  unfold scan_text.
  assert (E : skip_ws (dumps (jobs_fallback env role))
              = dumps (jobs_fallback env role)) by reflexivity.
  rewrite E.
  assert (L : 9 <= 2 * String.length (dumps (jobs_fallback env role)) + 2).
  { rewrite jobs_fallback_obj3, dumps_arr3.
    repeat (rewrite ?length_app; cbn [String.length]). lia. }
  replace (2 * String.length (dumps (jobs_fallback env role)) + 2)
    with (9 + (2 * String.length (dumps (jobs_fallback env role)) + 2 - 9))
    by lia.
  cbn [Nat.add]. rewrite scan_jobs. reflexivity.
Qed.

Lemma scan_text_resume (d : nat) :
  scan_text lenient max_digits (S (S d)) (dumps resume_fallback)
  = Got resume_fallback "".
Proof. destruct lenient; vm_compute; reflexivity. Qed.

End Payloads.

(** The fallback of the discovery agent decodes to the value it encodes,
    whatever the role and the limits of the interpreter, when there is
    room for its two levels. *)
Lemma loads_jobs_fallback (env : Env) (role : json) (max_digits : option nat)
      (d : nat) :
  loads max_digits (S (S d)) (dumps (jobs_fallback env role))
  = Decoded (jobs_fallback env role).
Proof. unfold loads. rewrite !scan_text_jobs. reflexivity. Qed.

(** So does the fallback of the resume agent. *)
Lemma loads_resume_fallback (max_digits : option nat) (d : nat) :
  loads max_digits (S (S d)) (dumps resume_fallback) = Decoded resume_fallback.
Proof. unfold loads. rewrite !scan_text_resume. reflexivity. Qed.

End JsonFacts.

(** The agents decode their own fallback. *)
Lemma decode_jobs_fallback (env : Env) (role : json) :
  decode env (Json.dumps (jobs_fallback env role))
  = Decoded (jobs_fallback env role).
Proof. apply JsonFacts.loads_jobs_fallback. Qed.

Lemma decode_resume_fallback (env : Env) :
  decode env (Json.dumps resume_fallback) = Decoded resume_fallback.
Proof. apply JsonFacts.loads_resume_fallback. Qed.

(* ===================================================================== *)
(** ** Computations                                                       *)
(* ===================================================================== *)

Section Rules.
Context {A B : Type}.

Lemma wp_bind (m : M A) (k : A -> M B) (w : World) (Q : res B -> World -> Prop) :
  wp m w (fun r w1 => match r with
                      | Ok a => wp (k a) w1 Q
                      | Raise e => Q (Raise e) w1
                      end) ->
  wp (bind m k) w Q.
Proof. unfold wp, bind. destruct (m w) as [[a|e] w1]; auto. Qed.

Lemma wp_ret (a : A) (w : World) (Q : res A -> World -> Prop) :
  Q (Ok a) w -> wp (ret a) w Q.
Proof. auto. Qed.

Lemma wp_lift (r : res A) (w : World) (Q : res A -> World -> Prop) :
  Q r w -> wp (lift r) w Q.
Proof. auto. Qed.

Lemma wp_raise (e : pyexn) (w : World) (Q : res A -> World -> Prop) :
  Q (Raise e) w -> wp (raise e) w Q.
Proof. auto. Qed.

Lemma wp_gets (f : Session -> A) (w : World) (Q : res A -> World -> Prop) :
  Q (Ok (f (session w))) w -> wp (gets f) w Q.
Proof. auto. Qed.

Lemma wp_run (m : M A) (w : World) (Q : res A -> World -> Prop) r w' :
  m w = (r, w') -> Q r w' -> wp m w Q.
Proof. unfold wp. intros ->. auto. Qed.

End Rules.

Lemma wp_emit (e : event) (w : World) (Q : res unit -> World -> Prop) :
  Q (Ok tt) {| session := session w; trace := (trace w ++ [e])%list;
               tick := tick w |} ->
  wp (emit e) w Q.
Proof. auto. Qed.

Lemma wp_next_tick (w : World) (Q : res nat -> World -> Prop) :
  Q (Ok (tick w)) {| session := session w; trace := trace w;
                     tick := S (tick w) |} ->
  wp next_tick w Q.
Proof. auto. Qed.

Lemma wp_modify (f : Session -> Session) (w : World)
      (Q : res unit -> World -> Prop) :
  Q (Ok tt) {| session := f (session w); trace := trace w; tick := tick w |} ->
  wp (modify f) w Q.
Proof. auto. Qed.

Lemma append_log_run (env : Env) (message : string) (error fallback : bool)
      (w : World) :
  append_log env message error fallback w
  = (Ok tt, logged env message error fallback w).
Proof.
  unfold append_log, logged, log_entry, bind, next_tick, gets, modify, ret.
  destruct fallback, error; reflexivity.
Qed.

Lemma wp_append_log (env : Env) (message : string) (error fallback : bool)
      (w : World) (Q : res unit -> World -> Prop) :
  Q (Ok tt) (logged env message error fallback w) ->
  wp (append_log env message error fallback) w Q.
Proof. unfold wp. rewrite append_log_run. auto. Qed.

(** What [append_log] changes. *)
Lemma logged_trace env m e f w : trace (logged env m e f w) = trace w.
Proof. reflexivity. Qed.

Lemma logged_tick env m e f w : tick (logged env m e f w) = S (tick w).
Proof. reflexivity. Qed.

Lemma logged_logs env m e f w :
  logs (session (logged env m e f w))
  = (logs (session w) ++ [log_entry env (tick w) m e f])%list.
Proof. destruct f; reflexivity. Qed.

(* ===================================================================== *)
(** ** The gateway                                                        *)
(* ===================================================================== *)

Section Gateway.
Import Py.
Variable env : Env.

Lemma configure_genai_run (w : World) :
  configure_genai env w
  = if truthy (credential env w)
    then (Ok true, {| session := session w;
                      trace := (trace w ++ [Configure (credential env w)])%list;
                      tick := tick w |})
    else (Ok false, w).
Proof.
  unfold configure_genai, credential, bind, gets, emit, ret.
  destruct (secrets_key env) as [[|c k]|]; simpl;
    try reflexivity;
    destruct (gemini_api_key (session w)) as [[|c' k']|]; reflexivity.
Qed.

Lemma call_gemini_run (prompt fallback : string) (json_format : bool)
      (w : World) :
  call_gemini_with_fallback env prompt fallback json_format w
  = if truthy (credential env w)
    then
      match generate env (tick w) (model_of json_format) (mime_of json_format)
                     prompt with
      | Generated text => (Ok text, asked env w json_format prompt [])
      | ResourceExhausted =>
          (Ok fallback,
           asked env w json_format prompt
                 [St "warning"
                     "Gemini API Quota Exceeded (429). Using Fallback Template Engine."])
      | ProviderFailure msg =>
          (Ok fallback,
           asked env w json_format prompt
                 [St "error" ("Gemini API Error: " ++ msg)])
      end
    else (Ok fallback, w).
Proof.
  unfold call_gemini_with_fallback, bind at 1.
  rewrite configure_genai_run.
  destruct (truthy (credential env w)); [|reflexivity].
  unfold asked, model_of, mime_of.
  destruct json_format; cbn [negb];
    unfold generate_content, bind, emit, next_tick, ret; cbn;
    match goal with |- context [generate env ?t ?m ?i ?p] =>
      destruct (generate env t m i p) end;
    cbn; rewrite <- ?app_assoc; reflexivity.
Qed.

(** The gateway always answers, with its fallback or with what the
    provider generated; it keeps the session state and adds events of its
    own to the trace. *)
Lemma call_gemini_spec (prompt fallback : string) (json_format : bool)
      (s : Session) (t : list event) (k : nat) :
  exists text new n,
    call_gemini_with_fallback env prompt fallback json_format
                              {| session := s; trace := t; tick := k |}
    = (Ok text, {| session := s; trace := (t ++ new)%list; tick := k + n |})
    /\ forallb is_gateway_event new = true
    /\ (text = fallback \/
        generate env k (model_of json_format) (mime_of json_format) prompt
        = Generated text).
Proof.
  rewrite call_gemini_run.
  destruct (truthy (credential env _)).
  - unfold asked. cbn [session trace tick].
    destruct (generate env k _ _ prompt) as [text| |msg] eqn:E;
      do 2 eexists; exists 1; rewrite Nat.add_1_r;
      (split; [reflexivity|]); (split; [reflexivity|]); auto.
  - exists fallback, [], 0. rewrite app_nil_r, Nat.add_0_r. auto.
Qed.

Lemma wp_call_gemini (prompt fallback : string) (json_format : bool)
      (s : Session) (t : list event) (k : nat)
      (Q : res string -> World -> Prop) :
  (forall text new n,
      forallb is_gateway_event new = true ->
      text = fallback \/
      generate env k (model_of json_format) (mime_of json_format) prompt
      = Generated text ->
      Q (Ok text) {| session := s; trace := (t ++ new)%list; tick := k + n |}) ->
  wp (call_gemini_with_fallback env prompt fallback json_format)
     {| session := s; trace := t; tick := k |} Q.
Proof.
  intros H.
  destruct (call_gemini_spec prompt fallback json_format s t k)
    as (text & new & n & E & Hg & Ht).
  eapply wp_run; eauto.
Qed.

End Gateway.

Ltac world_norm :=
  cbn [session trace tick logged logs jobs_identified successful_dispatches
       api_fallbacks parsed_resume mock_jobs interview_questions pdf_bytes
       pdf_filename workflow_started workflow_completed gemini_api_key
       set_logs set_jobs_identified set_successful_dispatches
       set_api_fallbacks set_parsed_resume set_mock_jobs
       set_interview_questions set_pdf set_workflow_started
       set_workflow_completed set_gemini_api_key
       Dyn.get Dyn.contains Dyn.setitem].

Ltac world_norm_in H :=
  cbn [session trace tick logged logs jobs_identified successful_dispatches
       api_fallbacks parsed_resume mock_jobs interview_questions pdf_bytes
       pdf_filename workflow_started workflow_completed gemini_api_key
       set_logs set_jobs_identified set_successful_dispatches
       set_api_fallbacks set_parsed_resume set_mock_jobs
       set_interview_questions set_pdf set_workflow_started
       set_workflow_completed set_gemini_api_key
       Dyn.get Dyn.contains Dyn.setitem] in H.


Ltac wp_step :=
  cbn beta iota;
  lazymatch goal with
  | |- wp (cover_letter_agent _ _ _ _) _ _ => fail
  | |- wp (send_email_with_attachment _ _ _ _ _ _ _ _) _ _ => fail
  | |- wp (call_gemini_with_fallback _ _ _ _) _ _ => fail
  | |- wp (parse_resume_agent _ _) _ _ => fail
  | |- wp (job_discovery_agent _ _ _) _ _ => fail
  | |- wp (interview_prep_agent _ _) _ _ => fail
  | |- wp (extract_text_from_pdf _ _) _ _ => fail
  | |- wp (append_log _ _ _ _) _ _ => apply wp_append_log
  | |- wp (bind _ _) _ _ => apply wp_bind
  | |- wp (ret _) _ _ => apply wp_ret
  | |- wp (lift _) _ _ => apply wp_lift
  | |- wp (raise _) _ _ => apply wp_raise
  | |- wp (emit _) _ _ => apply wp_emit
  | |- wp (gets _) _ _ => apply wp_gets
  | |- wp (modify _) _ _ => apply wp_modify
  | |- wp next_tick _ _ => apply wp_next_tick
  end; world_norm.

(* ===================================================================== *)
(** ** The cover letter and one iteration of the dispatch loop            *)
(* ===================================================================== *)

Section Dispatch.
Import Py PyFacts.
Variable env : Env.

(** Every fallback letter carries the two markers the loop looks for. *)
Lemma fallback_marked (company_name job_title role : json) (skills3 : string) :
  marked (cover_letter_fallback env company_name job_title role skills3) = true.
Proof.
  unfold marked. apply andb_true_intro. split; [reflexivity|].
  unfold cover_letter_fallback.
  rewrite <- !append_assoc. apply str_in_end.
Qed.

Lemma strs_ok (l : list json) :
  forallb (fun x => match x with JStr _ => true | _ => false end) l = true ->
  exists parts, Dyn.strs l = Some parts.
Proof.
  induction l as [|x l IH]; simpl; [eauto|].
  destruct x; try discriminate. intros H.
  destruct (IH H) as [parts ->]. eauto.
Qed.

Lemma strs_map_JStr (l : list string) : Dyn.strs (map JStr l) = Some l.
Proof. induction l as [|x l IH]; simpl; [|rewrite IH]; reflexivity. Qed.

Lemma forallb_firstn {X} (p : X -> bool) (n : nat) (l : list X) :
  forallb p l = true -> forallb p (firstn n l) = true.
Proof.
  revert n; induction l as [|x l IH]; intros [|n]; simpl; auto.
  intros H. apply andb_prop in H. destruct H as [-> H]. simpl. auto.
Qed.

Lemma join_ok (sep : string) (v : json) :
  skills_ok v = true -> exists s, Dyn.join sep v = Ok s.
Proof.
  destruct v; try discriminate; simpl; intros H; unfold Dyn.join; simpl.
  - rewrite strs_map_JStr. eauto.
  - destruct (strs_ok _ H) as [parts ->]. eauto.
Qed.

Lemma slice_ok (n : nat) (v : json) :
  skills_ok v = true ->
  exists v', Dyn.slice n v = Ok v' /\ skills_ok v' = true.
Proof.
  destruct v; try discriminate; simpl; intros H; eexists; split;
    try reflexivity.
  simpl. apply forallb_firstn. exact H.
Qed.

Lemma wp_cover_letter (candidate_info company_name job_title : json)
      (s : Session) (t : list event) (k : nat)
      (Q : res string -> World -> Prop) :
  profile_ok candidate_info = true ->
  (forall letter new n,
      forallb is_gateway_event new = true ->
      marked letter = true \/
      (exists t p,
          generate env t (model_of false) (mime_of false) p = Generated letter) ->
      Q (Ok letter) {| session := s; trace := (t ++ new)%list; tick := k + n |}) ->
  wp (cover_letter_agent env candidate_info company_name job_title)
     {| session := s; trace := t; tick := k |} Q.
Proof.
  intros Hp HQ.
  destruct candidate_info as [| | | | |d]; try discriminate.
  simpl in Hp.
  destruct (join_ok ", " _ Hp) as [joined Hj].
  destruct (slice_ok 3 _ Hp) as (first3 & Hs & Hp3).
  destruct (join_ok ", " _ Hp3) as [joined3 Hj3].
  unfold cover_letter_agent. cbn [Dyn.get].
  repeat (apply wp_bind; apply wp_lift; cbn beta iota).
  rewrite Hj. cbn beta iota.
  repeat (apply wp_bind; apply wp_lift; cbn beta iota).
  rewrite Hs. cbn beta iota.
  apply wp_bind; apply wp_lift. rewrite Hj3. cbn beta iota.
  apply wp_call_gemini. intros letter new n Hg [->|Hgen]; apply HQ; auto.
  - left. apply fallback_marked.
  - right. eauto.
Qed.

Lemma wp_send_email (sender password : string) (recipient : json)
      (subject body : string) (bytes name : option string) (w : World)
      (Q : res bool -> World -> Prop) :
  (forall msg extra,
      msg_to msg = recipient ->
      msg_body msg = body ->
      filter is_spinner extra = [] ->
      filter is_delivery extra = [] ->
      Q (Ok (delivered (smtp_session env (tick w) msg password)))
        {| session := session w;
           trace := (trace w
                     ++ St "info" ("Rate limiting: Waiting 20 seconds before dispatching email to "
                                   ++ str env recipient ++ "...")
                     :: Sleep 20 :: SmtpSession msg password :: extra)%list;
           tick := S (tick w) |}) ->
  wp (send_email_with_attachment env sender password recipient subject body
                                 bytes name) w Q.
Proof.
  intros HQ. unfold send_email_with_attachment.
  match goal with |- context [SmtpSession ?m _] => set (msg := m) end.
  generalize (HQ msg); clear HQ.
  unfold wp, bind, emit, next_tick, ret; cbn [fst snd session trace tick].
  destruct (smtp_session env (tick w) msg password); intros H;
    cbn [fst snd session trace tick delivered] in *;
    rewrite <- ?app_assoc; cbn [app]; apply H; reflexivity.
Qed.

(** The gateway shows no spinner and neither sleeps nor sends. *)
Lemma gateway_events_quiet (l : list event) :
  forallb is_gateway_event l = true ->
  filter is_spinner l = [] /\ filter is_delivery l = [].
Proof.
  induction l as [|e l IH]; simpl; [auto|].
  intros H. apply andb_prop in H. destruct H as [He Hl].
  destruct (IH Hl) as [-> ->].
  destruct e as [call content| | | |]; try discriminate; simpl; auto.
  apply orb_prop in He.
  destruct He as [He|He]; apply String.eqb_eq in He; subst; auto.
Qed.

Ltac filter_norm Hq :=
  repeat (progress
            (rewrite ?filter_app, ?Hq;
             cbn [filter is_spinner is_delivery String.eqb Ascii.eqb
                  Bool.eqb app])).

(** One iteration on an opportunity, for a candidate profile. *)
Lemma dispatch_job_spec (ui : Inputs) (candidate_info mock_jobs : json)
      (index : nat) (job : json) (w : World) :
  profile_ok candidate_info = true ->
  opportunity_ok job = true ->
  (exists n, Dyn.len mock_jobs = Ok n) ->
  wp (dispatch_job env ui candidate_info mock_jobs index job) w
     (fun r w' => exists success,
          r = Ok success /\ job_step env ui index job w w' success).
Proof.
  intros Hp Hj [n Hn].
  destruct w as [s t k].
  destruct job as [| | | | |d]; try discriminate.
  simpl in Hj.
  destruct (Json.get "contact_email" (JStr "hr@example.com") d)
    as [| | |r| |] eqn:Er; try discriminate.
  assert (Hsb : sandbox (JObj d) = str_in "example" r)
    by (unfold sandbox, recipient_of; rewrite Er; reflexivity).
  assert (Hrc : recipient_of (JObj d) = JStr r) by exact Er.
  unfold job_step. rewrite Hsb, Hrc. unfold company_of. clear Hsb Hrc.
  destruct candidate_info as [| | | | |cd]; try discriminate.
  unfold dispatch_job. cbn [Dyn.get Dyn.contains]. rewrite Er, Hn.
  repeat wp_step.
  apply wp_cover_letter; [exact Hp|].
  intros letter gnew gn Hg Hlet. cbn beta iota.
  destruct (gateway_events_quiet _ Hg) as [Hq1 Hq2].
  change (startswith "Dear" letter && str_in "A Dedicated Professional" letter)
    with (marked letter).
  destruct (marked letter) eqn:Em;
    repeat wp_step;
    (destruct (str_in "example" r) eqn:Es;
     [ repeat wp_step;
       exists true; split; [reflexivity|];
       split; [reflexivity|];
       split; [reflexivity|];
       exists letter; eexists;
       split; [rewrite <- !app_assoc; reflexivity|];
       split; [rewrite ?Em; cbn; lia|];
       split; [first [exact Hlet | rewrite Em; exact Hlet]|];
       split; [filter_norm Hq1; reflexivity|];
       split; [reflexivity|filter_norm Hq2; reflexivity]
     | repeat wp_step;
       apply wp_send_email;
       intros msg extra Hto Hbody Hx1 Hx2; world_norm;
       match goal with
       | |- context [delivered ?o] => destruct (delivered o) eqn:Ed
       end;
       repeat wp_step;
       eexists; (split; [reflexivity|]);
       (split; [reflexivity|]);
       (split; [cbn; lia|]);
       exists letter; eexists;
       (split; [rewrite <- !app_assoc; reflexivity|]);
       (split; [rewrite ?Em; cbn; lia|]);
       (split; [first [exact Hlet | rewrite Em; exact Hlet]|]);
       (split; [filter_norm Hq1; rewrite ?Hx1; reflexivity|]);
       eexists; exists msg;
       (split; [exact Hto|]); (split; [exact Hbody|]);
       (split; [filter_norm Hq2; rewrite ?Hx2; reflexivity|]);
       rewrite Ed; reflexivity ]).
Qed.


Lemma wp_mono {A} (m : M A) (w : World) (Q Q' : res A -> World -> Prop) :
  (forall r w', Q r w' -> Q' r w') -> wp m w Q -> wp m w Q'.
Proof. unfold wp. auto. Qed.

(** The loop over opportunities, numbered from [index]. *)
Lemma dispatch_jobs_spec (ui : Inputs) (candidate_info mock_jobs : json)
      (jobs : list json) :
  profile_ok candidate_info = true ->
  forallb opportunity_ok jobs = true ->
  (exists n, Dyn.len mock_jobs = Ok n) ->
  forall (index : nat) (w : World),
    wp (for_enumerate (dispatch_job env ui candidate_info mock_jobs) index jobs) w
       (fun r w' => exists sent new,
            r = Ok sent /\
            Forall2 (outcome_of env ui) jobs sent /\
            trace w' = (trace w ++ new)%list /\
            filter is_spinner new = banners env index jobs /\
            jobs_identified (session w') = jobs_identified (session w) /\
            successful_dispatches (session w')
            = successful_dispatches (session w) + sent_count sent /\
            api_fallbacks (session w) <= api_fallbacks (session w')).
Proof.
  intros Hp Hj Hn.
  induction jobs as [|job jobs IH]; intros index w.
  - apply wp_ret. exists [], []. rewrite app_nil_r.
    repeat split; auto.
  - simpl in Hj. apply andb_prop in Hj. destruct Hj as [Hjob Hrest].
    cbn [for_enumerate]. apply wp_bind.
    eapply wp_mono; [|apply dispatch_job_spec; eassumption].
    intros r w1 (success & -> & Hj1 & Hd1 & letter & new1 & Ht1 & Hf1 & _ & Hs1 & Hout).
    apply wp_bind.
    eapply wp_mono; [|apply (IH Hrest)].
    intros r w2 (sent & new2 & -> & Hall & Ht2 & Hs2 & Hj2 & Hd2 & Hf2).
    apply wp_ret.
    exists (success :: sent), (new1 ++ new2)%list.
    split; [reflexivity|].
    split.
    { constructor; [|exact Hall]. unfold outcome_of.
      destruct (sandbox job).
      - exact (proj1 Hout).
      - destruct Hout as (t & msg & Hto & _ & _ & Hb). eauto. }
    split; [rewrite Ht2, Ht1, app_assoc; reflexivity|].
    split; [rewrite filter_app, Hs1, Hs2; reflexivity|].
    split; [congruence|].
    split.
    { rewrite Hd2, Hd1. unfold sent_count. cbn [filter].
      destruct success; cbn [List.length]; lia. }
    rewrite Hf1 in Hf2. lia.
Qed.

End Dispatch.

(* ===================================================================== *)
(** ** What every run keeps, whatever the provider answers                *)
(* ===================================================================== *)

Section Safety.
Import Py PyFacts.
Variable env : Env.

Ltac wp_case :=
  cbn beta iota;
  lazymatch goal with
  | |- wp (if ?b then _ else _) _ _ => destruct b eqn:?
  | |- wp (match ?x with _ => _ end) _ _ => destruct x eqn:?
  | |- match ?x with Ok _ => _ | Raise _ => _ end => destruct x eqn:?
  end.

(** The agents, the PDF reader and the transport leave the session state
    as it is, whether they return or raise. *)
Lemma call_gemini_frame (prompt fallback : string) (json_format : bool)
      (s : Session) (t : list event) (k : nat)
      (Q : res string -> World -> Prop) :
  (forall r t' k', Q r {| session := s; trace := t'; tick := k' |}) ->
  wp (call_gemini_with_fallback env prompt fallback json_format)
     {| session := s; trace := t; tick := k |} Q.
Proof. intros H. apply wp_call_gemini. intros. apply H. Qed.

Ltac frame_tac H :=
  repeat first [ wp_step | wp_case | apply call_gemini_frame; intros ];
  try apply H.

Lemma cover_letter_frame (candidate_info company_name job_title : json)
      (s : Session) (t : list event) (k : nat)
      (Q : res string -> World -> Prop) :
  (forall r t' k', Q r {| session := s; trace := t'; tick := k' |}) ->
  wp (cover_letter_agent env candidate_info company_name job_title)
     {| session := s; trace := t; tick := k |} Q.
Proof. intros H. unfold cover_letter_agent. frame_tac H. Qed.

Lemma parse_resume_frame (resume_text : string)
      (s : Session) (t : list event) (k : nat)
      (Q : res json -> World -> Prop) :
  (forall r t' k', Q r {| session := s; trace := t'; tick := k' |}) ->
  wp (parse_resume_agent env resume_text)
     {| session := s; trace := t; tick := k |} Q.
Proof.
  intros H. unfold parse_resume_agent, decode_or_fallback, json_loads.
  frame_tac H.
Qed.

Lemma job_discovery_frame (role : json) (location : string)
      (s : Session) (t : list event) (k : nat)
      (Q : res json -> World -> Prop) :
  (forall r t' k', Q r {| session := s; trace := t'; tick := k' |}) ->
  wp (job_discovery_agent env role location)
     {| session := s; trace := t; tick := k |} Q.
Proof.
  intros H. unfold job_discovery_agent, decode_or_fallback, json_loads.
  frame_tac H.
Qed.

Lemma interview_prep_frame (role : json)
      (s : Session) (t : list event) (k : nat)
      (Q : res string -> World -> Prop) :
  (forall r t' k', Q r {| session := s; trace := t'; tick := k' |}) ->
  wp (interview_prep_agent env role)
     {| session := s; trace := t; tick := k |} Q.
Proof. intros H. unfold interview_prep_agent. frame_tac H. Qed.

Lemma extract_text_frame (file : UploadedFile)
      (s : Session) (t : list event) (k : nat)
      (Q : res string -> World -> Prop) :
  (forall text t' k', Q (Ok text) {| session := s; trace := t'; tick := k' |}) ->
  wp (extract_text_from_pdf env file)
     {| session := s; trace := t; tick := k |} Q.
Proof. intros H. unfold extract_text_from_pdf. frame_tac H. Qed.

Lemma send_email_frame (sender password : string) (recipient : json)
      (subject body : string) (bytes name : option string)
      (s : Session) (t : list event) (k : nat)
      (Q : res bool -> World -> Prop) :
  (forall b t' k', Q (Ok b) {| session := s; trace := t'; tick := k' |}) ->
  wp (send_email_with_attachment env sender password recipient subject body
                                 bytes name)
     {| session := s; trace := t; tick := k |} Q.
Proof. intros H. apply wp_send_email. intros. apply H. Qed.

Ltac wp_frame :=
  cbn beta iota;
  lazymatch goal with
  | |- wp (cover_letter_agent _ _ _ _) _ _ => apply cover_letter_frame
  | |- wp (send_email_with_attachment _ _ _ _ _ _ _ _) _ _ =>
      apply send_email_frame
  | |- wp (parse_resume_agent _ _) _ _ => apply parse_resume_frame
  | |- wp (job_discovery_agent _ _ _) _ _ => apply job_discovery_frame
  | |- wp (interview_prep_agent _ _) _ _ => apply interview_prep_frame
  | |- wp (extract_text_from_pdf _ _) _ _ => apply extract_text_frame
  end; intros.

Ltac safe_tac := repeat first [ wp_step | wp_frame | wp_case ].

Ltac grows_tac := unfold grows; world_norm; repeat split; lia.

(** One iteration adds at most one dispatch, whatever the job is and
    however it ends. *)
Lemma dispatch_job_grows (ui : Inputs) (candidate_info mock_jobs : json)
      (index : nat) (job : json) (w : World) :
  wp (dispatch_job env ui candidate_info mock_jobs index job) w
     (fun _ w' => grows 1 w w').
Proof.
  destruct w as [s t k]. unfold dispatch_job.
  safe_tac; grows_tac.
Qed.


Lemma grows_trans (a b : nat) (w w1 w2 : World) :
  grows a w w1 -> grows b w1 w2 -> grows (a + b) w w2.
Proof. unfold grows. intros (? & ? & ? & ?) (? & ? & ? & ?). repeat split; lia. Qed.

Lemma grows_weaken (a b : nat) (w w' : World) :
  a <= b -> grows a w w' -> grows b w w'.
Proof. unfold grows. intros ? (? & ? & ? & ?). repeat split; lia. Qed.

Lemma grows_refl (w : World) : grows 0 w w.
Proof. unfold grows. repeat split; lia. Qed.

(** The loop adds at most one dispatch per job, also when an iteration
    raises. *)
Lemma for_enumerate_grows (ui : Inputs) (candidate_info mock_jobs : json)
      (jobs : list json) :
  forall (index : nat) (w : World),
    wp (for_enumerate (dispatch_job env ui candidate_info mock_jobs) index jobs)
       w (fun _ w' => grows (List.length jobs) w w').
Proof.
  induction jobs as [|job jobs IH]; intros index w.
  - apply wp_ret. apply grows_refl.
  - cbn [for_enumerate List.length]. apply wp_bind.
    eapply wp_mono; [|apply dispatch_job_grows].
    intros [b|e] w1 H1; cbn beta iota.
    + apply wp_bind. eapply wp_mono; [|apply IH].
      intros [bs|e] w2 H2; cbn beta iota; try apply wp_ret;
        apply (grows_trans 1 _ _ _ _ H1 H2).
    + eapply grows_weaken; [|exact H1]. lia.
Qed.

Lemma dispatch_loop_grows (ui : Inputs) (candidate_info mock_jobs : json)
      (w : World) :
  wp (dispatch_loop env ui candidate_info mock_jobs) w
     (fun _ w' => forall n, Dyn.len mock_jobs = Ok n -> grows n w w').
Proof.
  destruct w as [s t k]. unfold dispatch_loop.
  do 6 wp_step.
  destruct (Dyn.iter mock_jobs) as [jobs|e] eqn:E; cbn beta iota.
  - eapply wp_mono; [|apply for_enumerate_grows].
    cbn beta. intros r w' H n Hn.
    assert (n = List.length jobs) as ->.
    { destruct mock_jobs; try discriminate; cbn in E, Hn;
        inversion E; inversion Hn; subst; rewrite ?length_map; auto.
      clear. induction s0; simpl; congruence. }
    exact H.
  - intros n Hn. grows_tac.
Qed.

Lemma post_process_grows (candidate_info : json) (w : World) :
  wp (post_process env candidate_info) w (fun _ w' => grows 0 w w').
Proof.
  destruct w as [s t k]. unfold post_process. safe_tac; grows_tac.
Qed.

(** Discovery sets the number of jobs identified to the number of
    opportunities it found. *)
Lemma discover_spec (ui : Inputs) (candidate_info : json) (w : World) :
  wp (discover env ui candidate_info) w
     (fun r w' =>
        successful_dispatches (session w') = successful_dispatches (session w)
        /\ api_fallbacks (session w) <= api_fallbacks (session w')
        /\ match r with
           | Ok mock => Dyn.len mock = Ok (jobs_identified (session w'))
           | Raise _ => True
           end).
Proof.
  destruct w as [s t k]. unfold discover.
  safe_tac; world_norm; repeat split; auto; try lia; congruence.
Qed.

Lemma parse_candidate_spec (ui : Inputs) (resume_text : string) (w : World) :
  wp (parse_candidate env ui resume_text) w
     (fun r w' =>
        successful_dispatches (session w') = successful_dispatches (session w)
        /\ api_fallbacks (session w) <= api_fallbacks (session w')).
Proof.
  destruct w as [s t k]. unfold parse_candidate.
  safe_tac; world_norm; repeat split; auto; lia.
Qed.


(** Steps 3 and 4, once discovery has set the number of jobs. *)
Lemma after_discovery_grows (ui : Inputs) (candidate_info mock_jobs : json)
      (w : World) :
  Dyn.len mock_jobs = Ok (jobs_identified (session w)) ->
  wp (dispatch_loop env ui candidate_info mock_jobs ;;
      post_process env candidate_info) w
     (fun _ w' => grows (jobs_identified (session w)) w w').
Proof.
  intros Hlen. apply wp_bind.
  eapply wp_mono; [|apply dispatch_loop_grows].
  cbn beta. intros [sent|e] w1 H1; specialize (H1 _ Hlen); [|exact H1].
  eapply wp_mono; [|apply post_process_grows].
  cbn beta. intros r w2 H2.
  rewrite <- (Nat.add_0_r (jobs_identified (session w))).
  exact (grows_trans _ _ _ _ _ H1 H2).
Qed.

(** The workflow never takes a fallback back. *)
Lemma workflow_fallbacks (ui : Inputs) (file : UploadedFile) (w : World) :
  wp (workflow env ui file) w
     (fun _ w' => api_fallbacks (session w) <= api_fallbacks (session w')).
Proof.
  destruct w as [s t k]. unfold workflow.
  destruct (negb (truthy (sender_email ui)) || negb (truthy (app_password ui))).
  { safe_tac; world_norm; lia. }
  repeat first [wp_step | wp_frame].
  destruct (negb (truthy text)).
  { safe_tac; world_norm; lia. }
  apply wp_bind. eapply wp_mono; [|apply parse_candidate_spec].
  cbn beta. world_norm.
  intros [candidate_info|e] [s1 t1 k1] (_ & Hf1); world_norm_in Hf1; world_norm;
    [|lia].
  apply wp_bind. eapply wp_mono; [|apply discover_spec].
  cbn beta. world_norm.
  intros [mock|e] [s2 t2 k2] (_ & Hf2 & Hlen); world_norm_in Hf2; world_norm;
    [|lia].
  world_norm_in Hlen.
  apply wp_bind. eapply wp_mono; [|apply dispatch_loop_grows].
  cbn beta. intros [sent|e] [s3 t3 k3] H3; specialize (H3 _ Hlen);
    unfold grows in H3; world_norm_in H3; world_norm; [|lia].
  apply wp_bind. eapply wp_mono; [|apply post_process_grows].
  cbn beta. intros [[]|e] [s4 t4 k4] H4;
    unfold grows in H4; world_norm_in H4; world_norm; [|lia].
  apply wp_ret. world_norm. lia.
Qed.

(** Neither does a whole run of the script. *)
Lemma main_fallbacks (ui : Inputs) (w : World) :
  wp (main env ui) w
     (fun _ w' => api_fallbacks (session w) <= api_fallbacks (session w')).
Proof.
  destruct w as [s t k]. unfold main.
  apply wp_bind.
  apply (wp_mono _ _ (fun r w' =>
           exists t' k', w' = {| session := session w'; trace := t'; tick := k' |}
                         /\ api_fallbacks (session w') = api_fallbacks s)).
  2:{ unfold dashboard, inject_custom_css.
      safe_tac; world_norm; do 2 eexists; split; reflexivity. }
  intros [[]|e] [s1 t1 k1] (t' & k' & _ & Hf); world_norm_in Hf; world_norm;
    [|lia].
  apply wp_bind.
  apply (wp_mono _ _ (fun r w' => api_fallbacks s <= api_fallbacks (session w'))).
  2:{ destruct (uploaded_file ui) as [file|];
        [destruct (start_clicked ui)|]; try (apply wp_ret; world_norm; lia).
      eapply wp_mono; [|apply workflow_fallbacks].
      cbn beta. world_norm. intros; lia. }
  intros [[|]|e] [s2 t2 k2] H; world_norm_in H; world_norm; try lia;
    unfold render_logs; safe_tac; world_norm; lia.
Qed.


End Safety.

(* ===================================================================== *)
(** ** The gateway and the agents                                         *)
(* ===================================================================== *)

(** C1. The gateway always returns a string and never raises for a failure
    of the provider: without a credential it returns the fallback at once
    and leaves the world as it is (no request is made); with a credential,
    it returns the fallback when the provider is out of quota and when the
    provider fails in any other way. *)
Theorem gateway_total (env : Env) (prompt fallback : string)
        (json_format : bool) (w : World) :
  (exists text,
      fst (call_gemini_with_fallback env prompt fallback json_format w)
      = Ok text) /\
  (Py.truthy (credential env w) = false ->
   call_gemini_with_fallback env prompt fallback json_format w
   = (Ok fallback, w)) /\
  (Py.truthy (credential env w) = true ->
   generate env (tick w) (model_of json_format) (mime_of json_format) prompt
   = ResourceExhausted ->
   fst (call_gemini_with_fallback env prompt fallback json_format w)
   = Ok fallback) /\
  (Py.truthy (credential env w) = true ->
   forall msg,
     generate env (tick w) (model_of json_format) (mime_of json_format) prompt
     = ProviderFailure msg ->
     fst (call_gemini_with_fallback env prompt fallback json_format w)
     = Ok fallback).
Proof.
  rewrite call_gemini_run.
  destruct (Py.truthy (credential env w)) eqn:Ec.
  - split; [destruct (generate env (tick w) _ _ prompt); eexists; reflexivity|].
    split; [discriminate|].
    split; [intros _ ->; reflexivity|intros _ msg ->; reflexivity].
  - split; [eexists; reflexivity|]. split; [reflexivity|]. split; discriminate.
Qed.

Lemma gateway_total_witness :
  call_gemini_with_fallback offline "prompt" "fallback" false (start None 0)
  = (Ok "fallback", start None 0)
  /\ fst (call_gemini_with_fallback exhausted "prompt" "fallback" true
                                     (start None 0))
     = Ok "fallback"
  /\ fst (call_gemini_with_fallback unreadable "prompt" "fallback" true
                                     (start (Some defaults) 7))
     = Ok "[]".
Proof.
  split; [|split].
  - apply (proj1 (proj2 (gateway_total offline "prompt" "fallback" false
                                       (start None 0)))).
    reflexivity.
  - apply (proj1 (proj2 (proj2 (gateway_total exhausted "prompt" "fallback"
                                              true (start None 0)))));
      reflexivity.
  - reflexivity.
Defined.

(** C2, counterexample.  With a credential and a provider out of quota, a
    whole run takes the fallback six times (resume, discovery, three cover
    letters, interview guide), each with its warning, and ends with
    [api_fallbacks] at three. *)
Lemma quota_fallbacks_uncounted :
  let w' := snd (main exhausted operator (start None 0)) in
  List.length (filter is_quota_warning (trace w')) = 6
  /\ api_fallbacks (session w') = 3.
Proof. vm_compute. split; reflexivity. Qed.

(** C2, as amended.  When a request of the gateway meets quota exhaustion,
    the gateway returns the fallback, shows a warning and leaves the
    session state, [api_fallbacks] included, as it is: the gateway counts
    nothing.  The counter is incremented by the dispatch loop, for a cover
    letter that carries the two markers of the fallback template; so an
    iteration whose cover letter the provider refuses for quota adds
    exactly one. *)
Theorem quota_fallback_signal (env : Env) :
  (forall prompt fallback json_format w,
      Py.truthy (credential env w) = true ->
      generate env (tick w) (model_of json_format) (mime_of json_format) prompt
      = ResourceExhausted ->
      call_gemini_with_fallback env prompt fallback json_format w
      = (Ok fallback,
         asked env w json_format prompt
               [St "warning"
                   "Gemini API Quota Exceeded (429). Using Fallback Template Engine."])
      /\ session (snd (call_gemini_with_fallback env prompt fallback
                                                 json_format w))
         = session w) /\
  (forall company_name job_title role skills3,
      marked (cover_letter_fallback env company_name job_title role skills3)
      = true) /\
  (forall ui candidate_info mock_jobs index job w,
      profile_ok candidate_info = true ->
      opportunity_ok job = true ->
      (exists n, Dyn.len mock_jobs = Ok n) ->
      (forall t p, generate env t (model_of false) (mime_of false) p
                   = ResourceExhausted) ->
      api_fallbacks
        (session (snd (dispatch_job env ui candidate_info mock_jobs index job w)))
      = api_fallbacks (session w) + 1).
Proof.
  split; [|split].
  - intros prompt fallback jf w Hc Hg.
    rewrite call_gemini_run, Hc, Hg. split; reflexivity.
  - apply fallback_marked.
  - intros ui c mock index job w Hp Hj Hn Hq.
    pose proof (dispatch_job_spec env ui c mock index job w Hp Hj Hn) as H.
    unfold wp in H.
    destruct H as (success & _ & _ & _ & letter & new & _ & Hf & Hl & _).
    rewrite Hf. destruct Hl as [->|(t & p & Hg)]; [reflexivity|].
    rewrite Hq in Hg. discriminate.
Qed.

Lemma quota_fallback_signal_witness :
  api_fallbacks
    (session (snd (dispatch_job exhausted operator resume_fallback
                                (JArr [sandbox_job]) 0 sandbox_job
                                (start None 0))))
  = api_fallbacks (session (start None 0)) + 1.
Proof.
  apply (proj2 (proj2 (quota_fallback_signal exhausted))).
  - reflexivity.
  - reflexivity.
  - exists 1. reflexivity.
  - reflexivity.
Defined.






(* ===================================================================== *)
(** ** The metrics and the dispatch loop                                  *)
(* ===================================================================== *)

Lemma iter_len (v : json) (items : list json) (n : nat) :
  Dyn.iter v = Ok items -> Dyn.len v = Ok n -> List.length items = n.
Proof.
  destruct v; try discriminate; cbn; intros E H;
    inversion E; inversion H; subst; rewrite ?length_map; auto.
  clear. induction s; simpl; congruence.
Qed.

(** C5, counterexample.  The counters are not reset when a workflow starts:
    after a second run in the same browser session, offline, three jobs are
    identified and six dispatches are counted. *)
Lemma dispatches_exceed_jobs :
  let w1 := snd (main offline operator (start None 0)) in
  let w2 := snd (main offline operator (start (Some (session w1)) (tick w1))) in
  jobs_identified (session w2) = 3
  /\ successful_dispatches (session w2) = 6
  /\ ~ successful_dispatches (session w2) <= jobs_identified (session w2).
Proof.
  vm_compute. repeat split. intros H.
  repeat match goal with H : S _ <= _ |- _ => apply le_S_n in H end.
  inversion H.
Qed.

(** C5, as amended.  No run of the script decreases [api_fallbacks].  Once
    discovery has returned, [jobs_identified] is the number of
    opportunities found, and it stays so; at the end of every iteration of
    the dispatch loop, and after the interview guide, the run has added at
    most [jobs_identified] to the value [successful_dispatches] had when it
    started, so that a run started with no dispatch counted never shows
    more dispatches than jobs; and [api_fallbacks] has not decreased. *)
Theorem metrics_invariant (env : Env) (ui : Inputs) (candidate_info : json)
        (w1 : World) (mock_jobs : json) (w2 : World) :
  discover env ui candidate_info w1 = (Ok mock_jobs, w2) ->
  (forall ui' w,
      api_fallbacks (session w)
      <= api_fallbacks (session (snd (main env ui' w)))) /\
  Dyn.len mock_jobs = Ok (jobs_identified (session w2)) /\
  successful_dispatches (session w2) = successful_dispatches (session w1) /\
  api_fallbacks (session w1) <= api_fallbacks (session w2) /\
  (forall items k,
      Dyn.iter mock_jobs = Ok items ->
      let wk := snd (for_enumerate
                       (dispatch_job env ui candidate_info mock_jobs) 0
                       (firstn k items) w2) in
      grows (jobs_identified (session w2)) w2 wk /\
      (successful_dispatches (session w1) = 0 ->
       successful_dispatches (session wk) <= jobs_identified (session wk))) /\
  (let w4 := snd ((dispatch_loop env ui candidate_info mock_jobs ;;
                   post_process env candidate_info) w2) in
   grows (jobs_identified (session w2)) w2 w4 /\
   (successful_dispatches (session w1) = 0 ->
    successful_dispatches (session w4) <= jobs_identified (session w4))).
Proof.
  intros E.
  pose proof (discover_spec env ui candidate_info w1) as Hd.
  unfold wp in Hd. rewrite E in Hd. cbn [fst snd] in Hd.
  destruct Hd as (Hs & Hf & Hlen).
  split; [intros ui' w; apply (main_fallbacks env ui' w)|].
  split; [exact Hlen|]. split; [exact Hs|]. split; [exact Hf|].
  split.
  - intros items k Hit wk.
    assert (G : grows (jobs_identified (session w2)) w2 wk).
    { eapply grows_weaken;
        [|apply (for_enumerate_grows env ui candidate_info mock_jobs
                                     (firstn k items) 0 w2)].
      rewrite length_firstn, (iter_len _ _ _ Hit Hlen). lia. }
    split; [exact G|]. intros H0. unfold grows in G. lia.
  - intros w4.
    pose proof (after_discovery_grows env ui candidate_info mock_jobs w2 Hlen)
      as G.
    unfold wp in G. fold w4 in G.
    split; [exact G|]. intros H0. unfold grows in G. lia.
Qed.

Lemma metrics_invariant_witness :
  let w2 := snd (discover offline operator resume_fallback (start None 0)) in
  Dyn.len (jobs_fallback offline (JStr "Software Engineer"))
  = Ok (jobs_identified (session w2)).
Proof.
  apply (metrics_invariant offline operator resume_fallback (start None 0)
                           (jobs_fallback offline (JStr "Software Engineer"))).
  vm_compute. reflexivity.
Defined.

(** C6.  For a candidate profile and opportunities, the dispatch loop runs
    to its end without raising, whatever the transport does: it ends one
    iteration per opportunity, shows their banners once each in the order
    of discovery, and adds to [successful_dispatches] exactly the number of
    iterations that ended as sent.  An iteration on a sandbox address ends
    as sent; one on a real address ends as sent when its SMTP session
    delivers; so when every SMTP session fails the loop still completes and
    the sent iterations are those of the sandbox addresses. *)
Theorem dispatch_loop_processes_all (env : Env) (ui : Inputs)
        (candidate_info : json) (jobs : list json) (w : World) :
  profile_ok candidate_info = true ->
  forallb opportunity_ok jobs = true ->
  exists sent w' new,
    dispatch_loop env ui candidate_info (JArr jobs) w = (Ok sent, w')
    /\ List.length sent = List.length jobs
    /\ Forall2 (outcome_of env ui) jobs sent
    /\ trace w' = (trace w ++ new)%list
    /\ filter is_spinner new = banners env 0 jobs
    /\ successful_dispatches (session w')
       = successful_dispatches (session w) + sent_count sent
    /\ ((forall t msg password, smtp_session env t msg password <> Delivered) ->
        sent = map sandbox jobs).
Proof.
  intros Hp Hj.
  assert (Hn : exists n, Dyn.len (JArr jobs) = Ok n) by (eexists; reflexivity).
  pose proof (dispatch_jobs_spec env ui candidate_info (JArr jobs) jobs Hp Hj Hn 0
                {| session := session w;
                   trace := ((trace w ++ [St "markdown"
                                             "#### Dispatching Applications"])
                             ++ [St "empty" ""])%list;
                   tick := tick w |}) as H.
  unfold wp in H.
  destruct H as (sent & new & Hr & Hall & Ht & Hs & _ & Hd & _).
  cbn [session trace] in Ht, Hd.
  exists sent. eexists.
  exists (St "markdown" "#### Dispatching Applications" :: St "empty" "" :: new).
  split.
  { unfold dispatch_loop, bind, emit, lift.
    cbn [Dyn.iter session trace tick].
    match goal with |- ?m = _ => rewrite (surjective_pairing m) end.
    rewrite Hr. reflexivity. }
  split; [symmetry; eapply Forall2_length; exact Hall|].
  split; [exact Hall|].
  split; [rewrite Ht, <- !app_assoc; reflexivity|].
  split; [exact Hs|].
  split; [exact Hd|].
  intros Hfail. clear - Hall Hfail.
  induction Hall as [|job b jobs sent Hb _ IH]; [reflexivity|].
  cbn [map]. f_equal; [|exact IH].
  unfold outcome_of in Hb. destruct (sandbox job); [exact Hb|].
  destruct Hb as (t & msg & _ & ->).
  specialize (Hfail t msg (app_password ui)).
  destruct (smtp_session env t msg (app_password ui)); auto. congruence.
Qed.

Lemma dispatch_loop_processes_all_witness :
  exists sent w' new,
    dispatch_loop exhausted operator resume_fallback
                  (JArr [sandbox_job; real_job; sandbox_job]) (start None 0)
    = (Ok sent, w')
    /\ List.length sent = 3
    /\ Forall2 (outcome_of exhausted operator)
               [sandbox_job; real_job; sandbox_job] sent
    /\ trace w' = (trace (start None 0) ++ new)%list
    /\ filter is_spinner new
       = banners exhausted 0 [sandbox_job; real_job; sandbox_job]
    /\ successful_dispatches (session w')
       = successful_dispatches (session (start None 0)) + sent_count sent
    /\ ((forall t msg password,
            smtp_session exhausted t msg password <> Delivered) ->
        sent = map sandbox [sandbox_job; real_job; sandbox_job]).
Proof.
  apply (dispatch_loop_processes_all exhausted operator resume_fallback
           [sandbox_job; real_job; sandbox_job] (start None 0));
    reflexivity.
Defined.

(** C7.  In an iteration on an opportunity whose address is a sandbox
    address, the only delay is the simulated one of 3 and no SMTP session
    is opened; on a real address the only delay is the one of 20, and it
    comes before the SMTP session to that address. *)
Theorem delay_by_address (env : Env) (ui : Inputs)
        (candidate_info mock_jobs : json) (index : nat) (job : json)
        (w : World) :
  profile_ok candidate_info = true ->
  opportunity_ok job = true ->
  (exists n, Dyn.len mock_jobs = Ok n) ->
  exists success w' new,
    dispatch_job env ui candidate_info mock_jobs index job w = (Ok success, w')
    /\ trace w' = (trace w ++ new)%list
    /\ if sandbox job
       then filter is_delivery new = [Sleep 3]
       else exists msg,
           msg_to msg = recipient_of job /\
           filter is_delivery new = [Sleep 20; SmtpSession msg (app_password ui)].
Proof.
  intros Hp Hj Hn.
  pose proof (dispatch_job_spec env ui candidate_info mock_jobs index job w
                                Hp Hj Hn) as H.
  unfold wp in H.
  destruct H as (success & Hr & _ & _ & letter & new & Ht & _ & _ & _ & Hout).
  exists success. eexists. exists new.
  split; [apply injective_projections; [exact Hr|reflexivity]|].
  split; [exact Ht|].
  destruct (sandbox job).
  - exact (proj2 Hout).
  - destruct Hout as (t & msg & Hto & _ & Hd & _). eauto.
Qed.

Lemma delay_by_address_witness :
  (exists success w' new,
      dispatch_job exhausted operator resume_fallback
                   (JArr [sandbox_job; real_job]) 0 sandbox_job (start None 0)
      = (Ok success, w')
      /\ trace w' = (trace (start None 0) ++ new)%list
      /\ filter is_delivery new = [Sleep 3])
  /\ (exists success w' new,
         dispatch_job exhausted operator resume_fallback
                      (JArr [sandbox_job; real_job]) 1 real_job (start None 0)
         = (Ok success, w')
         /\ trace w' = (trace (start None 0) ++ new)%list
         /\ exists msg,
             msg_to msg = JStr "hr@initech.com" /\
             filter is_delivery new
             = [Sleep 20; SmtpSession msg "app-password"]).
Proof.
  split.
  - apply (delay_by_address exhausted operator resume_fallback
             (JArr [sandbox_job; real_job]) 0 sandbox_job (start None 0));
      [reflexivity|reflexivity|exists 2; reflexivity].
  - apply (delay_by_address exhausted operator resume_fallback
             (JArr [sandbox_job; real_job]) 1 real_job (start None 0));
      [reflexivity|reflexivity|exists 2; reflexivity].
Defined.

(* ===================================================================== *)
(** ** The log                                                            *)
(* ===================================================================== *)

Lemma append_all_run (env : Env) (entries : list (string * bool * bool)) :
  forall w,
    fst (append_all env entries w) = Ok tt
    /\ logs (session (snd (append_all env entries w)))
       = (logs (session w) ++ entries_html env (tick w) entries)%list
    /\ trace (snd (append_all env entries w)) = trace w.
Proof.
  unfold append_all.
  induction entries as [|[[m e] f] entries IH]; intros w; cbn [map sequence].
  - cbn. rewrite app_nil_r. auto.
  - cbn [fst snd]. unfold bind. rewrite append_log_run. cbn beta iota.
    destruct (IH (logged env m e f w)) as (Hr & Hl & Ht).
    rewrite Hr, Hl, Ht, logged_logs, logged_tick, logged_trace, <- app_assoc.
    auto.
Qed.

Lemma entries_html_length (env : Env) (entries : list (string * bool * bool)) :
  forall t, List.length (entries_html env t entries) = List.length entries.
Proof. induction entries; intros t; simpl; auto. Qed.

Lemma last_n_spec {X} (n : nat) (l : list X) :
  List.length (last_n n l) = Nat.min n (List.length l)
  /\ l = (firstn (List.length l - n) l ++ last_n n l)%list.
Proof.
  unfold last_n. split.
  - rewrite length_skipn. lia.
  - symmetry. apply firstn_skipn.
Qed.

(** C8, counterexample.  A thousand messages appended to the empty log of
    a new run: the log holds a thousand entries, not fifty. *)
Lemma log_keeps_every_entry :
  List.length
    (logs (session (snd (append_all offline
                                    (repeat ("message", false, false) 1000)
                                    (start None 0)))))
  = 1000.
Proof. vm_compute. reflexivity. Qed.

(** C8, as amended.  Appending keeps every entry, in the order of the
    appends: the stored log grows by one entry per message and nothing is
    dropped from it.  What is bounded is the view: [render_logs] shows the
    last fifty entries of the log (all of them when there are fewer), in
    the order of the appends, and leaves the session state as it is. *)
Theorem log_view_bounded (env : Env) (entries : list (string * bool * bool))
        (w : World) :
  let w' := snd (append_all env entries w) in
  let shown := last_n 50 (logs (session w')) in
  logs (session w') = (logs (session w) ++ entries_html env (tick w) entries)%list
  /\ List.length (logs (session w'))
     = List.length (logs (session w)) + List.length entries
  /\ List.length shown = Nat.min 50 (List.length (logs (session w')))
  /\ logs (session w')
     = (firstn (List.length (logs (session w')) - 50) (logs (session w'))
        ++ shown)%list
  /\ session (snd (render_logs w')) = session w'
  /\ trace (snd (render_logs w'))
     = match logs (session w') with
       | [] => trace w'
       | _ => (trace w' ++ [St "markdown" (terminal_html (String.concat "" shown));
                            St "components.html" scroll_script])%list
       end.
Proof.
  intros w' shown.
  destruct (append_all_run env entries w) as (_ & Hl & _).
  fold w' in Hl.
  split; [exact Hl|].
  split; [rewrite Hl, length_app, entries_html_length; reflexivity|].
  split; [apply last_n_spec|].
  split; [apply last_n_spec|].
  unfold render_logs, bind, gets, emit, ret. cbn [fst snd].
  subst shown. destruct (logs (session w')); cbn [session trace fst snd].
  - auto.
  - rewrite <- app_assoc. auto.
Qed.

(* ===================================================================== *)
(** ** Extraction failure                                                 *)
(* ===================================================================== *)

Lemma extract_text_run (env : Env) (file : UploadedFile) (w : World) :
  exists new,
    extract_text_from_pdf env file w
    = (Ok (extracted env file),
       match read_text env file with
       | inl _ => w
       | inr _ => {| session := session w; trace := (trace w ++ new)%list;
                     tick := tick w |}
       end)
    /\ filter is_provider_call new = [] /\ filter is_delivery new = [].
Proof.
  unfold extract_text_from_pdf, extracted.
  destruct (read_text env file) as [text|e].
  - exists []. auto.
  - eexists. split; [reflexivity|]. split; reflexivity.
Qed.

(** C9.  Text extraction never raises: it returns the text read, or the
    empty string when the reader or a page fails, and leaves the session
    state as it is.  When the text is empty the workflow shows an error and
    returns at once: no request to the provider, no delay, no SMTP session,
    and the three counters, the parsed resume and the jobs of the session
    are what they were. *)
Theorem extraction_failure_aborts (env : Env) (ui : Inputs)
        (file : UploadedFile) (w : World) :
  (exists w0,
      extract_text_from_pdf env file w = (Ok (extracted env file), w0)
      /\ session w0 = session w) /\
  (forall e, read_text env file = inr e -> extracted env file = "") /\
  (Py.truthy (sender_email ui) = true ->
   Py.truthy (app_password ui) = true ->
   extracted env file = "" ->
   exists w' new,
     workflow env ui file w = (Ok Return, w')
     /\ trace w' = (trace w ++ new)%list
     /\ In (St "error" "Could not extract text. Check the PDF format.") new
     /\ filter is_provider_call new = []
     /\ filter is_delivery new = []
     /\ counters w' = counters w
     /\ parsed_resume (session w') = parsed_resume (session w)
     /\ mock_jobs (session w') = mock_jobs (session w)).
Proof.
  split; [|split].
  - destruct (extract_text_run env file w) as (new & E & _).
    eexists. split; [exact E|]. destruct (read_text env file); reflexivity.
  - intros e E. unfold extracted. rewrite E. reflexivity.
  - intros Hs Hp Hx. destruct w as [s t k].
    unfold workflow. rewrite Hs, Hp. cbn [negb orb].
    unfold bind at 1 2 3 4 5 6 7. unfold modify at 1 2 3. cbn [session trace tick].
    rewrite append_log_run. unfold emit at 1. rewrite append_log_run.
    match goal with |- context [extract_text_from_pdf env file ?w0] =>
      destruct (extract_text_run env file w0) as (new & E & Hn1 & Hn2);
      rewrite E
    end.
    rewrite Hx. cbn [Py.truthy negb].
    unfold bind, emit, ret. rewrite append_log_run.
    destruct (read_text env file);
      do 2 eexists; (split; [reflexivity|]);
      cbn [trace logged session tick]; rewrite <- ?app_assoc;
      (split; [reflexivity|]);
      (split; [apply in_or_app; right; cbn [app];
               rewrite ?in_app_iff; cbn [In]; auto|]);
      rewrite ?filter_app, ?Hn1, ?Hn2;
      repeat split; reflexivity.
Qed.

Lemma extraction_failure_aborts_witness :
  exists w' new,
    workflow unreadable operator resume_pdf (start None 0) = (Ok Return, w')
    /\ trace w' = (trace (start None 0) ++ new)%list
    /\ In (St "error" "Could not extract text. Check the PDF format.") new
    /\ filter is_provider_call new = []
    /\ filter is_delivery new = []
    /\ counters w' = counters (start None 0)
    /\ parsed_resume (session w') = parsed_resume (session (start None 0))
    /\ mock_jobs (session w') = mock_jobs (session (start None 0)).
Proof.
  apply (proj2 (proj2 (extraction_failure_aborts unreadable operator resume_pdf
                                                 (start None 0))));
    reflexivity.
Defined.

(* ===================================================================== *)
(** ** Sandbox addresses                                                  *)
(* ===================================================================== *)

(** C10.  An iteration on an opportunity whose address is the string [r]
    takes the sandbox path exactly when the word example occurs in [r]:
    then it waits 3, opens no SMTP session, ends as sent and adds one to
    [successful_dispatches]; otherwise it waits 20, opens an SMTP session
    to [r] and counts a dispatch only when that session delivers. *)
Theorem sandbox_by_substring (env : Env) (ui : Inputs)
        (candidate_info mock_jobs : json) (index : nat) (job : json)
        (r : string) (w : World) :
  profile_ok candidate_info = true ->
  (exists n, Dyn.len mock_jobs = Ok n) ->
  recipient_of job = JStr r ->
  exists success w' new,
    dispatch_job env ui candidate_info mock_jobs index job w = (Ok success, w')
    /\ trace w' = (trace w ++ new)%list
    /\ successful_dispatches (session w')
       = successful_dispatches (session w) + (if success then 1 else 0)
    /\ if Py.str_in "example" r
       then success = true /\ filter is_delivery new = [Sleep 3]
       else exists t msg,
           msg_to msg = JStr r /\
           filter is_delivery new = [Sleep 20; SmtpSession msg (app_password ui)] /\
           success = delivered (smtp_session env t msg (app_password ui)).
Proof.
  intros Hp Hn Hr.
  assert (Hj : opportunity_ok job = true).
  { destruct job; try discriminate. cbn in Hr |- *. rewrite Hr. reflexivity. }
  pose proof (dispatch_job_spec env ui candidate_info mock_jobs index job w
                                Hp Hj Hn) as H.
  unfold wp in H.
  destruct H as (success & Hres & _ & Hd & letter & new & Ht & _ & _ & _ & Hout).
  exists success. eexists. exists new.
  split; [apply injective_projections; [exact Hres|reflexivity]|].
  split; [exact Ht|]. split; [exact Hd|].
  unfold sandbox in Hout. rewrite Hr in Hout.
  destruct (Py.str_in "example" r); [exact Hout|].
  destruct Hout as (t & msg & Hto & _ & Hf & Hs). eauto.
Qed.

Lemma sandbox_by_substring_witness :
  exists success w' new,
    dispatch_job exhausted operator resume_fallback (JArr [sandbox_job]) 0
                 sandbox_job (start None 0)
    = (Ok success, w')
    /\ trace w' = (trace (start None 0) ++ new)%list
    /\ successful_dispatches (session w')
       = successful_dispatches (session (start None 0))
         + (if success then 1 else 0)
    /\ success = true /\ filter is_delivery new = [Sleep 3].
Proof.
  apply (sandbox_by_substring exhausted operator resume_fallback
           (JArr [sandbox_job]) 0 sandbox_job "jobs@example-corp.com"
           (start None 0));
    [reflexivity|exists 1; reflexivity|reflexivity].
Defined.

(* ===================================================================== *)
(** * Further properties                                                  *)
(* ===================================================================== *)

(** ** agents.py *)

(** X1.  [configure_genai] never raises.  A non-empty secret is the key it
    configures, whatever the session holds; when the secrets cannot be read
    or hold no key, a non-empty key of the session state is used; with
    neither it returns [False] and configures nothing. *)
Theorem configure_genai_precedence (env : Env) (w : World) :
  (forall k,
      secrets_key env = Some k -> Py.truthy k = true ->
      configure_genai env w
      = (Ok true, {| session := session w;
                     trace := (trace w ++ [Configure k])%list;
                     tick := tick w |})) /\
  (forall k,
      secrets_key env = None \/ secrets_key env = Some "" ->
      gemini_api_key (session w) = Some k -> Py.truthy k = true ->
      configure_genai env w
      = (Ok true, {| session := session w;
                     trace := (trace w ++ [Configure k])%list;
                     tick := tick w |})) /\
  (secrets_key env = None \/ secrets_key env = Some "" ->
   gemini_api_key (session w) = None \/ gemini_api_key (session w) = Some "" ->
   configure_genai env w = (Ok false, w)).
Proof.
  rewrite configure_genai_run. unfold credential.
  split; [|split].
  - intros k -> Hk. rewrite Hk, Hk. reflexivity.
  - intros k [->| ->] -> Hk; cbn [Py.truthy]; rewrite Hk; reflexivity.
  - intros [->| ->] [->| ->]; reflexivity.
Qed.

Lemma configure_genai_precedence_witness :
  configure_genai exhausted (start None 0)
  = (Ok true, {| session := session (start None 0);
                 trace := (trace (start None 0) ++ [Configure "key"])%list;
                 tick := tick (start None 0) |})
  /\ configure_genai offline (start None 0) = (Ok false, start None 0).
Proof.
  split.
  - apply (proj1 (configure_genai_precedence exhausted (start None 0)));
      reflexivity.
  - apply (proj2 (proj2 (configure_genai_precedence offline (start None 0))));
      left; reflexivity.
Defined.

Lemma strs_none (l : list json) :
  forallb (fun x => match x with JStr _ => true | _ => false end) l = false ->
  Dyn.strs l = None.
Proof.
  induction l as [|x l IH]; simpl; [discriminate|].
  destruct x; try reflexivity. intros H. rewrite (IH H). reflexivity.
Qed.

(** X2.  [cover_letter_agent] returns a letter for a profile: an object
    whose skills, when present, are a list of strings or a string.  A
    candidate that is not an object makes it raise [AttributeError]; skills
    that are a number, a boolean, null or a list holding something else
    than strings make it raise [TypeError]; in both cases before anything
    is asked of the provider, the world being left as it was. *)
Theorem cover_letter_agent_domain (env : Env)
        (candidate_info company_name job_title : json) (w : World) :
  (profile_ok candidate_info = true ->
   exists letter w',
     cover_letter_agent env candidate_info company_name job_title w
     = (Ok letter, w')
     /\ session w' = session w) /\
  (forall d,
      candidate_info = JObj d ->
      skills_ok (Json.get "skills" (JArr []) d) = false ->
      is_object (Json.get "skills" (JArr []) d) = false ->
      cover_letter_agent env candidate_info company_name job_title w
      = (Raise TypeError, w)) /\
  (is_object candidate_info = false ->
   cover_letter_agent env candidate_info company_name job_title w
   = (Raise AttributeError, w)).
Proof.
  split; [|split].
  - intros Hp. destruct w as [s t k].
    pose proof (wp_cover_letter env candidate_info company_name job_title s t k
                  (fun r w' => exists letter,
                       r = Ok letter /\ session w' = s) Hp) as H.
    unfold wp in H.
    destruct H as (letter & Hr & Hs); [intros; eexists; split; reflexivity|].
    exists letter. eexists. split; [|exact Hs].
    apply injective_projections; [exact Hr|reflexivity].
  - intros d -> Hs Ho. unfold cover_letter_agent, bind, lift. cbn [Dyn.get].
    destruct (Json.get "skills" (JArr []) d) as [| | |s0|l|m] eqn:E;
      try discriminate; try reflexivity.
    cbn in Hs. unfold Dyn.join. cbn [Dyn.iter].
    rewrite (strs_none _ Hs). reflexivity.
  - intros H. destruct candidate_info; try reflexivity. discriminate.
Qed.

Lemma cover_letter_agent_domain_witness :
  cover_letter_agent offline
    (JObj [("role", JStr "Engineer"); ("skills", JNull)])
    (JStr "Acme") (JStr "Engineer") (start None 0)
  = (Raise TypeError, start None 0)
  /\ cover_letter_agent offline (JArr []) (JStr "Acme") (JStr "Engineer")
                        (start None 0)
     = (Raise AttributeError, start None 0).
Proof.
  split.
  - apply (proj1 (proj2 (cover_letter_agent_domain offline
             (JObj [("role", JStr "Engineer"); ("skills", JNull)])
             (JStr "Acme") (JStr "Engineer") (start None 0)))
             [("role", JStr "Engineer"); ("skills", JNull)]);
      reflexivity.
  - apply (proj2 (proj2 (cover_letter_agent_domain offline (JArr [])
             (JStr "Acme") (JStr "Engineer") (start None 0)))).
    reflexivity.
Defined.

(** X3.  Without a credential the letter is the template, and of a list of
    skills it names the first three only, the role being whatever the
    profile holds under that key ([None] when it holds none). *)
Theorem offline_letter_first_three (env : Env) (d : list (string * json))
        (skills : list string) (company_name job_title : json) (w : World) :
  Py.truthy (credential env w) = false ->
  Json.get "skills" (JArr []) d = JArr (map JStr skills) ->
  cover_letter_agent env (JObj d) company_name job_title w
  = (Ok (cover_letter_fallback env company_name job_title
                               (Json.get "role" JNull d)
                               (Py.join ", " (firstn 3 skills))), w).
Proof.
  intros Hc Hs.
  unfold cover_letter_agent, bind, lift. cbn [Dyn.get]. rewrite Hs.
  unfold Dyn.join, Dyn.slice. cbn [Dyn.iter].
  rewrite strs_map_JStr. cbn [Dyn.iter].
  rewrite firstn_map, strs_map_JStr.
  rewrite call_gemini_run, Hc. reflexivity.
Qed.

Lemma offline_letter_first_three_witness :
  cover_letter_agent offline
    (JObj [("skills", JArr (map JStr ["a"; "b"; "c"; "d"; "e"]))])
    (JStr "Acme") (JStr "Engineer") (start None 0)
  = (Ok (cover_letter_fallback offline (JStr "Acme") (JStr "Engineer") JNull
                               "a, b, c"),
     start None 0).
Proof.
  apply (offline_letter_first_three offline
           [("skills", JArr (map JStr ["a"; "b"; "c"; "d"; "e"]))]
           ["a"; "b"; "c"; "d"; "e"]);
    reflexivity.
Defined.


Lemma requests_app (l1 l2 : list event) :
  requests (l1 ++ l2) = (requests l1 ++ requests l2)%list.
Proof.
  induction l1 as [|e l1 IH]; [reflexivity|].
  destruct e; cbn [app requests]; rewrite ?IH; reflexivity.
Qed.

Lemma call_gemini_requests (env : Env) (prompt fallback : string)
      (json_format : bool) (w : World) :
  requests (trace (snd (call_gemini_with_fallback env prompt fallback
                                                  json_format w)))
  = (requests (trace w) ++ request_of env w json_format)%list.
Proof.
  rewrite call_gemini_run. unfold request_of.
  destruct (Py.truthy (credential env w)).
  - destruct (generate env (tick w) _ _ prompt); cbn [snd asked trace];
      rewrite requests_app; reflexivity.
  - cbn [snd]. rewrite app_nil_r. reflexivity.
Qed.

Lemma decode_or_fallback_world (env : Env) (response fallback_json : string)
      (w : World) :
  snd (decode_or_fallback env response fallback_json w) = w.
Proof.
  unfold decode_or_fallback, json_loads.
  destruct (decode env response); try reflexivity.
  destruct (decode env fallback_json); reflexivity.
Qed.

Lemma cover_letter_gateway (env : Env) (candidate_info company_name job_title : json) :
  profile_ok candidate_info = true ->
  exists prompt fallback,
    forall w,
      cover_letter_agent env candidate_info company_name job_title w
      = call_gemini_with_fallback env prompt fallback false w.
Proof.
  intros Hp.
  destruct candidate_info as [| | | | |d]; try discriminate.
  cbn in Hp.
  destruct (join_ok ", " _ Hp) as [joined Hj].
  destruct (slice_ok 3 _ Hp) as (first3 & Hs & Hp3).
  destruct (join_ok ", " _ Hp3) as [joined3 Hj3].
  do 2 eexists. intros w.
  unfold cover_letter_agent, bind, lift. cbn [Dyn.get].
  rewrite Hj, Hs, Hj3. reflexivity.
Qed.

(** X5.  Each agent asks the provider at most once, and exactly once when
    there is a credential.  The two agents that expect JSON, for the
    resume and for discovery, ask the model gemini-1.5-flash for the
    response type application/json; the agents that write a cover letter
    and an interview guide ask gemini-1.5-pro and name no response type. *)
Theorem agents_requests (env : Env) (w : World) :
  (forall resume_text,
      requests (trace (snd (parse_resume_agent env resume_text w)))
      = (requests (trace w)
         ++ if Py.truthy (credential env w)
            then [("gemini-1.5-flash", Some "application/json")] else [])%list) /\
  (forall role location,
      requests (trace (snd (job_discovery_agent env role location w)))
      = (requests (trace w)
         ++ if Py.truthy (credential env w)
            then [("gemini-1.5-flash", Some "application/json")] else [])%list) /\
  (forall role,
      requests (trace (snd (interview_prep_agent env role w)))
      = (requests (trace w)
         ++ if Py.truthy (credential env w)
            then [("gemini-1.5-pro", None)] else [])%list) /\
  (forall candidate_info company_name job_title,
      profile_ok candidate_info = true ->
      requests (trace (snd (cover_letter_agent env candidate_info company_name
                                               job_title w)))
      = (requests (trace w)
         ++ if Py.truthy (credential env w)
            then [("gemini-1.5-pro", None)] else [])%list).
Proof.
  split; [|split; [|split]].
  - intros resume_text. unfold parse_resume_agent, bind.
    pose proof (call_gemini_requests env (parse_resume_prompt resume_text)
                  (Json.dumps resume_fallback) true w) as H.
    destruct (call_gemini_with_fallback env _ _ true w) as [[r|e] w1];
      cbn [snd] in *; rewrite ?decode_or_fallback_world; exact H.
  - intros role location. unfold job_discovery_agent, bind.
    pose proof (call_gemini_requests env (job_discovery_prompt env role location)
                  (Json.dumps (jobs_fallback env role)) true w) as H.
    destruct (call_gemini_with_fallback env _ _ true w) as [[r|e] w1];
      cbn [snd] in *; rewrite ?decode_or_fallback_world; exact H.
  - intros role. unfold interview_prep_agent.
    apply (call_gemini_requests env _ _ false w).
  - intros candidate_info company_name job_title Hp.
    destruct (cover_letter_gateway env candidate_info company_name job_title Hp)
      as (prompt & fallback & ->).
    apply (call_gemini_requests env _ _ false w).
Qed.

Lemma agents_requests_witness :
  requests (trace (snd (cover_letter_agent terse
                          (JObj [("skills", JStr "python")])
                          (JStr "Acme") (JStr "Engineer") (start None 0))))
  = [("gemini-1.5-pro", None)].
Proof.
  apply (proj2 (proj2 (proj2 (agents_requests terse (start None 0))))
           (JObj [("skills", JStr "python")]) (JStr "Acme") (JStr "Engineer")).
  reflexivity.
Defined.

(** ** utils.py *)

Lemma concat_cons (x : string) (l : list string) :
  String.concat "" (x :: l) = x ++ String.concat "" l.
Proof.
  destruct l; cbn [String.concat];
    [rewrite PyFacts.app_empty_r|]; reflexivity.
Qed.

Lemma extract_pages_text (texts : list string) :
  forall acc,
    extract_pages (map PageText texts) acc = inl (acc ++ pages_text texts).
Proof.
  unfold pages_text.
  induction texts as [|t texts IH]; intros acc; cbn [map extract_pages filter].
  - cbn. rewrite PyFacts.app_empty_r. reflexivity.
  - rewrite IH. destruct (Py.truthy t); [|reflexivity].
    cbn [map]. rewrite concat_cons, !PyFacts.append_assoc. reflexivity.
Qed.

(** X6.  When every page can be read, the text extracted is the text of
    the pages that have some, in the order of the pages, a newline after
    each; pages without text leave no trace, nothing is shown, and the
    world is left as it was. *)
Theorem extract_text_of_pages (env : Env) (file : UploadedFile)
        (texts : list string) (w : World) :
  read_pdf env file = PdfPages (map PageText texts) ->
  extract_text_from_pdf env file w = (Ok (pages_text texts), w).
Proof.
  intros H. unfold extract_text_from_pdf, read_text.
  rewrite H, extract_pages_text. reflexivity.
Qed.

Lemma extract_text_of_pages_witness :
  extract_text_from_pdf offline resume_pdf (start None 0)
  = (Ok (pages_text ["Jane Doe, data scientist"]), start None 0).
Proof.
  apply (extract_text_of_pages offline resume_pdf
                               ["Jane Doe, data scientist"]).
  reflexivity.
Defined.

Lemma extract_pages_failure (texts : list string) (msg : string)
      (rest : list PageOutcome) :
  forall acc,
    extract_pages (map PageText texts ++ PageFailure msg :: rest)%list acc
    = inr msg.
Proof.
  induction texts as [|t texts IH]; intros acc; cbn [map app extract_pages].
  - reflexivity.
  - apply IH.
Qed.

(** X7.  A page that cannot be read spoils the whole document: the text of
    the pages before it is dropped, the result is the empty string, and the
    only thing shown is the message of that page. *)
Theorem extract_text_page_failure (env : Env) (file : UploadedFile)
        (texts : list string) (msg : string) (rest : list PageOutcome)
        (w : World) :
  read_pdf env file
  = PdfPages (map PageText texts ++ PageFailure msg :: rest)%list ->
  extract_text_from_pdf env file w
  = (Ok "", {| session := session w;
               trace := (trace w ++ [St "error" ("Error parsing PDF: " ++ msg)])%list;
               tick := tick w |}).
Proof.
  intros H. unfold extract_text_from_pdf, read_text.
  rewrite H, extract_pages_failure. reflexivity.
Qed.

Lemma extract_text_page_failure_witness :
  extract_text_from_pdf torn resume_pdf (start None 0)
  = (Ok "", {| session := session (start None 0);
               trace := (trace (start None 0)
                         ++ [St "error" ("Error parsing PDF: " ++ "bad xref")])%list;
               tick := tick (start None 0) |}).
Proof.
  apply (extract_text_page_failure torn resume_pdf ["Jane Doe"] "bad xref"
                                   [PageText "data scientist"]).
  reflexivity.
Defined.

(** X8.  [send_email_with_attachment] never raises and keeps the session
    state.  It waits twenty seconds, then opens one SMTP session for the
    message, which carries the attachment exactly when its bytes are not
    empty; it returns [True] exactly when that session delivers, and shows
    one error otherwise, for a refused login as for any other failure. *)
Theorem send_email_outcome (env : Env) (sender_email app_password : string)
        (recipient_email : json) (subject body : string)
        (attachment_bytes filename : option string) (w : World) :
  let msg := message sender_email recipient_email subject body
                     attachment_bytes filename in
  let outcome := smtp_session env (tick w) msg app_password in
  exists shown,
    send_email_with_attachment env sender_email app_password recipient_email
                               subject body attachment_bytes filename w
    = (Ok (delivered outcome),
       {| session := session w;
          trace := (trace w
                    ++ St "info" ("Rate limiting: Waiting 20 seconds before dispatching email to "
                                  ++ str env recipient_email ++ "...")
                    :: Sleep 20 :: SmtpSession msg app_password :: shown)%list;
          tick := S (tick w) |})
    /\ shown = match outcome with
               | Delivered => []
               | SMTPAuthenticationError =>
                   [St "error"
                       "SMTP Authentication Error: Please verify your Email and App Password."]
               | SmtpFailure e => [St "error" ("Failed to send email: " ++ e)]
               end.
Proof.
  intros msg outcome. eexists. split; [|reflexivity].
  unfold send_email_with_attachment.
  fold (message sender_email recipient_email subject body attachment_bytes
                filename). fold msg.
  unfold bind, emit, next_tick, ret. cbn [fst snd session trace tick].
  fold outcome. destruct outcome; cbn [delivered session trace tick];
    rewrite <- ?app_assoc; reflexivity.
Qed.

(** ** app.py: the dashboard and the runs that start no workflow *)

Ltac run_case :=
  cbn beta iota;
  lazymatch goal with
  | |- wp (if ?b then _ else _) _ _ => destruct b eqn:?
  | |- wp (match ?x with _ => _ end) _ _ => destruct x eqn:?
  | |- match ?x with Ok _ => _ | Raise _ => _ end => destruct x eqn:?
  end.

Ltac run_frame :=
  cbn beta iota;
  lazymatch goal with
  | |- wp (cover_letter_agent _ _ _ _) _ _ => apply cover_letter_frame
  | |- wp (send_email_with_attachment _ _ _ _ _ _ _ _) _ _ =>
      apply send_email_frame
  | |- wp (parse_resume_agent _ _) _ _ => apply parse_resume_frame
  | |- wp (job_discovery_agent _ _ _) _ _ => apply job_discovery_frame
  | |- wp (interview_prep_agent _ _) _ _ => apply interview_prep_frame
  | |- wp (extract_text_from_pdf _ _) _ _ => apply extract_text_frame
  end; intros.

Ltac run_tac := repeat first [ wp_step | run_frame | run_case ].

(** What the top of the page does: it shows things, and of the session
    state it touches the key of the sidebar and the stored document
    only. *)
Lemma wp_dashboard (env : Env) (ui : Inputs) (s : Session) (t : list event)
      (k : nat) (Q : res unit -> World -> Prop) :
  (forall s' new,
      forallb is_st new = true ->
      logs s' = logs s ->
      (jobs_identified s', successful_dispatches s', api_fallbacks s')
      = (jobs_identified s, successful_dispatches s, api_fallbacks s) ->
      workflow_completed s' = workflow_completed s ->
      interview_questions s' = interview_questions s ->
      Q (Ok tt) {| session := s'; trace := (t ++ new)%list; tick := k |}) ->
  wp (dashboard env ui) {| session := s; trace := t; tick := k |} Q.
Proof.
  intros H. unfold dashboard, inject_custom_css.
  run_tac; rewrite <- !app_assoc; apply H; reflexivity.
Qed.

(** X9.  The stored document is keyed by its file name.  An upload whose
    name is the one stored changes nothing: the bytes kept are those of the
    earlier upload, whatever the new file holds.  An upload under another
    name replaces bytes and name, forgets the parsed resume and marks the
    workflow as not started. *)
Theorem upload_keyed_by_name (env : Env) (ui : Inputs) (file : UploadedFile)
        (w : World) :
  uploaded_file ui = Some file ->
  wp (dashboard env ui) w
     (fun r w' =>
        r = Ok tt /\
        (pdf_filename (session w) = Some (uf_name file) ->
         pdf_bytes (session w') = pdf_bytes (session w) /\
         pdf_filename (session w') = pdf_filename (session w) /\
         parsed_resume (session w') = parsed_resume (session w) /\
         workflow_started (session w') = workflow_started (session w)) /\
        (pdf_filename (session w) <> Some (uf_name file) ->
         pdf_bytes (session w') = Some (uf_bytes file) /\
         pdf_filename (session w') = Some (uf_name file) /\
         parsed_resume (session w') = None /\
         workflow_started (session w') = false)).
Proof.
  intros Hf. destruct w as [s t k].
  unfold dashboard, inject_custom_css. rewrite Hf.
  run_tac; world_norm;
    (split; [reflexivity|]);
    repeat match goal with
           | H : String.eqb _ _ = true |- _ => apply String.eqb_eq in H
           | H : String.eqb _ _ = false |- _ => apply String.eqb_neq in H
           end;
    split; intros Hn; repeat split; congruence.
Qed.

Lemma upload_keyed_by_name_witness :
  wp (dashboard offline operator) (start None 0)
     (fun r w' =>
        r = Ok tt /\
        (pdf_filename (session (start None 0)) = Some (uf_name resume_pdf) ->
         pdf_bytes (session w') = pdf_bytes (session (start None 0)) /\
         pdf_filename (session w') = pdf_filename (session (start None 0)) /\
         parsed_resume (session w') = parsed_resume (session (start None 0)) /\
         workflow_started (session w')
         = workflow_started (session (start None 0))) /\
        (pdf_filename (session (start None 0)) <> Some (uf_name resume_pdf) ->
         pdf_bytes (session w') = Some (uf_bytes resume_pdf) /\
         pdf_filename (session w') = Some (uf_name resume_pdf) /\
         parsed_resume (session w') = None /\
         workflow_started (session w') = false)).
Proof.
  apply (upload_keyed_by_name offline operator resume_pdf (start None 0)).
  reflexivity.
Defined.

(** X10.  A key typed in the sidebar never overrides a secret: with a
    non-empty secret the key of the session is left alone and the secret is
    the credential.  Without one, a key typed in this run becomes the
    credential, and when the field is empty the credential is the one of
    the earlier runs. *)
Theorem sidebar_key_precedence (env : Env) (ui : Inputs) (w : World) :
  wp (dashboard env ui) w
     (fun r w' =>
        (forall k,
            secrets_key env = Some k -> Py.truthy k = true ->
            credential env w' = k
            /\ gemini_api_key (session w') = gemini_api_key (session w)) /\
        (secrets_key env = None \/ secrets_key env = Some "" ->
         Py.truthy (api_key_input ui) = true ->
         credential env w' = api_key_input ui) /\
        (secrets_key env = None \/ secrets_key env = Some "" ->
         Py.truthy (api_key_input ui) = false ->
         credential env w' = credential env w)).
Proof.
  destruct w as [s t k].
  unfold dashboard, inject_custom_css, credential.
  run_tac; world_norm;
    (split; [intros k0 Hk Ht|split; [intros Hk Ht|intros Hk Ht]]);
    try (destruct Hk as [Hk|Hk]);
    rewrite Hk in *; cbn [Py.truthy negb andb] in *;
    rewrite ?Ht in *; cbn [negb andb] in *; try discriminate;
    auto.
Qed.

Lemma sidebar_key_precedence_witness :
  credential offline (snd (dashboard offline idle (start None 0)))
  = "typed-key".
Proof.
  apply (proj1 (proj2 (sidebar_key_precedence offline idle (start None 0))));
    [left|]; reflexivity.
Defined.

Ltac in_tac :=
  repeat first [ left; reflexivity | right | apply in_or_app; right ].

(** X11.  A run in which the button is not pressed asks nothing of the
    provider, the mail server or the clock, and keeps the counters and the
    log.  It shows again what the session holds: the interview guide when
    the last workflow completed, and the last fifty entries of the log when
    there are any. *)
Theorem idle_run_shows_results (env : Env) (ui : Inputs) (w : World) :
  start_clicked ui = false \/ uploaded_file ui = None ->
  wp (main env ui) w
     (fun r w' =>
        r = Ok tt /\ tick w' = tick w /\ counters w' = counters w /\
        logs (session w') = logs (session w) /\
        exists new,
          trace w' = (trace w ++ new)%list /\
          forallb is_st new = true /\
          (forall q,
              workflow_completed (session w) = true ->
              interview_questions (session w) = Some q ->
              In (St "info" q) new) /\
          (logs (session w) <> [] ->
           In (St "markdown"
                  (terminal_html
                     (String.concat "" (last_n 50 (logs (session w))))))
              new)).
Proof.
  intros Hidle. destruct w as [s t k]. unfold main, counters.
  apply wp_bind. apply wp_dashboard.
  intros s' new Hnew Hl Hc Hwc Hq. cbn beta iota. world_norm.
  apply wp_bind.
  apply (wp_run _ _ _ (Ok Proceed)
                {| session := s'; trace := (t ++ new)%list; tick := k |}).
  { destruct Hidle as [-> | ->]; [destruct (uploaded_file ui)|]; reflexivity. }
  cbn beta iota. unfold render_logs.
  run_tac; world_norm;
    (split; [reflexivity|]); (split; [reflexivity|]); (split; [exact Hc|]);
    (split; [congruence|]);
    eexists; (split; [rewrite <- ?app_assoc; reflexivity|]);
    (split; [rewrite ?forallb_app, Hnew; reflexivity|]);
    (split;
     [ intros q Hw Hi; first [congruence | rewrite Hq, Hi; in_tac]
     | intros Hne; first [congruence | rewrite <- Hl; in_tac] ]).
Qed.

Lemma idle_run_shows_results_witness :
  fst (main offline idle (start None 0)) = Ok tt
  /\ logs (session (snd (main offline idle (start None 0)))) = [].
Proof.
  pose proof (idle_run_shows_results offline idle (start None 0)
                                     (or_introl eq_refl)) as H.
  unfold wp in H. split; [apply H|apply (proj2 (proj2 (proj2 H)))].
Defined.

(** X12.  Pressing the button without a sender address or without an app
    password starts nothing: the run shows one error and returns.  The
    entry it appends goes after the entries of the earlier runs, the log
    not being cleared, and since the run returns before the log is drawn
    the error is the last thing it shows.  The counters are kept. *)
Theorem missing_credentials_abort (env : Env) (ui : Inputs)
        (file : UploadedFile) (w : World) :
  uploaded_file ui = Some file ->
  start_clicked ui = true ->
  Py.truthy (sender_email ui) = false \/ Py.truthy (app_password ui) = false ->
  wp (main env ui) w
     (fun r w' =>
        r = Ok tt /\ counters w' = counters w /\
        logs (session w')
        = (logs (session w)
           ++ [log_entry env (tick w)
                         "Workflow aborted: Missing SMTP credentials"
                         true false])%list /\
        workflow_completed (session w') = workflow_completed (session w) /\
        exists new,
          trace w'
          = (trace w ++ new
             ++ [St "error"
                    "Please configure your Sender Email and App Password in the sidebar."])%list
          /\ forallb is_st new = true).
Proof.
  intros Hf Hc Hm. destruct w as [s t k]. unfold main, counters.
  apply wp_bind. apply wp_dashboard.
  intros s' new Hnew Hl Hcs Hwc Hq. cbn beta iota. world_norm.
  rewrite Hf, Hc. unfold workflow.
  assert (negb (Py.truthy (sender_email ui))
          || negb (Py.truthy (app_password ui)) = true) as ->.
  { destruct Hm as [-> | ->]; [reflexivity|apply orb_true_r]. }
  run_tac; world_norm.
  split; [reflexivity|]. split; [exact Hcs|].
  split; [rewrite Hl; reflexivity|]. split; [exact Hwc|].
  exists new. rewrite <- app_assoc. auto.
Qed.

Lemma missing_credentials_abort_witness :
  fst (main offline careless (start None 0)) = Ok tt
  /\ List.length (logs (session (snd (main offline careless (start None 0)))))
     = 1.
Proof.
  pose proof (missing_credentials_abort offline careless resume_pdf
                (start None 0) eq_refl eq_refl (or_intror eq_refl)) as H.
  unfold wp in H. split; [apply H|].
  rewrite (proj1 (proj2 (proj2 H))). reflexivity.
Defined.

(** ** app.py: the phases of the workflow *)

Lemma log_grows_refl (w : World) : log_grows w w.
Proof. exists []. rewrite app_nil_r. reflexivity. Qed.

Lemma log_grows_trans (w w1 w2 : World) :
  log_grows w w1 -> log_grows w1 w2 -> log_grows w w2.
Proof.
  intros [a Ha] [b Hb]. exists (a ++ b)%list.
  rewrite Hb, Ha, app_assoc. reflexivity.
Qed.

Lemma kept_refl (w : World) : kept w w.
Proof. split; [apply log_grows_refl|split; reflexivity]. Qed.

Lemma kept_trans (w w1 w2 : World) : kept w w1 -> kept w1 w2 -> kept w w2.
Proof.
  intros (Ha & Hb & Hc) (Ha' & Hb' & Hc').
  split; [eapply log_grows_trans; eassumption|split; congruence].
Qed.

Ltac kept_tac :=
  unfold kept, log_grows; world_norm;
  split;
  [ eexists; rewrite <- ?app_assoc;
    first [reflexivity | symmetry; apply app_nil_r]
  | split; reflexivity ].

Lemma parse_candidate_kept (env : Env) (ui : Inputs) (resume_text : string)
      (w : World) :
  wp (parse_candidate env ui resume_text) w (fun _ w' => kept w w').
Proof.
  destruct w as [s t k]. unfold parse_candidate. run_tac; kept_tac.
Qed.

Lemma discover_kept (env : Env) (ui : Inputs) (candidate_info : json)
      (w : World) :
  wp (discover env ui candidate_info) w (fun _ w' => kept w w').
Proof.
  destruct w as [s t k]. unfold discover. run_tac; kept_tac.
Qed.

Lemma dispatch_job_kept (env : Env) (ui : Inputs)
      (candidate_info mock_jobs : json) (index : nat) (job : json)
      (w : World) :
  wp (dispatch_job env ui candidate_info mock_jobs index job) w
     (fun _ w' => kept w w').
Proof.
  destruct w as [s t k]. unfold dispatch_job. run_tac; kept_tac.
Qed.

Lemma for_enumerate_kept (env : Env) (ui : Inputs)
      (candidate_info mock_jobs : json) (jobs : list json) :
  forall (index : nat) (w : World),
    wp (for_enumerate (dispatch_job env ui candidate_info mock_jobs) index jobs)
       w (fun _ w' => kept w w').
Proof.
  induction jobs as [|job jobs IH]; intros index w.
  - apply wp_ret. apply kept_refl.
  - cbn [for_enumerate]. apply wp_bind.
    eapply wp_mono; [|apply dispatch_job_kept].
    intros [b|e] w1 H1; cbn beta iota; [|exact H1].
    apply wp_bind. eapply wp_mono; [|apply IH].
    intros [bs|e] w2 H2; cbn beta iota; try apply wp_ret;
      exact (kept_trans _ _ _ H1 H2).
Qed.

Lemma dispatch_loop_kept (env : Env) (ui : Inputs)
      (candidate_info mock_jobs : json) (w : World) :
  wp (dispatch_loop env ui candidate_info mock_jobs) w (fun _ w' => kept w w').
Proof.
  destruct w as [s t k]. unfold dispatch_loop.
  do 6 wp_step.
  destruct (Dyn.iter mock_jobs) as [jobs|e]; cbn beta iota.
  - eapply wp_mono; [|apply for_enumerate_kept].
    cbn beta. intros r w' H. exact H.
  - kept_tac.
Qed.

(** The last phase on a profile: it stores a guide and sets the flag. *)
Lemma post_process_completes (env : Env) (d : list (string * json))
      (w : World) :
  wp (post_process env (JObj d)) w
     (fun r w' =>
        r = Ok tt /\ log_grows w w'
        /\ workflow_started (session w') = workflow_started (session w)
        /\ workflow_completed (session w') = true
        /\ exists guide, interview_questions (session w') = Some guide).
Proof.
  destruct w as [s t k]. unfold post_process, interview_prep_agent.
  cbn [Dyn.get]. repeat wp_step.
  apply wp_call_gemini. intros text new n _ _.
  repeat wp_step.
  split; [reflexivity|].
  split; [eexists; world_norm; rewrite <- ?app_assoc; reflexivity|].
  split; [reflexivity|]. split; [reflexivity|]. eexists; reflexivity.
Qed.

(** Step 1 ends with an object, or raises. *)
Lemma parse_candidate_object (env : Env) (ui : Inputs) (resume_text : string)
      (w : World) :
  wp (parse_candidate env ui resume_text) w
     (fun r _ => match r with
                 | Ok c => exists d, c = JObj d
                 | Raise _ => True
                 end).
Proof.
  destruct w as [s t k]. unfold parse_candidate.
  run_tac; world_norm; auto;
    match goal with
    | H : Dyn.get ?c _ _ = Ok _ |- exists d, ?c = JObj d =>
        destruct c; try discriminate; eexists; reflexivity
    end.
Qed.

Lemma wp_conj {A} (m : M A) (w : World) (Q1 Q2 : res A -> World -> Prop) :
  wp m w Q1 -> wp m w Q2 -> wp m w (fun r w' => Q1 r w' /\ Q2 r w').
Proof. unfold wp. auto. Qed.

(** A workflow that has its mail settings, from the click to its end. *)
Lemma workflow_outcome (env : Env) (ui : Inputs) (file : UploadedFile)
      (w : World) :
  Py.truthy (sender_email ui) = true ->
  Py.truthy (app_password ui) = true ->
  wp (workflow env ui file) w
     (fun r w' =>
        workflow_started (session w') = true /\
        (exists rest,
            logs (session w')
            = log_entry env (tick w) "Initializing Agentic AI Workflow..."
                        false false
              :: log_entry env (S (tick w)) "Reading PDF Resume..." false false
              :: rest) /\
        match r with
        | Ok Proceed =>
            workflow_completed (session w') = true
            /\ exists guide, interview_questions (session w') = Some guide
        | _ => workflow_completed (session w') = false
        end).
Proof.
  intros Hs Hp. destruct w as [s t k]. unfold workflow.
  rewrite Hs, Hp. cbn [negb orb].
  repeat first [wp_step | run_frame].
  destruct (negb (Py.truthy text)).
  { repeat wp_step. split; [reflexivity|]. split; [|reflexivity].
    eexists. reflexivity. }
  match goal with
  | |- wp _ ?w0 _ =>
      assert (Hinv : forall w', kept w0 w' ->
                workflow_started (session w') = true /\
                (exists rest,
                    logs (session w')
                    = log_entry env k "Initializing Agentic AI Workflow..."
                                false false
                      :: log_entry env (S k) "Reading PDF Resume..." false false
                      :: rest) /\
                workflow_completed (session w') = false);
      [ intros w' ([added Ha] & Hb & Hc); world_norm_in Ha; world_norm_in Hb;
        world_norm_in Hc;
        split; [exact Hb|]; split; [|exact Hc];
        exists added; rewrite Ha; reflexivity
      | set (w0' := w0) in * ]
  end.
  apply wp_bind. eapply wp_mono;
    [|apply wp_conj; [apply parse_candidate_kept|apply parse_candidate_object]].
  cbn beta. intros [c|e] w1 [H1 Hobj]; [|apply Hinv; exact H1].
  destruct Hobj as [d ->].
  apply wp_bind. eapply wp_mono; [|apply discover_kept].
  cbn beta. intros [mock|e] w2 H2;
    pose proof (kept_trans _ _ _ H1 H2) as H12; [|apply Hinv; exact H12].
  apply wp_bind. eapply wp_mono; [|apply dispatch_loop_kept].
  cbn beta. intros [sent|e] w3 H3;
    pose proof (kept_trans _ _ _ H12 H3) as H13; [|apply Hinv; exact H13].
  apply wp_bind. eapply wp_mono; [|apply post_process_completes].
  cbn beta. intros r w4 (-> & Hl & Hst & Hc & Hg).
  apply wp_ret.
  destruct (Hinv w3 H13) as (Hs3 & [rest Hr3] & _).
  split; [congruence|]. split; [|split; assumption].
  destruct Hl as [added Ha]. exists (rest ++ added)%list.
  rewrite Ha, Hr3. reflexivity.
Qed.

(** X13.  A workflow that starts forgets the log of the earlier runs: with
    the mail settings filled in, however the workflow ends, by returning or
    by an exception, it is marked as started and the log begins with the
    entries of its own first two messages, whatever the log held before. *)
Theorem workflow_restarts_log (env : Env) (ui : Inputs) (file : UploadedFile)
        (w : World) :
  Py.truthy (sender_email ui) = true ->
  Py.truthy (app_password ui) = true ->
  wp (workflow env ui file) w
     (fun _ w' =>
        workflow_started (session w') = true /\
        exists rest,
          logs (session w')
          = log_entry env (tick w) "Initializing Agentic AI Workflow..."
                      false false
            :: log_entry env (S (tick w)) "Reading PDF Resume..." false false
            :: rest).
Proof.
  intros Hs Hp. eapply wp_mono; [|apply workflow_outcome; assumption].
  cbn beta. intros r w' (H1 & H2 & _). auto.
Qed.

Lemma workflow_restarts_log_witness :
  workflow_started
    (session (snd (workflow exhausted operator resume_pdf
                            (start (Some (set_logs ["old entry"] defaults)) 0))))
  = true.
Proof.
  pose proof (workflow_restarts_log exhausted operator resume_pdf
                (start (Some (set_logs ["old entry"] defaults)) 0)
                eq_refl eq_refl) as H.
  unfold wp in H. apply H.
Defined.

(** X14.  With the mail settings filled in, the flag of completion is set
    exactly when the workflow runs to its end, and then an interview guide
    is stored.  A workflow that returns early, on a document without text,
    or that ends with an exception in any phase, leaves the flag down, so
    that the run and the later ones show no guide. *)
Theorem workflow_completion_flag (env : Env) (ui : Inputs)
        (file : UploadedFile) (w : World) :
  Py.truthy (sender_email ui) = true ->
  Py.truthy (app_password ui) = true ->
  wp (workflow env ui file) w
     (fun r w' =>
        (workflow_completed (session w') = true <-> r = Ok Proceed) /\
        (r = Ok Proceed ->
         exists guide, interview_questions (session w') = Some guide)).
Proof.
  intros Hs Hp. eapply wp_mono; [|apply workflow_outcome; assumption].
  cbn beta. intros r w' (_ & _ & H).
  destruct r as [[|]|e].
  - destruct H as [Hc Hg]. split; [split; auto|auto].
  - split; [split; [congruence|discriminate]|discriminate].
  - split; [split; [congruence|discriminate]|discriminate].
Qed.

Lemma workflow_completion_flag_witness :
  workflow_completed
    (session (snd (workflow unreadable operator resume_pdf (start None 0))))
  = true
  <-> fst (workflow unreadable operator resume_pdf (start None 0)) = Ok Proceed.
Proof.
  pose proof (workflow_completion_flag unreadable operator resume_pdf
                (start None 0) eq_refl eq_refl) as H.
  unfold wp in H. apply H.
Defined.

(** ** app.py: the profile and the opportunities *)

(** The two agents that decode end in a world with the session state they
    started with, whether they return or raise. *)
Lemma parse_resume_run (env : Env) (resume_text : string)
      (s : Session) (t : list event) (k : nat) :
  exists a t' k',
    parse_resume_agent env resume_text {| session := s; trace := t; tick := k |}
    = (a, {| session := s; trace := t'; tick := k' |}).
Proof.
  pose proof (parse_resume_frame env resume_text s t k
                (fun _ w' => exists t' k',
                     w' = {| session := s; trace := t'; tick := k' |})) as H.
  unfold wp in H. destruct H as (t' & k' & E); [intros; eauto|].
  eexists _, t', k'. rewrite <- E. apply surjective_pairing.
Qed.

Lemma job_discovery_run (env : Env) (role : json) (location : string)
      (s : Session) (t : list event) (k : nat) :
  exists a t' k',
    job_discovery_agent env role location
                        {| session := s; trace := t; tick := k |}
    = (a, {| session := s; trace := t'; tick := k' |}).
Proof.
  pose proof (job_discovery_frame env role location s t k
                (fun _ w' => exists t' k',
                     w' = {| session := s; trace := t'; tick := k' |})) as H.
  unfold wp in H. destruct H as (t' & k' & E); [intros; eauto|].
  eexists _, t', k'. rewrite <- E. apply surjective_pairing.
Qed.

Lemma get_set_same (key : string) (v default : json)
      (d : list (string * json)) :
  Json.get key default (Json.set key v d) = v.
Proof.
  induction d as [|[k0 v0] d IH]; cbn [Json.set Json.get].
  - rewrite String.eqb_refl. reflexivity.
  - destruct (String.eqb k0 key) eqn:E; cbn [Json.get]; rewrite E; auto.
Qed.

(** X15.  Step 1 does what the answer of the resume agent decides.  An
    exception of the agent passes through, and nothing is stored.  An
    object is returned and stored as the parsed resume, with the role
    typed in the sidebar set in it when there is one, and as it is
    otherwise.  An answer that is not an object makes the override raise
    [TypeError], nothing being stored; without an override it is stored
    first, and reading its role raises [AttributeError]. *)
Theorem parse_candidate_outcomes (env : Env) (ui : Inputs)
        (resume_text : string) (w : World) :
  let w0 := logged env "Analyzing resume content via LLM Agent..."
                   false false w in
  wp (parse_candidate env ui resume_text) w
     (fun r w' =>
        match fst (parse_resume_agent env resume_text w0) with
        | Raise e =>
            r = Raise e
            /\ parsed_resume (session w') = parsed_resume (session w)
        | Ok profile =>
            if is_object profile
            then
              exists c,
                r = Ok c
                /\ parsed_resume (session w') = Some c
                /\ if Py.truthy (manual_role_input ui)
                   then Dyn.setitem profile "role"
                                    (JStr (manual_role_input ui)) = Ok c
                        /\ Dyn.get c "role" JNull
                           = Ok (JStr (manual_role_input ui))
                   else c = profile
            else
              if Py.truthy (manual_role_input ui)
              then r = Raise TypeError
                   /\ parsed_resume (session w') = parsed_resume (session w)
              else r = Raise AttributeError
                   /\ parsed_resume (session w') = Some profile
        end).
Proof.
  intros w0. subst w0. destruct w as [s t k].
  unfold parse_candidate, logged. world_norm.
  apply wp_bind. apply wp_append_log. unfold logged. world_norm.
  apply wp_bind.
  match goal with
  | |- wp (parse_resume_agent _ _) {| session := ?s0; trace := _; tick := ?k0 |} _ =>
      destruct (parse_resume_run env resume_text s0 t k0) as (a & t' & k' & E)
  end.
  eapply wp_run; [exact E|]. rewrite E. cbn [fst]. clear E.
  destruct a as [profile|e]; cbn beta iota; [|split; reflexivity].
  destruct (Py.truthy (manual_role_input ui)) eqn:Ho.
  - repeat wp_step.
    destruct profile as [| | | | |d]; cbn [Dyn.setitem is_object];
      cbn beta iota; try (split; reflexivity).
    cbn [Dyn.get]. repeat wp_step.
    eexists. split; [reflexivity|]. split; [reflexivity|].
    split; [reflexivity|]. cbn [Dyn.get]. rewrite get_set_same. reflexivity.
  - repeat wp_step.
    destruct profile as [| | | | |d]; cbn [Dyn.get is_object]; cbn beta iota;
      try (split; reflexivity).
    repeat wp_step.
    eexists. split; [reflexivity|]. split; reflexivity.
Qed.

(** X16.  Discovery for a profile does what the answer of the discovery
    agent decides.  An exception of the agent passes through before
    anything is stored.  What the agent returns is stored as the
    opportunities before it is counted: a value without a length (a
    number, a boolean, null) raises [TypeError] and leaves the number of
    jobs as it was; otherwise the number of jobs is its length, and
    discovery returns it when the table accepts it and raises when the
    table refuses it. *)
Theorem discover_outcomes (env : Env) (ui : Inputs)
        (d : list (string * json)) (w : World) :
  let role := Json.get "role" JNull d in
  let w0 :=
    logged env ("Initiating Discovery Agent for " ++ str env role
                ++ " positions in " ++ preferred_loc ui ++ "...")
           false false
           {| session := session w;
              trace := (trace w ++ [St "spinner" "Simulating Job Discovery..."])%list;
              tick := tick w |} in
  wp (discover env ui (JObj d)) w
     (fun r w' =>
        match fst (job_discovery_agent env role (preferred_loc ui) w0) with
        | Raise e =>
            r = Raise e
            /\ mock_jobs (session w') = mock_jobs (session w)
            /\ jobs_identified (session w') = jobs_identified (session w)
        | Ok found =>
            mock_jobs (session w') = Some found /\
            match Dyn.len found with
            | Raise _ =>
                r = Raise TypeError
                /\ jobs_identified (session w') = jobs_identified (session w)
            | Ok n =>
                jobs_identified (session w') = n
                /\ r = if dataframe_ok env found
                       then Ok found else Raise ValueError
            end
        end).
Proof.
  intros role w0. subst w0. destruct w as [s t k].
  unfold discover, logged. cbn [Dyn.get]. fold role. world_norm.
  apply wp_bind. apply wp_emit. world_norm.
  apply wp_bind. apply wp_lift. cbn beta iota.
  apply wp_bind. apply wp_append_log. unfold logged. world_norm.
  apply wp_bind. apply wp_lift. cbn beta iota.
  apply wp_bind.
  match goal with
  | |- wp (job_discovery_agent _ _ _)
          {| session := ?s0; trace := ?t0; tick := ?k0 |} _ =>
      destruct (job_discovery_run env role (preferred_loc ui) s0 t0 k0)
        as (a & t' & k' & E)
  end.
  eapply wp_run; [exact E|]. rewrite E. cbn [fst]. clear E.
  destruct a as [found|e]; cbn beta iota; [|repeat split; reflexivity].
  repeat wp_step.
  destruct (Dyn.len found) as [n|e] eqn:El; cbn beta iota.
  - repeat wp_step.
    destruct (dataframe_ok env found); repeat wp_step;
      repeat split; reflexivity.
  - split; [reflexivity|].
    destruct found; try discriminate; cbn in El; inversion El;
      split; reflexivity.
Qed.

(** ** app.py: the dispatch loop *)

Lemma dispatch_job_malformed (env : Env) (ui : Inputs)
      (candidate_info mock_jobs : json) (index : nat) (job : json)
      (w : World) :
  is_object job = false ->
  dispatch_job env ui candidate_info mock_jobs index job w
  = (Raise AttributeError, w).
Proof. intros H. destruct job; try discriminate; reflexivity. Qed.

Lemma for_enumerate_malformed (env : Env) (ui : Inputs)
      (candidate_info mock_jobs : json) (good : list json) (bad : json)
      (rest : list json) :
  profile_ok candidate_info = true ->
  forallb opportunity_ok good = true ->
  (exists n, Dyn.len mock_jobs = Ok n) ->
  is_object bad = false ->
  forall (index : nat) (w : World),
    wp (for_enumerate (dispatch_job env ui candidate_info mock_jobs) index
                      (good ++ bad :: rest)%list) w
       (fun r w' =>
          r = Raise AttributeError /\
          exists sent new,
            Forall2 (outcome_of env ui) good sent /\
            trace w' = (trace w ++ new)%list /\
            filter is_spinner new = banners env index good /\
            successful_dispatches (session w')
            = successful_dispatches (session w) + sent_count sent).
Proof.
  intros Hp Hg Hn Hb.
  induction good as [|job good IH]; intros index w.
  - cbn [app for_enumerate]. apply wp_bind.
    apply (wp_run _ _ _ (Raise AttributeError) w).
    { apply dispatch_job_malformed. exact Hb. }
    cbn beta iota. split; [reflexivity|].
    exists [], []. rewrite app_nil_r, Nat.add_0_r.
    repeat split; constructor.
  - simpl in Hg. apply andb_prop in Hg. destruct Hg as [Hjob Hrest].
    cbn [app for_enumerate]. apply wp_bind.
    eapply wp_mono; [|apply dispatch_job_spec; eassumption].
    intros r w1
           (success & -> & Hj1 & Hd1 & letter & new1 & Ht1 & Hf1 & _ & Hs1 & Hout).
    apply wp_bind.
    eapply wp_mono; [|apply (IH Hrest)].
    intros r w2 (-> & sent & new2 & Hall & Ht2 & Hs2 & Hd2).
    cbn beta iota. split; [reflexivity|].
    exists (success :: sent), (new1 ++ new2)%list.
    split.
    { constructor; [|exact Hall]. unfold outcome_of.
      destruct (sandbox job).
      - exact (proj1 Hout).
      - destruct Hout as (t & msg & Hto & _ & _ & Hb'). eauto. }
    split; [rewrite Ht2, Ht1, app_assoc; reflexivity|].
    split; [rewrite filter_app, Hs1, Hs2; reflexivity|].
    rewrite Hd2, Hd1. unfold sent_count. cbn [filter].
    destruct success; cbn [List.length]; lia.
Qed.

(** X17.  The loop stops at the first opportunity that is not an object:
    for a profile, the opportunities before it are processed as usual,
    each with its banner and its dispatch counted, the malformed one raises
    [AttributeError] before anything is shown for it, and the ones after it
    are never looked at. *)
Theorem loop_stops_at_malformed (env : Env) (ui : Inputs)
        (candidate_info : json) (good : list json) (bad : json)
        (rest : list json) (w : World) :
  profile_ok candidate_info = true ->
  forallb opportunity_ok good = true ->
  is_object bad = false ->
  wp (dispatch_loop env ui candidate_info (JArr (good ++ bad :: rest))) w
     (fun r w' =>
        r = Raise AttributeError /\
        exists sent new,
          Forall2 (outcome_of env ui) good sent /\
          trace w' = (trace w ++ new)%list /\
          filter is_spinner new = banners env 0 good /\
          successful_dispatches (session w')
          = successful_dispatches (session w) + sent_count sent).
Proof.
  intros Hp Hg Hb. destruct w as [s t k]. unfold dispatch_loop.
  do 6 wp_step. cbn [Dyn.iter]. cbn beta iota.
  eapply wp_mono;
    [|apply for_enumerate_malformed;
      [exact Hp|exact Hg|eexists; reflexivity|exact Hb]].
  cbn beta. cbn [session trace tick].
  intros r w' (-> & sent & new & Hall & Ht & Hs & Hd).
  split; [reflexivity|].
  exists sent. eexists.
  split; [exact Hall|].
  split; [rewrite Ht, <- !app_assoc; reflexivity|].
  split; [exact Hs|exact Hd].
Qed.

Lemma loop_stops_at_malformed_witness :
  fst (dispatch_loop offline operator (JObj [])
                     (JArr ([sandbox_job] ++ JStr "not a job" :: [real_job]))
                     (start None 0))
  = Raise AttributeError.
Proof.
  pose proof (loop_stops_at_malformed offline operator (JObj [])
                [sandbox_job] (JStr "not a job") [real_job] (start None 0)
                eq_refl eq_refl eq_refl) as H.
  unfold wp in H. apply H.
Defined.

Lemma get_missing (key : string) (default : json) (d : list (string * json)) :
  Json.has_key key d = false -> Json.get key default d = default.
Proof.
  induction d as [|[k0 v0] d IH]; cbn [Json.has_key Json.get]; [reflexivity|].
  intros H. apply orb_false_elim in H. destruct H as [-> H]. auto.
Qed.

(** X18.  An opportunity that names no contact address is never mailed:
    the address defaults to one of the sandbox, so the iteration waits
    three seconds, opens no SMTP session and counts the dispatch as
    successful. *)
Theorem missing_address_is_sandbox (env : Env) (ui : Inputs)
        (candidate_info mock_jobs : json) (n index : nat)
        (d : list (string * json)) (w : World) :
  profile_ok candidate_info = true ->
  Json.has_key "contact_email" d = false ->
  Dyn.len mock_jobs = Ok n ->
  wp (dispatch_job env ui candidate_info mock_jobs index (JObj d)) w
     (fun r w' =>
        r = Ok true /\
        successful_dispatches (session w')
        = successful_dispatches (session w) + 1 /\
        exists new,
          trace w' = (trace w ++ new)%list /\
          filter is_delivery new = [Sleep 3]).
Proof.
  intros Hp Hk Hn.
  assert (Hr : recipient_of (JObj d) = JStr "hr@example.com")
    by (apply get_missing; exact Hk).
  assert (Ho : opportunity_ok (JObj d) = true).
  { unfold opportunity_ok. unfold recipient_of in Hr. rewrite Hr. reflexivity. }
  assert (Hs : sandbox (JObj d) = true).
  { unfold sandbox. rewrite Hr. reflexivity. }
  eapply wp_mono; [|apply dispatch_job_spec; [exact Hp|exact Ho|eauto]].
  cbn beta.
  intros r w' (success & -> & _ & Hd & letter & new & Ht & _ & _ & _ & Hout).
  rewrite Hs in Hout. destruct Hout as [-> Hdel].
  split; [reflexivity|]. split; [exact Hd|]. eauto.
Qed.

Lemma missing_address_is_sandbox_witness :
  fst (dispatch_job terse operator (JObj []) (JArr [JObj []]) 0 (JObj [])
                    (start None 0))
  = Ok true.
Proof.
  pose proof (missing_address_is_sandbox terse operator (JObj [])
                (JArr [JObj []]) 1 0 [] (start None 0)
                eq_refl eq_refl eq_refl) as H.
  unfold wp in H. apply H.
Defined.

Lemma wp_send_email_message (env : Env) (sender password : string)
      (recipient : json) (subject body : string) (bytes name : option string)
      (w : World) (Q : res bool -> World -> Prop) :
  (forall b extra,
      filter is_delivery extra = [] ->
      Q (Ok b)
        {| session := session w;
           trace := (trace w
                     ++ St "info" ("Rate limiting: Waiting 20 seconds before dispatching email to "
                                   ++ str env recipient ++ "...")
                     :: Sleep 20
                     :: SmtpSession (message sender recipient subject body
                                             bytes name) password
                     :: extra)%list;
           tick := S (tick w) |}) ->
  wp (send_email_with_attachment env sender password recipient subject body
                                 bytes name) w Q.
Proof.
  intros HQ. unfold send_email_with_attachment.
  fold (message sender recipient subject body bytes name).
  set (msg := message sender recipient subject body bytes name) in *.
  unfold wp, bind, emit, next_tick, ret; cbn [fst snd session trace tick].
  destruct (smtp_session env (tick w) msg password);
    cbn [fst snd session trace tick];
    rewrite <- ?app_assoc; cbn [app]; apply HQ; reflexivity.
Qed.

(** X19.  What is mailed is what was shown.  In an iteration for a
    profile on an opportunity whose address is not one of the sandbox, the
    SMTP session carries one message: from the sender of the sidebar to
    that address, its subject made of the title of the job and the role of
    the profile, its body the cover letter shown in the preview, and
    attached to it the document the session held when the iteration began,
    under its stored name. *)
Theorem mailed_letter_is_shown (env : Env) (ui : Inputs)
        (cd : list (string * json)) (mock_jobs : json) (n index : nat)
        (d : list (string * json)) (r : string) (w : World) :
  profile_ok (JObj cd) = true ->
  Json.get "contact_email" (JStr "hr@example.com") d = JStr r ->
  Py.str_in "example" r = false ->
  Dyn.len mock_jobs = Ok n ->
  wp (dispatch_job env ui (JObj cd) mock_jobs index (JObj d)) w
     (fun _ w' =>
        exists letter new,
          trace w' = (trace w ++ new)%list /\
          In (St "text_area" letter) new /\
          filter is_delivery new
          = [Sleep 20;
             SmtpSession
               (message (sender_email ui) (JStr r)
                        ("Application for "
                           ++ str env (Json.get "job_title"
                                                (JStr "Software Engineer") d)
                           ++ " - " ++ str env (Json.get "role" JNull cd))
                        letter (pdf_bytes (session w))
                        (pdf_filename (session w)))
               (app_password ui)]).
Proof.
  intros Hp Er Es Hn. destruct w as [s t k].
  unfold dispatch_job. cbn [Dyn.get Dyn.contains]. rewrite Er, Hn.
  repeat wp_step.
  apply wp_cover_letter; [exact Hp|].
  intros letter gnew gn Hg _. cbn beta iota.
  destruct (gateway_events_quiet _ Hg) as [_ Hq].
  destruct (Py.startswith "Dear" letter
            && Py.str_in "A Dedicated Professional" letter);
    repeat wp_step; cbn [Dyn.contains]; rewrite Es; repeat wp_step;
    apply wp_send_email_message; intros b extra Hx; world_norm;
    destruct b; repeat wp_step;
    exists letter; eexists;
    (split; [rewrite <- !app_assoc; reflexivity|]);
    (split; [in_tac|]);
    repeat (progress
              (rewrite ?filter_app, ?Hq, ?Hx;
               cbn [filter is_delivery app]));
    reflexivity.
Qed.

Lemma mailed_letter_is_shown_witness :
  exists letter new,
    trace (snd (dispatch_job terse operator (JObj []) (JArr [real_job]) 0
                             real_job (start None 0)))
    = (trace (start None 0) ++ new)%list /\
    In (St "text_area" letter) new /\
    filter is_delivery new
    = [Sleep 20;
       SmtpSession
         (message "user@example.com" (JStr "hr@initech.com")
                  "Application for Engineer - None" letter None None)
         "app-password"].
Proof.
  apply (mailed_letter_is_shown terse operator [] (JArr [real_job]) 1 0
           [("company_name", JStr "Initech"); ("job_title", JStr "Engineer");
            ("contact_email", JStr "hr@initech.com")]
           "hr@initech.com" (start None 0));
    reflexivity.
Defined.

(** X20.  The counter of fallbacks counts log entries, one for each entry
    appended with the fallback flag and none for the others; appending
    reads the clock once per entry and leaves the two other counters
    alone. *)
Theorem fallback_counter_counts_entries (env : Env)
        (entries : list (string * bool * bool)) (w : World) :
  let w' := snd (append_all env entries w) in
  api_fallbacks (session w')
  = api_fallbacks (session w) + fallback_entries entries
  /\ jobs_identified (session w') = jobs_identified (session w)
  /\ successful_dispatches (session w') = successful_dispatches (session w)
  /\ tick w' = tick w + List.length entries.
Proof.
  unfold append_all, fallback_entries. revert w.
  induction entries as [|[[m e] f] entries IH]; intros w;
    cbn [map sequence filter snd fst].
  - cbn. repeat split; lia.
  - unfold bind. rewrite append_log_run. cbn beta iota.
    destruct (IH (logged env m e f w)) as (Ha & Hj & Hd & Ht).
    cbn zeta in Ha, Hj, Hd, Ht. cbn zeta.
    rewrite Ha, Hj, Hd, Ht.
    destruct f; cbn [List.length]; world_norm; repeat split; lia.
Qed.

Lemma sandbox_opportunity (job : json) :
  sandbox job = true -> opportunity_ok job = true.
Proof.
  unfold sandbox, opportunity_ok, recipient_of.
  destruct job as [| | | | |d]; try discriminate.
  destruct (Json.get "contact_email" (JStr "hr@example.com") d);
    try discriminate; reflexivity.
Qed.

Lemma for_enumerate_sandbox (env : Env) (ui : Inputs)
      (candidate_info mock_jobs : json) (jobs : list json) :
  profile_ok candidate_info = true ->
  forallb sandbox jobs = true ->
  (exists n, Dyn.len mock_jobs = Ok n) ->
  forall (index : nat) (w : World),
    wp (for_enumerate (dispatch_job env ui candidate_info mock_jobs) index jobs)
       w
       (fun r w' =>
          r = Ok (repeat true (List.length jobs)) /\
          successful_dispatches (session w')
          = successful_dispatches (session w) + List.length jobs /\
          exists new,
            trace w' = (trace w ++ new)%list /\
            filter is_delivery new = repeat (Sleep 3) (List.length jobs)).
Proof.
  intros Hp Hs Hn.
  induction jobs as [|job jobs IH]; intros index w.
  - apply wp_ret. split; [reflexivity|]. split; [cbn; lia|].
    exists []. rewrite app_nil_r. auto.
  - simpl in Hs. apply andb_prop in Hs. destruct Hs as [Hjob Hrest].
    cbn [for_enumerate List.length repeat]. apply wp_bind.
    eapply wp_mono;
      [|apply dispatch_job_spec;
        [exact Hp|apply sandbox_opportunity; exact Hjob|exact Hn]].
    intros r w1
           (success & -> & _ & Hd1 & letter & new1 & Ht1 & _ & _ & _ & Hout).
    rewrite Hjob in Hout. destruct Hout as [-> Hdel1].
    apply wp_bind.
    eapply wp_mono; [|apply (IH Hrest)].
    intros r w2 (-> & Hd2 & new2 & Ht2 & Hdel2).
    apply wp_ret.
    split; [reflexivity|]. split; [rewrite Hd2, Hd1; lia|].
    exists (new1 ++ new2)%list.
    split; [rewrite Ht2, Ht1, app_assoc; reflexivity|].
    rewrite filter_app, Hdel1, Hdel2. reflexivity.
Qed.

(** X21.  Opportunities of the sandbox are never mailed.  When every
    address contains the word example, the loop, for a profile, ends every
    iteration as sent, counts one dispatch per opportunity, waits three
    seconds for each and opens no SMTP session, whatever the mail settings
    are.  The three opportunities discovery falls back to are of this
    kind, for every role. *)
Theorem sandbox_jobs_never_mailed (env : Env) (ui : Inputs)
        (candidate_info : json) :
  profile_ok candidate_info = true ->
  (forall jobs w,
      forallb sandbox jobs = true ->
      wp (dispatch_loop env ui candidate_info (JArr jobs)) w
         (fun r w' =>
            r = Ok (repeat true (List.length jobs)) /\
            successful_dispatches (session w')
            = successful_dispatches (session w) + List.length jobs /\
            exists new,
              trace w' = (trace w ++ new)%list /\
              filter is_delivery new = repeat (Sleep 3) (List.length jobs))) /\
  (forall role,
      exists jobs,
        jobs_fallback env role = JArr jobs
        /\ List.length jobs = 3
        /\ forallb sandbox jobs = true).
Proof.
  intros Hp. split.
  - intros jobs [s t k] Hs. unfold dispatch_loop.
    do 6 wp_step. cbn [Dyn.iter]. cbn beta iota.
    eapply wp_mono;
      [|apply for_enumerate_sandbox;
        [exact Hp|exact Hs|eexists; reflexivity]].
    cbn beta. cbn [session trace tick].
    intros r w' (-> & Hd & new & Ht & Hdel).
    split; [reflexivity|]. split; [exact Hd|].
    eexists. split; [rewrite Ht, <- !app_assoc; reflexivity|].
    exact Hdel.
  - intros role. eexists. split; [reflexivity|]. split; reflexivity.
Qed.

Lemma sandbox_jobs_never_mailed_witness :
  fst (dispatch_loop exhausted operator resume_fallback
                     (jobs_fallback exhausted (JStr "Data Scientist"))
                     (start None 0))
  = Ok [true; true; true].
Proof.
  pose proof (proj1 (sandbox_jobs_never_mailed exhausted operator
                       resume_fallback eq_refl)
                    _ (start None 0)
                    (eq_refl : forallb sandbox
                                 match jobs_fallback exhausted
                                                     (JStr "Data Scientist") with
                                 | JArr jobs => jobs
                                 | _ => []
                                 end = true)) as H.
  unfold wp in H. apply H.
Defined.

(** ** The whole workflow without a credential *)

Lemma parse_resume_offline (env : Env) (resume_text : string) (w : World) :
  Py.truthy (credential env w) = false ->
  parse_resume_agent env resume_text w = (Ok resume_fallback, w).
Proof.
  intros H. unfold parse_resume_agent, bind.
  rewrite call_gemini_run, H. unfold decode_or_fallback.
  rewrite decode_resume_fallback. reflexivity.
Qed.

Lemma job_discovery_offline (env : Env) (role : json) (location : string)
      (w : World) :
  Py.truthy (credential env w) = false ->
  job_discovery_agent env role location w = (Ok (jobs_fallback env role), w).
Proof.
  intros H. unfold job_discovery_agent, bind.
  rewrite call_gemini_run, H. unfold decode_or_fallback.
  rewrite decode_jobs_fallback. reflexivity.
Qed.

Lemma interview_prep_offline (env : Env) (role : json) (w : World) :
  Py.truthy (credential env w) = false ->
  interview_prep_agent env role w = (Ok interview_prep_fallback, w).
Proof.
  intros H. unfold interview_prep_agent. rewrite call_gemini_run, H.
  reflexivity.
Qed.

Lemma cover_letter_offline (env : Env)
      (candidate_info company_name job_title : json) (w : World) :
  profile_ok candidate_info = true ->
  Py.truthy (credential env w) = false ->
  exists letter,
    marked letter = true
    /\ cover_letter_agent env candidate_info company_name job_title w
       = (Ok letter, w).
Proof.
  intros Hp Hk.
  destruct candidate_info as [| | | | |d]; try discriminate.
  cbn in Hp.
  destruct (join_ok ", " _ Hp) as [joined Hj].
  destruct (slice_ok 3 _ Hp) as (first3 & Hs & Hp3).
  destruct (join_ok ", " _ Hp3) as [joined3 Hj3].
  eexists. split; [apply fallback_marked|].
  unfold cover_letter_agent, bind, lift. cbn [Dyn.get].
  rewrite Hj, Hs, Hj3. rewrite call_gemini_run, Hk. reflexivity.
Qed.

Ltac keyless Hk := unfold credential; world_norm; exact Hk.

Ltac offline_step Hk :=
  cbn beta iota;
  lazymatch goal with
  | |- wp (if Py.str_in ?a ?b then _ else _) _ _ =>
      let v := eval vm_compute in (Py.str_in a b) in
      change (Py.str_in a b) with v
  | |- wp (parse_resume_agent _ _) _ _ =>
      eapply wp_run; [apply parse_resume_offline; keyless Hk|]
  | |- wp (job_discovery_agent _ _ _) _ _ =>
      eapply wp_run; [apply job_discovery_offline; keyless Hk|]
  | |- wp (interview_prep_agent _ _) _ _ =>
      eapply wp_run; [apply interview_prep_offline; keyless Hk|]
  | |- _ => wp_step
  end;
  cbn [Json.get Json.set String.eqb Ascii.eqb Bool.eqb Dyn.iter Dyn.len
       Dyn.get Dyn.setitem Dyn.contains
       jobs_fallback resume_fallback List.length].

Ltac quiet_tac :=
  unfold quiet; world_norm; eexists;
  split;
  [ rewrite <- ?app_assoc; first [reflexivity | symmetry; apply app_nil_r]
  | split; reflexivity ].

Lemma quiet_trans (a b : nat) (w w1 w2 : World) :
  quiet a w w1 -> quiet b w1 w2 -> quiet (a + b) w w2.
Proof.
  intros (n1 & Ht1 & Hp1 & Hd1) (n2 & Ht2 & Hp2 & Hd2).
  exists (n1 ++ n2)%list.
  split; [rewrite Ht2, Ht1, app_assoc; reflexivity|].
  split; [rewrite filter_app, Hp1, Hp2; reflexivity|].
  rewrite filter_app, Hd1, Hd2, repeat_app. reflexivity.
Qed.

(** Step 1 without a credential. *)
Lemma parse_candidate_offline (env : Env) (ui : Inputs) (resume_text : string)
      (w : World) :
  Py.truthy (credential env w) = false ->
  let profile :=
    JObj [("role", JStr (if Py.truthy (manual_role_input ui)
                         then manual_role_input ui else "Software Engineer"));
          ("skills", JArr [JStr "Python"; JStr "Problem Solving";
                           JStr "Communication"]);
          ("experience_level", JStr "Mid")] in
  wp (parse_candidate env ui resume_text) w
     (fun r w' =>
        r = Ok profile /\
        session w' = set_logs (logs (session w'))
                              (set_parsed_resume (Some profile) (session w)) /\
        quiet 0 w w').
Proof.
  intros Hk profile. subst profile. destruct w as [s t k].
  unfold credential in Hk. world_norm_in Hk.
  unfold parse_candidate.
  do 3 (offline_step Hk).
  destruct (Py.truthy (manual_role_input ui));
    repeat (offline_step Hk);
    (split; [reflexivity|]); (split; [reflexivity|]); quiet_tac.
Qed.

(** Step 2 without a credential. *)
Lemma discover_offline (env : Env) (ui : Inputs) (d : list (string * json))
      (w : World) :
  Py.truthy (credential env w) = false ->
  dataframe_ok env (jobs_fallback env (Json.get "role" JNull d)) = true ->
  let jobs := jobs_fallback env (Json.get "role" JNull d) in
  wp (discover env ui (JObj d)) w
     (fun r w' =>
        r = Ok jobs /\
        session w' = set_logs (logs (session w'))
                              (set_jobs_identified 3
                                 (set_mock_jobs (Some jobs) (session w))) /\
        quiet 0 w w').
Proof.
  intros Hk Hdf jobs. subst jobs. destruct w as [s t k].
  unfold credential in Hk. world_norm_in Hk.
  unfold discover. cbn [Dyn.get].
  set (role := Json.get "role" JNull d) in *.
  repeat first [ rewrite Hdf | offline_step Hk ].
  split; [reflexivity|]. split; [reflexivity|]. quiet_tac.
Qed.

(** One iteration on a sandbox address without a credential. *)
Lemma dispatch_job_offline (env : Env) (ui : Inputs)
      (candidate_info mock_jobs : json) (index : nat) (job : json)
      (w : World) :
  profile_ok candidate_info = true ->
  sandbox job = true ->
  (exists n, Dyn.len mock_jobs = Ok n) ->
  Py.truthy (credential env w) = false ->
  wp (dispatch_job env ui candidate_info mock_jobs index job) w
     (fun r w' =>
        r = Ok true /\
        session w'
        = set_logs (logs (session w'))
            (set_successful_dispatches (successful_dispatches (session w) + 1)
               (set_api_fallbacks (api_fallbacks (session w) + 1)
                                  (session w))) /\
        quiet 1 w w').
Proof.
  intros Hp Hs [n Hn] Hk. destruct w as [s t k].
  unfold credential in Hk. world_norm_in Hk.
  destruct job as [| | | | |d]; try discriminate.
  unfold sandbox, recipient_of in Hs.
  destruct (Json.get "contact_email" (JStr "hr@example.com") d)
    as [| | |r| |] eqn:Er; try discriminate.
  destruct candidate_info as [| | | | |cd]; try discriminate.
  unfold dispatch_job. cbn [Dyn.get Dyn.contains]. rewrite Er, Hn.
  repeat wp_step.
  match goal with
  | |- wp (cover_letter_agent ?e ?c ?co ?ti) ?W _ =>
      destruct (cover_letter_offline e c co ti W) as (letter & Hm & E);
      [exact Hp|keyless Hk|];
      eapply wp_run; [exact E|]; clear E; cbn beta iota
  end.
  change (Py.startswith "Dear" letter
          && Py.str_in "A Dedicated Professional" letter)
    with (marked letter).
  rewrite Hm.
  repeat first [ rewrite Hs | wp_step ].
  split; [reflexivity|]. split; [reflexivity|]. quiet_tac.
Qed.

Lemma keyless_kept (env : Env) (w w' : World) :
  gemini_api_key (session w') = gemini_api_key (session w) ->
  Py.truthy (credential env w) = false ->
  Py.truthy (credential env w') = false.
Proof. unfold credential. intros ->. auto. Qed.

(** The loop on sandbox addresses without a credential. *)
Lemma for_enumerate_offline (env : Env) (ui : Inputs)
      (candidate_info mock_jobs : json) (jobs : list json) :
  profile_ok candidate_info = true ->
  forallb sandbox jobs = true ->
  (exists n, Dyn.len mock_jobs = Ok n) ->
  forall (index : nat) (w : World),
    Py.truthy (credential env w) = false ->
    wp (for_enumerate (dispatch_job env ui candidate_info mock_jobs) index jobs)
       w
       (fun r w' =>
          r = Ok (repeat true (List.length jobs)) /\
          session w'
          = set_logs (logs (session w'))
              (set_successful_dispatches
                 (successful_dispatches (session w) + List.length jobs)
                 (set_api_fallbacks
                    (api_fallbacks (session w) + List.length jobs)
                    (session w))) /\
          quiet (List.length jobs) w w').
Proof.
  intros Hp Hs Hn.
  induction jobs as [|job jobs IH]; intros index w Hk.
  - apply wp_ret. split; [reflexivity|].
    split; [destruct w as [[] t k]; cbn; rewrite !Nat.add_0_r; reflexivity|].
    exists []. rewrite app_nil_r. auto.
  - simpl in Hs. apply andb_prop in Hs. destruct Hs as [Hjob Hrest].
    cbn [for_enumerate List.length repeat]. apply wp_bind.
    eapply wp_mono; [|apply dispatch_job_offline; eassumption].
    cbn beta. intros r w1 (-> & Hs1 & Hq1).
    assert (Hk1 : Py.truthy (credential env w1) = false).
    { eapply keyless_kept; [|exact Hk]. rewrite Hs1. reflexivity. }
    apply wp_bind.
    eapply wp_mono; [|apply (IH Hrest _ _ Hk1)].
    cbn beta. intros r w2 (-> & Hs2 & Hq2).
    apply wp_ret. split; [reflexivity|].
    split; [|exact (quiet_trans 1 _ _ _ _ Hq1 Hq2)].
    rewrite Hs2, Hs1. world_norm.
    unfold set_logs, set_successful_dispatches, set_api_fallbacks.
    world_norm. f_equal; lia.
Qed.

(** Step 4 without a credential. *)
Lemma post_process_offline (env : Env) (d : list (string * json))
      (w : World) :
  Py.truthy (credential env w) = false ->
  wp (post_process env (JObj d)) w
     (fun r w' =>
        r = Ok tt /\
        session w'
        = set_logs (logs (session w'))
            (set_workflow_completed true
               (set_interview_questions (Some interview_prep_fallback)
                                        (session w))) /\
        quiet 0 w w').
Proof.
  intros Hk. destruct w as [s t k].
  unfold credential in Hk. world_norm_in Hk.
  unfold post_process. cbn [Dyn.get].
  repeat (offline_step Hk).
  split; [reflexivity|]. split; [reflexivity|]. quiet_tac.
Qed.

(** The four phases, one after the other. *)
Lemma workflow_phases_offline (env : Env) (ui : Inputs) (resume_text : string)
      (w : World) :
  Py.truthy (credential env w) = false ->
  (forall role, dataframe_ok env (jobs_fallback env role) = true) ->
  let role := JStr (if Py.truthy (manual_role_input ui)
                    then manual_role_input ui else "Software Engineer") in
  let profile :=
    JObj [("role", role);
          ("skills", JArr [JStr "Python"; JStr "Problem Solving";
                           JStr "Communication"]);
          ("experience_level", JStr "Mid")] in
  wp (candidate_info <- parse_candidate env ui resume_text ;;
      mock_jobs <- discover env ui candidate_info ;;
      dispatch_loop env ui candidate_info mock_jobs ;;
      post_process env candidate_info ;;
      ret Proceed) w
     (fun r w' =>
        r = Ok Proceed /\
        session w'
        = set_logs (logs (session w'))
            (set_workflow_completed true
               (set_interview_questions (Some interview_prep_fallback)
                  (set_successful_dispatches
                     (successful_dispatches (session w) + 3)
                     (set_api_fallbacks (api_fallbacks (session w) + 3)
                        (set_jobs_identified 3
                           (set_mock_jobs (Some (jobs_fallback env role))
                              (set_parsed_resume (Some profile)
                                                 (session w)))))))) /\
        quiet 3 w w').
Proof.
  intros Hk0 Hdf role profile. subst profile.
  apply wp_bind. eapply wp_mono; [|apply parse_candidate_offline; exact Hk0].
  cbn beta zeta. fold role. intros r w1 (-> & Hs1 & Hq1).
  assert (Hk1 : Py.truthy (credential env w1) = false).
  { eapply keyless_kept; [|exact Hk0]. rewrite Hs1. reflexivity. }
  apply wp_bind.
  eapply wp_mono; [|apply discover_offline; [exact Hk1|apply Hdf]].
  cbn beta zeta. cbn [Json.get String.eqb Ascii.eqb Bool.eqb].
  intros r w2 (-> & Hs2 & Hq2).
  assert (Hk2 : Py.truthy (credential env w2) = false).
  { eapply keyless_kept; [|exact Hk1]. rewrite Hs2. reflexivity. }
  apply wp_bind. unfold dispatch_loop.
  destruct w2 as [s2 t2 k2].
  assert (Hq2' : quiet 0 {| session := s2; trace := t2; tick := k2 |}
                       {| session := s2;
                          trace := ((t2 ++ [St "markdown"
                                               "#### Dispatching Applications"])
                                    ++ [St "empty" ""])%list;
                          tick := k2 |}) by quiet_tac.
  do 6 wp_step. cbn [Dyn.iter jobs_fallback]. cbn beta iota.
  eapply wp_mono;
    [|apply for_enumerate_offline;
      [reflexivity|reflexivity|eexists; reflexivity|exact Hk2]].
  cbn beta. cbn [List.length].
  intros r w3 (-> & Hs3 & Hq3). cbn [session] in Hs3, Hs2.
  assert (Hk3 : Py.truthy (credential env w3) = false).
  { eapply keyless_kept; [|exact Hk2]. rewrite Hs3. reflexivity. }
  apply wp_bind.
  eapply wp_mono; [|apply post_process_offline; exact Hk3].
  cbn beta. intros r w4 (-> & Hs4 & Hq4).
  apply wp_ret.
  split; [reflexivity|].
  split.
  - rewrite Hs4, Hs3, Hs2, Hs1. reflexivity.
  - exact (quiet_trans _ _ _ _ _ Hq1
             (quiet_trans _ _ _ _ _ Hq2
                (quiet_trans _ _ _ _ _ Hq2'
                   (quiet_trans _ _ _ _ _ Hq3 Hq4)))).
Qed.

(** X22.  Without a credential the workflow is a rehearsal.  Given the
    mail settings, a document with text and a table that accepts the
    fallback opportunities, it runs to its end whatever the operator typed:
    the profile is the fallback profile, with the role of the sidebar when
    there is one; the opportunities are the three fallback ones for that
    role; the three letters are the template, so that the run counts three
    dispatches and three fallbacks; the guide is the fixed list of ten
    questions.  The provider is never asked and no SMTP session is opened:
    the only delays are the three simulated ones. *)
Theorem offline_workflow_rehearsal (env : Env) (ui : Inputs)
        (file : UploadedFile) (w : World) :
  Py.truthy (credential env w) = false ->
  Py.truthy (sender_email ui) = true ->
  Py.truthy (app_password ui) = true ->
  Py.truthy (extracted env file) = true ->
  (forall role, dataframe_ok env (jobs_fallback env role) = true) ->
  let role := JStr (if Py.truthy (manual_role_input ui)
                    then manual_role_input ui else "Software Engineer") in
  wp (workflow env ui file) w
     (fun r w' =>
        r = Ok Proceed /\
        parsed_resume (session w')
        = Some (JObj [("role", role);
                      ("skills", JArr [JStr "Python"; JStr "Problem Solving";
                                       JStr "Communication"]);
                      ("experience_level", JStr "Mid")]) /\
        mock_jobs (session w') = Some (jobs_fallback env role) /\
        jobs_identified (session w') = 3 /\
        successful_dispatches (session w')
        = successful_dispatches (session w) + 3 /\
        api_fallbacks (session w') = api_fallbacks (session w) + 3 /\
        interview_questions (session w') = Some interview_prep_fallback /\
        workflow_completed (session w') = true /\
        exists new,
          trace w' = (trace w ++ new)%list /\
          filter is_provider_call new = [] /\
          filter is_delivery new = [Sleep 3; Sleep 3; Sleep 3]).
Proof.
  intros Hk Hs Hp Ht Hdf role. destruct w as [s t k].
  unfold workflow. rewrite Hs, Hp. cbn [negb orb].
  repeat wp_step.
  unfold extract_text_from_pdf. unfold extracted in Ht.
  destruct (read_text env file) as [text|e]; [|discriminate].
  wp_step. rewrite Ht. cbn [negb].
  eapply wp_mono; [|apply workflow_phases_offline; [exact Hk|exact Hdf]].
  cbn beta zeta. fold role.
  intros r w' (-> & Hs' & new & Ht' & Hp' & Hd').
  split; [reflexivity|].
  rewrite Hs'. world_norm.
  repeat (split; [reflexivity|]).
  world_norm_in Ht'.
  exists (St "spinner" "Extracting text and parsing with Gemini..." :: new).
  split; [rewrite Ht', <- app_assoc; reflexivity|].
  split; [exact Hp'|exact Hd'].
Qed.

Lemma offline_workflow_rehearsal_witness :
  fst (workflow offline operator resume_pdf (start None 0)) = Ok Proceed
  /\ jobs_identified
       (session (snd (workflow offline operator resume_pdf (start None 0))))
     = 3.
Proof.
  pose proof (offline_workflow_rehearsal offline operator resume_pdf
                (start None 0) eq_refl eq_refl eq_refl eq_refl
                (fun _ => eq_refl)) as H.
  unfold wp in H. cbv zeta in H.
  split; [apply H|apply (proj1 (proj2 (proj2 (proj2 H))))].
Defined.
